(** * A shallow embedding of [sync_to_confluence.py]

    The module keeps a local directory of page files in sync with a
    Confluence space.  This development embeds the parts of it that decide
    what is sent to the server and what is persisted locally:
    [ConfluenceAPI.update_page] and the requests it relies on, the
    attachment download path with its failure memory, the
    [LocalContentManager] file operations, and the two reconcilers
    [ContentSyncer.pull_from_confluence] and
    [ContentSyncer.push_to_confluence].

    Modelling conventions.
    - Python code runs in a state-and-exception monad [M]: a raised exception
      keeps every side effect performed before it, as in Python.
    - The HTTP session is a scripted server: every request is appended to
      [sent] and answered by the next element of [script] (an exhausted
      script answers with a connection failure).  Theorems quantify over all
      scripts, so they hold for every behaviour of the server.
    - JSON payloads are modelled by the fields the code reads; a missing key
      is [None], read with the same defaults as the code's [.get] calls.
    - [datetime.now()] reads [clock] (seconds); [time.sleep] advances it.
    - The content directory maps a file stem to its parsed document; it holds
      no sub-directories, so writing a stem that contains a slash fails with
      an [OSError], as [open(..., 'w')] does.
    - MD5 is modelled as collision free: the fingerprint of a file is its
      serialisation.
    - [logger.error] lines are recorded in [errors]; info, debug and warning
      output is not modelled. *)

From Stdlib Require Import String Ascii List ZArith Bool Lia RelationClasses.
From Stdlib Require HexString.
Import ListNotations.

Open Scope bool_scope.
Open Scope string_scope.

(** ** Python containers *)

(** A Python [dict] with string keys, as an association list in insertion
    order: assignment updates an existing key in place and appends a new
    one. *)
Fixpoint dget {V} (k : string) (d : list (string * V)) : option V :=
  match d with
  | [] => None
  | (k', v) :: d' => if String.eqb k k' then Some v else dget k d'
  end.

Fixpoint dset {V} (k : string) (v : V) (d : list (string * V)) : list (string * V) :=
  match d with
  | [] => [(k, v)]
  | (k', v') :: d' =>
      if String.eqb k k' then (k', v) :: d' else (k', v') :: dset k v d'
  end.

Fixpoint ddel {V} (k : string) (d : list (string * V)) : list (string * V) :=
  match d with
  | [] => []
  | (k', v') :: d' => if String.eqb k k' then ddel k d' else (k', v') :: ddel k d'
  end.

Definition dmem {V} (k : string) (d : list (string * V)) : bool :=
  match dget k d with Some _ => true | None => false end.

(** A Python [set] of strings. *)
Definition smem (x : string) (s : list string) : bool := existsb (String.eqb x) s.
Definition sadd (x : string) (s : list string) : list string :=
  if smem x s then s else app s [x].
Definition sremove (x : string) (s : list string) : list string :=
  filter (fun y => negb (String.eqb x y)) s.
Fixpoint set_of (l : list string) : list string :=
  match l with [] => [] | x :: l' => if smem x l' then set_of l' else x :: set_of l' end.

(** Python truthiness of an optional string ([None] and [''] are false). *)
Definition truthy (o : option string) : bool :=
  match o with Some s => negb (String.eqb s EmptyString) | None => false end.

Definition opt_eqb (a b : option string) : bool :=
  match a, b with
  | Some x, Some y => String.eqb x y
  | None, None => true
  | _, _ => false
  end.

(** ** Strings *)

Definition ascii_lower (c : ascii) : ascii :=
  let n := nat_of_ascii c in
  if (65 <=? n)%nat && (n <=? 90)%nat then ascii_of_nat (n + 32) else c.

Definition ascii_isalnum (c : ascii) : bool :=
  let n := nat_of_ascii c in
  ((48 <=? n)%nat && (n <=? 57)%nat) || ((65 <=? n)%nat && (n <=? 90)%nat)
  || ((97 <=? n)%nat && (n <=? 122)%nat).

Fixpoint str_map (f : ascii -> ascii) (s : string) : string :=
  match s with EmptyString => EmptyString | String c s' => String (f c) (str_map f s') end.

(** [str.lower()] on ASCII text. *)
Definition py_lower (s : string) : string := str_map ascii_lower s.

(** [s.replace(a, b)] for single characters. *)
Definition replace_char (a b : ascii) (s : string) : string :=
  str_map (fun c => if Ascii.eqb c a then b else c) s.

(** [s.replace(pat, '')]: every occurrence of [pat], scanned left to right. *)
Fixpoint remove_all_fuel (fuel : nat) (pat s : string) : string :=
  match fuel with
  | O => s
  | S f =>
      match s with
      | EmptyString => EmptyString
      | String c s' =>
          if String.prefix pat s
          then remove_all_fuel f pat (substring (String.length pat) (String.length s) s)
          else String c (remove_all_fuel f pat s')
      end
  end.
Definition remove_all (pat s : string) : string :=
  if String.eqb pat EmptyString then s else remove_all_fuel (String.length s) pat s.

Definition contains_char (c : ascii) (s : string) : bool :=
  existsb (Ascii.eqb c) (list_ascii_of_string s).

Definition slash : ascii := "/"%char.

(** [sub in s]. *)
Fixpoint contains_sub (sub s : string) : bool :=
  if String.prefix sub s then true
  else match s with EmptyString => false | String _ s' => contains_sub sub s' end.

(** ** Documents *)

(** The [body] of a page as the code reads it. *)
Inductive Body :=
| BStorage (v : string)  (* {'storage': {'value': v, ...}}: the server's shape *)
| BFlat (v : string)     (* {'representation': 'storage', 'value': v}: save_content's shape *)
| BEmpty.                (* {} or no body *)

(** [content.get('body', {}).get('storage', {}).get('value', '')] *)
Definition storage_value (b : Body) : string :=
  match b with BStorage v => v | _ => EmptyString end.

(** A page dict: from the server, or the parsed contents of a local file. *)
Record Page := mkPage {
  p_id : option string;
  p_title : option string;
  p_status : option string;
  p_body : Body;
  p_version : option Z;        (* version.number *)
  p_spaceId : option string }.

Definition empty_page : Page := mkPage None None None BEmpty None None.

Definition set_id (i : option string) (p : Page) : Page :=
  mkPage i (p_title p) (p_status p) (p_body p) (p_version p) (p_spaceId p).

Definition ostr (o : option string) : string :=
  match o with Some s => "'" ++ s ++ "'" | None => "null" end.

Definition serialize_body (b : Body) : string :=
  match b with
  | BStorage v => "{storage:{value:'" ++ v ++ "'}}"
  | BFlat v => "{representation:'storage',value:'" ++ v ++ "'}"
  | BEmpty => "{}"
  end.

(** The bytes of a document file. *)
Definition serialize (p : Page) : string :=
  "{id:" ++ ostr (p_id p) ++ ",title:" ++ ostr (p_title p)
  ++ ",status:" ++ ostr (p_status p) ++ ",body:" ++ serialize_body (p_body p)
  ++ ",version:" ++ match p_version p with Some z => HexString.of_Z z | None => "null" end
  ++ ",spaceId:" ++ ostr (p_spaceId p) ++ "}".

(** [LocalContentManager._get_file_hash]: MD5 of the file bytes, modelled
    as collision free. *)
Definition file_hash (p : Page) : string := serialize p.

(** Attachment metadata: [id], [title], [_links.download]. *)
Record Attachment := mkAttachment {
  a_id : option string;
  a_title : option string;
  a_download : option string }.

(** ** The HTTP session *)

(** The body sent with [session.put] by [update_page]. *)
Record PutData := mkPutData {
  pd_id : string;
  pd_status : string;
  pd_title : string;
  pd_value : string;
  pd_version : Z;
  pd_spaceId : option string }.

(** The body sent with [session.post] by [create_page]. *)
Record PostData := mkPostData {
  po_spaceId : string;
  po_title : string;
  po_value : string }.

Inductive Req :=
| ReqGetSpaces (keys : option string)
| ReqListPages (space_id : option string)
| ReqGetPage (page_id : string)
| ReqPutPage (page_id : string) (data : PutData)
| ReqPostPage (data : PostData)
| ReqDeletePage (page_id : string)
| ReqGetAttachments (page_id : string)
| ReqGetAttachmentMeta (attachment_id : string) (part : string)
| ReqDownload (url : string).

(** A successful response body.  Every JSON variant is a dict; [RBytes] is
    a body that is not JSON. *)
Inductive RBody :=
| RPage (p : Page)
| RPages (results : list Page)
| RSpaces (results : list (option string * option string))   (* (key, id) *)
| RAtts (results : list Attachment)
| RBytes (b : string)
| RNone.

(** A response: 2xx, an HTTP error ([raise_for_status] raises; [err_json]
    says whether the error body decodes as a JSON object), or a transport
    failure raising a [RequestException] with no response. *)
Inductive Resp :=
| ROk (b : RBody)
| RErr (code : Z) (err_json : bool)
| RNet.

Definition as_page (b : RBody) : Page := match b with RPage p => p | _ => empty_page end.
Definition as_pages (b : RBody) : list Page := match b with RPages l => l | _ => [] end.
Definition as_spaces (b : RBody) : list (option string * option string) :=
  match b with RSpaces l => l | _ => [] end.
Definition as_atts (b : RBody) : list Attachment := match b with RAtts l => l | _ => [] end.

(** [response.content] *)
Definition body_bytes (b : RBody) : string :=
  match b with RBytes s => s | RPage p => serialize p | _ => "{}" end.

(** A response whose body is then read with [response.json()]: a 2xx body
    that is not JSON makes [.json()] raise [requests.JSONDecodeError], a
    [RequestException] carrying no response, like a transport failure. *)
Definition json_resp (r : Resp) : Resp :=
  match r with ROk (RBytes _) => RNet | _ => r end.

(** ** Exceptions and persisted files *)

Inductive Exn :=
| ConfluenceAPIError (message : string) (status_code : option Z)
| OSError (path : string)
| JSONDecodeError (path : string)
| KeyError (key : string)
| TypeError (message : string)
| ValueError (message : string)
| AttributeError (name : string)
| IndexError (message : string)
| UnicodeDecodeError (path : string).

(** A JSON file in the cache directory: missing, bytes that are not text in
    the locale's encoding (reading raises [UnicodeDecodeError]), text that
    [json.load] rejects ([JSONDecodeError]), or a decoded value. *)
Inductive Persisted (A : Type) :=
| PMissing
| PBadText
| PCorrupt
| PValid (a : A).
Arguments PMissing {A}.
Arguments PBadText {A}.
Arguments PCorrupt {A}.
Arguments PValid {A} a.

(** A JSON value as [json.load] returns it.  A string carries what
    [datetime.fromisoformat] makes of it: [Some t] when it reads a naive
    date-time, [t] seconds on the clock; [None] when it raises
    [ValueError], or reads an aware date-time, which the code subtracts from
    the naive [datetime.now()], raising [TypeError]. *)
Inductive Json :=
| JNull
| JBool (b : bool)
| JNum (n : Z)                       (* an int or a float: only its type is used *)
| JStr (s : string) (iso : option Z)
| JArr (l : list Json)
| JObj (m : list (string * Json)).   (* each key once *)

(** [str(n)] padded with zeros to [k] digits. *)
Fixpoint digits (k : nat) (n : Z) : string :=
  match k with
  | O => EmptyString
  | S k' => digits k' (n / 10) ++ String (ascii_of_nat (48 + Z.to_nat (n mod 10))) EmptyString
  end.

(** The proleptic Gregorian date [(year, month, day)] of day [z] counted from
    1970-01-01. *)
Definition civil_from_days (z : Z) : Z * Z * Z :=
  let z := (z + 719468)%Z in
  let era := (z / 146097)%Z in
  let doe := (z - era * 146097)%Z in
  let yoe := ((doe - doe / 1460 + doe / 36524 - doe / 146096) / 365)%Z in
  let doy := (doe - (365 * yoe + yoe / 4 - yoe / 100))%Z in
  let mp := ((5 * doy + 2) / 153)%Z in
  let d := (doy - (153 * mp + 2) / 5 + 1)%Z in
  let m := if (mp <? 10)%Z then (mp + 3)%Z else (mp - 9)%Z in
  ((yoe + era * 400 + (if (m <=? 2)%Z then 1 else 0))%Z, m, d).

(** [datetime.isoformat()] of the naive date-time [t] seconds after
    1970-01-01T00:00:00; the clock has no microseconds, so none are
    printed. *)
Definition isoformat (t : Z) : string :=
  let '(y, mo, d) := civil_from_days (t / 86400) in
  let r := (t mod 86400)%Z in
  digits 4 y ++ "-" ++ digits 2 mo ++ "-" ++ digits 2 d ++ "T" ++
  digits 2 (r / 3600) ++ ":" ++ digits 2 (r mod 3600 / 60) ++ ":" ++ digits 2 (r mod 60).

(** ** Program state *)
Record St := mkSt {
  content_dir : list (string * Page);               (* content/<stem>.json *)
  attach_dir : list (string * string);              (* attachments/<path> -> bytes *)
  idmap_file : Persisted (list (string * string));  (* cache/id_mapping.json *)
  cache_file : Persisted (list (string * string));  (* cache/sync_cache.json *)
  deleted_file : Persisted (list string);           (* cache/deleted_pages.json *)
  failed_file : Persisted Json;                     (* cache/.failed_attachments *)
  id_to_filename : list (string * string);          (* ContentSyncer.local.id_to_filename *)
  clock : Z;
  script : list Resp;
  sent : list Req;
  errors : list string }.

Inductive Res (A : Type) := Ok (a : A) | Err (e : Exn).
Arguments Ok {A} a.
Arguments Err {A} e.

Definition M (A : Type) := St -> Res A * St.

Definition ret {A} (a : A) : M A := fun s => (Ok a, s).
Definition bind {A B} (m : M A) (f : A -> M B) : M B :=
  fun s => match m s with
           | (Ok a, s') => f a s'
           | (Err e, s') => (Err e, s')
           end.
Definition raise {A} (e : Exn) : M A := fun s => (Err e, s).

Notation "x <- m ;; k" := (bind m (fun x => k))
  (at level 61, m at next level, right associativity).
Notation "m ;;; k" := (bind m (fun _ => k)) (at level 61, right associativity).

(** [try: m except ConfluenceAPIError as e: h(e.message, e.status_code)];
    other exceptions propagate. *)
Definition catch_api {A} (m : M A) (h : string -> option Z -> M A) : M A :=
  fun s => match m s with
           | (Err (ConfluenceAPIError msg c), s') => h msg c s'
           | r => r
           end.

(** [try: m except Exception: h]. *)
Definition catch_all {A} (m : M A) (h : Exn -> M A) : M A :=
  fun s => match m s with
           | (Err e, s') => h e s'
           | r => r
           end.

(** [try: m except OSError: h]. *)
Definition catch_os {A} (m : M A) (h : M A) : M A :=
  fun s => match m s with
           | (Err (OSError _), s') => h s'
           | r => r
           end.

(** *** Primitive effects *)

Definition http (r : Req) : M Resp :=
  fun s =>
    let '(resp, rest) := match script s with
                         | [] => (RNet, [])
                         | x :: xs => (x, xs)
                         end in
    (Ok resp, mkSt (content_dir s) (attach_dir s) (idmap_file s) (cache_file s)
                   (deleted_file s) (failed_file s) (id_to_filename s) (clock s)
                   rest (app (sent s) [r]) (errors s)).

Definition now : M Z := fun s => (Ok (clock s), s).

Definition sleep (n : Z) : M unit :=
  fun s => (Ok tt, mkSt (content_dir s) (attach_dir s) (idmap_file s) (cache_file s)
                        (deleted_file s) (failed_file s) (id_to_filename s) (clock s + n)
                        (script s) (sent s) (errors s)).

Definition log_error (msg : string) : M unit :=
  fun s => (Ok tt, mkSt (content_dir s) (attach_dir s) (idmap_file s) (cache_file s)
                        (deleted_file s) (failed_file s) (id_to_filename s) (clock s)
                        (script s) (sent s) (app (errors s) [msg])).

Definition get_state : M St := fun s => (Ok s, s).

(** The length in bytes of the UTF-8 encoding of a name (a character of a
    model string is a code point below 256). *)
Definition utf8_length (s : string) : nat :=
  fold_right (fun c n => ((if (nat_of_ascii c <? 128)%nat then 1 else 2) + n)%nat) O
             (list_ascii_of_string s).

(** What [open(<dir>/name, 'w')] raises, [path] being the path it reports:
    a NUL character gives [ValueError]; a slash names a sub-directory that
    does not exist, and a name of more than 255 bytes is too long, both
    [OSError]. *)
Definition open_error (path name : string) : option Exn :=
  if contains_char (ascii_of_nat 0) name then Some (ValueError "embedded null byte")
  else if contains_char slash name || (255 <? utf8_length name)%nat then Some (OSError path)
  else None.

(** Write [content/<stem>.json]. *)
Definition write_content_file (stem : string) (p : Page) : M unit :=
  fun s =>
    match open_error (stem ++ ".json") (stem ++ ".json") with
    | Some e => (Err e, s)
    | None => (Ok tt, mkSt (dset stem p (content_dir s)) (attach_dir s) (idmap_file s)
                           (cache_file s) (deleted_file s) (failed_file s) (id_to_filename s)
                           (clock s) (script s) (sent s) (errors s))
    end.

(** Write [attachments/<dir>/<name>] ([dir] is created first). *)
Definition write_attach_file (dir name bytes : string) : M unit :=
  fun s =>
    match open_error (dir ++ "/" ++ name) name with
    | Some e => (Err e, s)
    | None => (Ok tt, mkSt (content_dir s) (dset (dir ++ "/" ++ name) bytes (attach_dir s))
                           (idmap_file s) (cache_file s) (deleted_file s) (failed_file s)
                           (id_to_filename s) (clock s) (script s) (sent s) (errors s))
    end.

Definition set_failed_file (f : Persisted Json) : M unit :=
  fun s => (Ok tt, mkSt (content_dir s) (attach_dir s) (idmap_file s) (cache_file s)
                        (deleted_file s) f (id_to_filename s) (clock s)
                        (script s) (sent s) (errors s)).

Definition set_cache_file (c : list (string * string)) : M unit :=
  fun s => (Ok tt, mkSt (content_dir s) (attach_dir s) (idmap_file s) (PValid c)
                        (deleted_file s) (failed_file s) (id_to_filename s) (clock s)
                        (script s) (sent s) (errors s)).

Definition set_deleted_file (d : list string) : M unit :=
  fun s => (Ok tt, mkSt (content_dir s) (attach_dir s) (idmap_file s) (cache_file s)
                        (PValid d) (failed_file s) (id_to_filename s) (clock s)
                        (script s) (sent s) (errors s)).

Definition set_id_to_filename (m : list (string * string)) : M unit :=
  fun s => (Ok tt, mkSt (content_dir s) (attach_dir s) (idmap_file s) (cache_file s)
                        (deleted_file s) (failed_file s) m (clock s)
                        (script s) (sent s) (errors s)).

(** ** [ConfluenceAPI] *)

Section Config.

(** [CONFLUENCE_SPACE_KEY] and [CONFLUENCE_URL]. *)
Variable space_key : string.
Variable base_url : string.

(** [get_page_by_id]: returns the decoded JSON of the page. *)
Definition get_page_by_id (page_id : string) : M RBody :=
  r <- http (ReqGetPage page_id) ;;
  match json_resp r with
  | ROk b => ret b
  | _ => raise (ConfluenceAPIError ("Failed to get page " ++ page_id) None)
  end.

(** [get_space_id]: the id of the space whose key is [space_key]. *)
Definition get_space_id : M string :=
  r <- http (ReqGetSpaces None) ;;
  match json_resp r with
  | ROk b =>
      match find (fun kv => opt_eqb (fst kv) (Some space_key)) (as_spaces b) with
      | None => raise (ConfluenceAPIError ("Space not found") (Some 404%Z))
      | Some (_, sid) =>
          if truthy sid
          then ret (match sid with Some x => x | None => EmptyString end)
          else raise (ConfluenceAPIError ("Could not get ID for space") (Some 404%Z))
      end
  | RErr code _ => raise (ConfluenceAPIError "Failed to get space ID" (Some code))
  | RNet => raise (ConfluenceAPIError "Failed to get space ID" None)
  end.

(** *** [update_page]

    [update_data] is a dict whose ['version'] entry is itself a dict.
    [update_data.copy()] is a shallow copy: the copy shares that inner dict.
    The model keeps the inner ['version'] dicts in a small heap [VHeap]
    (location to ['number']), and [UpdateData] holds the location. *)

Definition VHeap := list (nat * Z).

Fixpoint hread (h : VHeap) (l : nat) : Z :=
  match h with
  | [] => 0
  | (l', v) :: h' => if Nat.eqb l l' then v else hread h' l
  end.

Definition hwrite (h : VHeap) (l : nat) (v : Z) : VHeap := (l, v) :: h.

Record UpdateData := mkUpdateData {
  ud_id : string;
  ud_status : string;
  ud_title : string;
  ud_value : string;
  ud_version : nat;            (* location of the ['version'] dict *)
  ud_spaceId : option string }.

(** [json=update_data]: the dict as serialised when the request is sent. *)
Definition put_data (h : VHeap) (u : UpdateData) : PutData :=
  mkPutData (ud_id u) (ud_status u) (ud_title u) (ud_value u)
            (hread h (ud_version u)) (ud_spaceId u).

Definition draft : string := "draft".

(** The wait loop of the draft conversion:
    [while draft_check_count < max_draft_checks: ...] with
    [max_draft_checks = 3].  [fuel] only makes the loop structural. *)
Fixpoint draft_wait (page_id : string) (fuel : nat) (count : Z) : M unit :=
  match fuel with
  | O => ret tt
  | S f =>
      if (count <? 3)%Z then
        sleep 1 ;;;
        cur <- get_page_by_id page_id ;;
        if opt_eqb (p_status (as_page cur)) (Some draft) then ret tt
        else
          let count' := (count + 1)%Z in
          if (count' =? 3)%Z
          then raise (ConfluenceAPIError
                        ("Failed to convert page " ++ page_id ++ " to draft status after 3 attempts")
                        (Some 400%Z))
          else draft_wait page_id f count'
      else ret tt
  end.

(** Step 1 of a space move: the draft PUT and the wait.  A
    [RequestException] from the PUT becomes
    [ConfluenceAPIError(msg, e)], whose [status_code] is the exception
    object, not an integer. *)
Definition draft_convert (page_id : string) (h : VHeap) (draft_data : UpdateData) : M unit :=
  r <- http (ReqPutPage page_id (put_data h draft_data)) ;;
  match r with
  | ROk _ => draft_wait page_id 3 0
  | _ => raise (ConfluenceAPIError ("Failed to convert page " ++ page_id ++ " to draft") None)
  end.

(** The final PUT and its error handling.  An HTTP error whose body
    decodes as JSON raises [ConfluenceAPIError] with the HTTP status; other
    failures raise it with the exception object as [status_code]. *)
Definition final_put (page_id : string) (h : VHeap) (u : UpdateData) : M RBody :=
  r <- http (ReqPutPage page_id (put_data h u)) ;;
  match json_resp r with
  | ROk b => ret b
  | RErr code true =>
      log_error ("Error updating page " ++ page_id) ;;;
      raise (ConfluenceAPIError ("Failed to update page " ++ page_id) (Some code))
  | _ => raise (ConfluenceAPIError ("Failed to update page " ++ page_id) None)
  end.

Definition update_page (page_id : string) (content : Page) : M RBody :=
  current_page <- catch_api (get_page_by_id page_id)
                    (fun msg c => log_error ("Failed to get current page version: " ++ msg) ;;;
                                  raise (ConfluenceAPIError msg c)) ;;
  let current_version := match p_version (as_page current_page) with
                         | Some n => n | None => 1%Z end in
  let vloc := 0%nat in
  let h0 : VHeap := [(vloc, (current_version + 1)%Z)] in
  let update_data :=
    mkUpdateData page_id "current"
                 (match p_title content with Some t => t | None => EmptyString end)
                 (storage_value (p_body content)) vloc None in
  let current_space_id := p_spaceId (as_page current_page) in
  new_space_id <- get_space_id ;;
  let is_space_move := negb (opt_eqb current_space_id (Some new_space_id)) in
  if is_space_move then
    h <- (if negb (opt_eqb (p_status (as_page current_page)) (Some draft)) then
            (* draft_data = update_data.copy(); draft_data['status'] = 'draft';
               draft_data['version']['number'] = 1 *)
            let draft_data := mkUpdateData (ud_id update_data) draft (ud_title update_data)
                                (ud_value update_data) (ud_version update_data)
                                (ud_spaceId update_data) in
            let h1 := hwrite h0 (ud_version draft_data) 1 in
            draft_convert page_id h1 draft_data ;;; ret h1
          else ret h0) ;;
    let moved := mkUpdateData (ud_id update_data) (ud_status update_data)
                   (ud_title update_data) (ud_value update_data)
                   (ud_version update_data) (Some new_space_id) in
    final_put page_id h moved
  else final_put page_id h0 update_data.

(** [create_page] *)
Definition create_page (content : Page) : M RBody :=
  space_id <- get_space_id ;;
  r <- http (ReqPostPage (mkPostData space_id
                            (match p_title content with Some t => t | None => EmptyString end)
                            (storage_value (p_body content)))) ;;
  match json_resp r with
  | ROk b => ret b
  | RErr code _ => raise (ConfluenceAPIError "Failed to create page" (Some code))
  | RNet => raise (ConfluenceAPIError "Failed to create page" None)
  end.

(** [delete_page].  The 404 test reads [if e.response and ...]; a
    [requests.Response] is falsy when its status is an error, so the test
    never holds and every error response raises. *)
Definition delete_page (page_id : string) : M unit :=
  r <- http (ReqDeletePage page_id) ;;
  match r with
  | ROk _ => ret tt
  | RErr code _ => raise (ConfluenceAPIError ("Failed to delete page " ++ page_id) (Some code))
  | RNet => raise (ConfluenceAPIError ("Failed to delete page " ++ page_id) None)
  end.

(** [get_space_content]: the first space returned for [keys=space_key],
    then its pages.  The result is [data.get('results', [])]. *)
Definition get_space_content : M (list Page) :=
  r <- http (ReqGetSpaces (Some space_key)) ;;
  match json_resp r with
  | ROk b =>
      match as_spaces b with
      | [] => raise (ConfluenceAPIError ("Space " ++ space_key ++ " not found") None)
      | (_, sid) :: _ =>
          r2 <- http (ReqListPages sid) ;;
          match json_resp r2 with
          | ROk b2 => ret (as_pages b2)
          | _ => raise (ConfluenceAPIError "Failed to get space content" None)
          end
      end
  | _ => raise (ConfluenceAPIError "Failed to get space content" None)
  end.

(** [get_attachments] with its defaults ([limit=50]); the Link-header
    pagination is collapsed into one response carrying every result. *)
Definition get_attachments (page_id : string) : M (list Attachment) :=
  r <- http (ReqGetAttachments page_id) ;;
  match json_resp r with
  | ROk b => ret (firstn 50 (as_atts b))
  | _ => log_error ("Failed to get attachments for page " ++ page_id) ;;;
         raise (ConfluenceAPIError ("Failed to get attachments for page " ++ page_id) None)
  end.

(** One of the optional parts of [get_attachment_metadata]: read only when
    [response.ok]. *)
Definition meta_part (attachment_id part : string) : M unit :=
  r <- http (ReqGetAttachmentMeta attachment_id part) ;;
  match json_resp r with
  | ROk _ => ret tt
  | RErr _ _ => ret tt
  | RNet => raise (ConfluenceAPIError ("Failed to get metadata for attachment " ++ attachment_id) None)
  end.

Definition get_attachment_metadata (attachment_id : string) : M unit :=
  r <- http (ReqGetAttachmentMeta attachment_id EmptyString) ;;
  match json_resp r with
  | ROk _ =>
      meta_part attachment_id "versions" ;;;
      meta_part attachment_id "labels" ;;;
      meta_part attachment_id "properties"
  | _ => log_error ("Failed to get metadata for attachment " ++ attachment_id) ;;;
         raise (ConfluenceAPIError ("Failed to get metadata for attachment " ++ attachment_id) None)
  end.

(** [_save_attachment_metadata]: writes [<page_id>/.metadata/<title>.json]
    (its JSON contents, the metadata dict, are not modelled: the file holds
    [{}]); every exception becomes a warning. *)
Definition save_attachment_metadata (page_id : string) (att : Attachment) : M unit :=
  catch_all
    (match a_id att with
     | None => raise (KeyError "id")
     | Some aid =>
         get_attachment_metadata aid ;;;
         match a_title att with
         | None => raise (KeyError "title")
         | Some t => write_attach_file (page_id ++ "/.metadata") (t ++ ".json") "{}"
         end
     end)
    (fun _ => ret tt).

(** *** Failure memory ([.failed_attachments]) *)

(** [timedelta(hours=24)] in seconds. *)
Definition day : Z := 86400.

Definition last_or (d : Z) (l : list Z) : Z := last l d.

(** Python operations on a decoded JSON value, with the exceptions they
    raise on a value of another type. *)

(** [key in value] *)
Definition py_in (k : string) (j : Json) : M bool :=
  match j with
  | JObj m => ret (dmem k m)
  | JArr l => ret (existsb (fun x => match x with JStr s _ => String.eqb s k | _ => false end) l)
  | JStr s _ => ret (contains_sub k s)
  | _ => raise (TypeError "argument is not iterable")
  end.

(** [value[key]] *)
Definition py_getitem (j : Json) (k : string) : M Json :=
  match j with
  | JObj m => match dget k m with Some v => ret v | None => raise (KeyError k) end
  | JArr _ | JStr _ _ => raise (TypeError "indices must be integers")
  | _ => raise (TypeError "object is not subscriptable")
  end.

(** [value[key] = v] *)
Definition py_setitem (j : Json) (k : string) (v : Json) : M Json :=
  match j with
  | JObj m => ret (JObj (dset k v m))
  | JArr _ => raise (TypeError "list indices must be integers or slices, not str")
  | _ => raise (TypeError "object does not support item assignment")
  end.

(** [del value[key]] *)
Definition py_delitem (j : Json) (k : string) : M Json :=
  match j with
  | JObj m => if dmem k m then ret (JObj (ddel k m)) else raise (KeyError k)
  | JArr _ => raise (TypeError "list indices must be integers or slices, not str")
  | _ => raise (TypeError "object does not support item deletion")
  end.

(** [len(value)] *)
Definition py_len (j : Json) : M nat :=
  match j with
  | JArr l => ret (length l)
  | JStr s _ => ret (String.length s)
  | JObj m => ret (length m)
  | _ => raise (TypeError "object has no len()")
  end.

(** [value[-1]]: the last character of a string is a one-character string,
    which is not an ISO date-time. *)
Definition py_last (j : Json) : M Json :=
  match j with
  | JArr (x :: l) => ret (last l x)
  | JArr [] => raise (IndexError "list index out of range")
  | JStr s _ =>
      if (String.length s =? 0)%nat then raise (IndexError "string index out of range")
      else ret (JStr (substring (String.length s - 1) 1 s) None)
  | JObj _ => raise (KeyError "-1")
  | _ => raise (TypeError "object is not subscriptable")
  end.

(** [value.append(x)]: the list after the call. *)
Definition py_append (j x : Json) : M (list Json) :=
  match j with
  | JArr l => ret (app l [x])
  | _ => raise (AttributeError "append")
  end.

(** [datetime.fromisoformat(value)], as seconds on the clock. *)
Definition fromisoformat (j : Json) : M Z :=
  match j with
  | JStr _ (Some t) => ret t
  | JStr s None => raise (ValueError ("Invalid isoformat string: " ++ s))
  | _ => raise (TypeError "fromisoformat: argument must be str")
  end.

(** The string [datetime.now().isoformat()] writes, as read back. *)
Definition stamp (t : Z) : Json := JStr (isoformat t) (Some t).

(** [_should_skip_attachment]: a missing file, or one [json.load] rejects,
    means "do not skip"; every other exception propagates. *)
Definition should_skip_attachment (filename : string) : M bool :=
  s <- get_state ;;
  match failed_file s with
  | PMissing => ret false
  | PBadText => raise (UnicodeDecodeError ".failed_attachments")
  | PCorrupt => ret false
  | PValid failed_attachments =>
      found <- py_in filename failed_attachments ;;
      if found then
        failures <- py_getitem failed_attachments filename ;;
        n <- py_len failures ;;
        if (3 <=? n)%nat then
          last_j <- py_last failures ;;
          last_failure <- fromisoformat last_j ;;
          t <- now ;;
          ret ((t - last_failure) <? day)%Z
        else ret false
      else ret false
  end.

(** [[ts for ts in l
      if datetime.now() - datetime.fromisoformat(ts) < timedelta(hours=24)]] *)
Fixpoint keep_recent (l : list Json) : M (list Json) :=
  match l with
  | [] => ret []
  | ts :: rest =>
      t <- now ;;
      d <- fromisoformat ts ;;
      rest' <- keep_recent rest ;;
      ret (if (t - d <? day)%Z then ts :: rest' else rest')
  end.

(** [_mark_failed_attachment]: append [datetime.now().isoformat()], then
    keep only the timestamps less than 24 hours old, and write the dict
    back.  [append] changes the list held by the dict, which the
    comprehension then reads.  Only [JSONDecodeError] (and [OSError]) is
    caught and logged, leaving the file as it is. *)
Definition mark_failed_attachment (filename : string) : M unit :=
  s <- get_state ;;
  match failed_file s with
  | PBadText => raise (UnicodeDecodeError ".failed_attachments")
  | PCorrupt => log_error "Failed to update failed attachments list"
  | f =>
      let failed_attachments := match f with PValid j => j | _ => JObj [] end in
      found <- py_in filename failed_attachments ;;
      failed_attachments <- (if found then ret failed_attachments
                             else py_setitem failed_attachments filename (JArr [])) ;;
      entry <- py_getitem failed_attachments filename ;;
      t <- now ;;
      failures <- py_append entry (stamp t) ;;
      recent <- keep_recent failures ;;
      failed_attachments <- py_setitem failed_attachments filename (JArr recent) ;;
      set_failed_file (PValid failed_attachments)
  end.

(** [_clear_failed_attachment] *)
Definition clear_failed_attachment (filename : string) : M unit :=
  s <- get_state ;;
  match failed_file s with
  | PMissing => ret tt
  | PBadText => raise (UnicodeDecodeError ".failed_attachments")
  | PCorrupt => log_error "Failed to clear failed attachment"
  | PValid failed_attachments =>
      found <- py_in filename failed_attachments ;;
      failed_attachments <- (if found then py_delitem failed_attachments filename
                             else ret failed_attachments) ;;
      set_failed_file (PValid failed_attachments)
  end.

(** *** [download_attachment] *)

(** [re.sub(r'^/(wiki|rest)/', '/', download_url)] *)
Definition clean_path (p : string) : string :=
  if String.prefix "/wiki/" p then "/" ++ substring 6 (String.length p) p
  else if String.prefix "/rest/" p then "/" ++ substring 6 (String.length p) p
  else p.

Definition url_patterns (page_id download_url : string) : list string :=
  if String.prefix "/" download_url then
    let clean := clean_path download_url in
    [base_url ++ clean; base_url ++ "/wiki" ++ clean; base_url ++ "/rest" ++ clean;
     base_url ++ "/download" ++ clean]
    ++ (if contains_sub "download" clean
        then [base_url ++ "/attachments/" ++ page_id ++ "/download";
              base_url ++ "/wiki/attachments/" ++ page_id ++ "/download"]
        else [])
  else [download_url].

(** [for attempt in range(max_retries)] on one URL, [max_retries = 3]: a
    404 breaks to the next URL, other failures sleep [attempt + 1] seconds
    (except after the last attempt) and retry. *)
Fixpoint download_attempts (url : string) (attempt : nat) (fuel : nat) : M (option string) :=
  match fuel with
  | O => ret None
  | S f =>
      r <- http (ReqDownload url) ;;
      match r with
      | ROk b => ret (Some (body_bytes b))
      | RErr 404 _ => ret None
      | _ => (if (attempt <? 2)%nat then sleep (Z.of_nat (attempt + 1)) else ret tt) ;;;
             download_attempts url (S attempt) f
      end
  end.

Fixpoint download_urls (page_id : string) (urls : list string) : M (option string) :=
  match urls with
  | [] => ret None
  | u :: us =>
      r <- download_attempts u 0 3 ;;
      match r with
      | Some b => ret (Some b)
      | None => download_urls page_id us
      end
  end.

Definition download_attachment (page_id : string) (att : Attachment) : M string :=
  match a_download att with
  | Some u =>
      if truthy (Some u) then
        r <- download_urls page_id (url_patterns page_id u) ;;
        match r with
        | Some b => ret b
        | None => log_error "Failed to download attachment after trying multiple URLs" ;;;
                  raise (ConfluenceAPIError "Failed to download attachment after trying multiple URLs" None)
        end
      else log_error "No download URL found for attachment" ;;;
           raise (ConfluenceAPIError "No download URL found for attachment" None)
  | None => log_error "No download URL found for attachment" ;;;
            raise (ConfluenceAPIError "No download URL found for attachment" None)
  end.

(** [ConfluenceAPI._download_attachment]: the one [pull_from_confluence]
    calls.  The skip check runs outside the [try]. *)
Definition download_attachment_to_disk (page_id : string) (att : Attachment) : M unit :=
  let filename := match a_title att with Some t => t | None => EmptyString end in
  if String.eqb filename EmptyString then ret tt
  else
    skip <- should_skip_attachment filename ;;
    if skip then ret tt
    else
      catch_all
        (content <- download_attachment page_id att ;;
         catch_os (write_attach_file page_id filename content ;;;
                   clear_failed_attachment filename ;;;
                   save_attachment_metadata page_id att)
                  (log_error ("Failed to write attachment " ++ filename ++ " to disk")))
        (fun e =>
           match e with
           | ConfluenceAPIError msg _ =>
               log_error ("Failed to download attachment " ++ filename ++ ": " ++ msg) ;;;
               mark_failed_attachment filename
           | _ =>
               log_error ("Unexpected error downloading attachment " ++ filename) ;;;
               mark_failed_attachment filename
           end).

(** ** [LocalContentManager] *)

(** [_load_id_mapping]: a missing or unreadable file gives [{}]. *)
Definition load_id_mapping (f : Persisted (list (string * string))) : list (string * string) :=
  match f with PValid m => m | _ => [] end.

(** Constructing a [ContentSyncer] (a new process) loads the ID mapping. *)
Definition start_syncer (s : St) : St :=
  mkSt (content_dir s) (attach_dir s) (idmap_file s) (cache_file s) (deleted_file s)
       (failed_file s) (load_id_mapping (idmap_file s)) (clock s) (script s) (sent s)
       (errors s).

(** [_save_id_mapping] *)
Definition save_id_mapping : M unit :=
  fun s => (Ok tt, mkSt (content_dir s) (attach_dir s) (PValid (id_to_filename s))
                        (cache_file s) (deleted_file s) (failed_file s) (id_to_filename s)
                        (clock s) (script s) (sent s) (errors s)).

(** [_sanitize_filename] (no caller in the module). *)
Fixpoint split_dash (s : string) (cur : string) : list string :=
  match s with
  | EmptyString => [cur]
  | String c s' => if Ascii.eqb c "-"%char then cur :: split_dash s' EmptyString
                   else split_dash s' (cur ++ String c EmptyString)
  end.

Fixpoint join_dash (l : list string) : string :=
  match l with
  | [] => EmptyString
  | [x] => x
  | x :: l' => x ++ "-" ++ join_dash l'
  end.

Definition sanitize_filename (title : string) : string :=
  let safe_name := str_map (fun c => if ascii_isalnum c then ascii_lower c else "-"%char) title in
  let safe_name := join_dash (filter (fun p => negb (String.eqb p EmptyString))
                                     (split_dash safe_name EmptyString)) in
  substring 0 100 safe_name.

(** The file stem [save_content] writes to:
    [content.get('title', 'untitled').lower().replace(' ', '_')]. *)
Definition save_stem (content : Page) : string :=
  replace_char " "%char "_"%char
    (py_lower (match p_title content with Some t => t | None => "untitled" end)).

(** The dict [save_content] writes. *)
Definition saved_page (content : Page) : Page :=
  mkPage (p_id content) (p_title content) (p_status content)
         (match p_body content with BStorage v => BFlat v | _ => BEmpty end)
         (p_version content) None.

(** [save_content]: the [_mapping] companion first, then the main file. *)
Definition save_content (page_id : string) (content : Page) : M unit :=
  let title := save_stem content in
  write_content_file (title ++ "_mapping") (saved_page content) ;;;
  write_content_file title (saved_page content).

(** Both files [save_content] writes for the stem [stem] can be opened. *)
Definition save_opens (stem : string) : bool :=
  match open_error ((stem ++ "_mapping") ++ ".json") ((stem ++ "_mapping") ++ ".json") with
  | Some _ => false
  | None => match open_error (stem ++ ".json") (stem ++ ".json") with
            | Some _ => false
            | None => true
            end
  end.

(** [get_local_content]: every [*.json] file of the content directory, by
    stem, with its parsed contents and fingerprint. *)
Definition get_local_content : M (list (string * (Page * string))) :=
  s <- get_state ;;
  ret (map (fun kv => (fst kv, (snd kv, file_hash (snd kv)))) (content_dir s)).

(** [get_page_id_from_filename] *)
Definition get_page_id_from_filename (filename : string) : M (option string) :=
  s <- get_state ;;
  let f := remove_all ".json" filename in
  ret (option_map fst (find (fun kv => String.eqb (snd kv) f) (id_to_filename s))).

Definition remove_content_file (stem : string) : M unit :=
  fun s => (Ok tt, mkSt (ddel stem (content_dir s)) (attach_dir s) (idmap_file s)
                        (cache_file s) (deleted_file s) (failed_file s) (id_to_filename s)
                        (clock s) (script s) (sent s) (errors s)).

(** [delete_local_content] (no caller in the module). *)
Definition delete_local_content (filename : string) : M unit :=
  s <- get_state ;;
  if dmem filename (content_dir s) then
    remove_content_file filename ;;;
    page_id <- get_page_id_from_filename filename ;;
    s' <- get_state ;;
    match page_id with
    | Some pid =>
        if truthy page_id && dmem pid (id_to_filename s')
        then set_id_to_filename (ddel pid (id_to_filename s')) ;;; save_id_mapping
        else ret tt
    | None => ret tt
    end
  else ret tt.

(** ** [ContentSyncer] *)

(** [_load_cache]: no [try]; a corrupt or undecodable file raises from
    [json.load]. *)
Definition load_cache : M (list (string * string)) :=
  s <- get_state ;;
  match cache_file s with
  | PMissing => ret []
  | PBadText => raise (UnicodeDecodeError "sync_cache.json")
  | PCorrupt => raise (JSONDecodeError "sync_cache.json")
  | PValid c => ret c
  end.

(** [_load_deleted_pages]: any failure gives [set()]. *)
Definition load_deleted_pages : M (list string) :=
  s <- get_state ;;
  match deleted_file s with
  | PValid l => ret (set_of l)
  | _ => ret []
  end.

(** *** [pull_from_confluence] *)

Fixpoint pull_attachments (page_id : string) (atts : list Attachment) : M unit :=
  match atts with
  | [] => ret tt
  | a :: rest => download_attachment_to_disk page_id a ;;; pull_attachments page_id rest
  end.

(** One iteration of the page loop. *)
Definition pull_page (deleted_pages : list string) (page : Page) : M unit :=
  match p_id page with
  | None => raise (KeyError "id")
  | Some page_id =>
      if smem page_id deleted_pages then ret tt
      else
        catch_api
          (full_page <- get_page_by_id page_id ;;
           save_content page_id (as_page full_page) ;;;
           catch_api (attachments <- get_attachments page_id ;;
                      pull_attachments page_id attachments)
                     (fun msg _ => log_error ("Failed to get attachments for page "
                                              ++ page_id ++ ": " ++ msg)))
          (fun msg _ => log_error ("Failed to get page " ++ page_id ++ ": " ++ msg))
  end.

Fixpoint pull_pages (deleted_pages : list string) (pages : list Page) : M unit :=
  match pages with
  | [] => ret tt
  | p :: rest => pull_page deleted_pages p ;;; pull_pages deleted_pages rest
  end.

Definition pull_from_confluence : M unit :=
  r <- catch_api (pages <- get_space_content ;; ret (Some pages))
                 (fun msg _ => log_error ("Failed to pull content: " ++ msg) ;;; ret None) ;;
  match r with
  | None => ret tt
  | Some pages =>
      deleted_pages <- load_deleted_pages ;;
      pull_pages deleted_pages pages
  end.

(** *** [push_to_confluence] *)

(** [if page_id in self.local.id_to_filename:
        del self.local.id_to_filename[page_id]] *)
Definition del_id_mapping (pid : string) : M unit :=
  s <- get_state ;;
  if dmem pid (id_to_filename s)
  then set_id_to_filename (ddel pid (id_to_filename s)) else ret tt.

(** One iteration of the loop over deleted files. *)
Definition push_delete (deleted_pages : list string) (filename : string) : M (list string) :=
  page_id <- get_page_id_from_filename filename ;;
  match page_id with
  | Some pid =>
      if truthy page_id then
        catch_api
          (delete_page pid ;;;
           del_id_mapping pid ;;;
           ret (sadd pid deleted_pages))
          (fun msg _ => log_error ("Failed to delete page: " ++ msg) ;;; ret deleted_pages)
      else ret deleted_pages
  | None => ret deleted_pages
  end.

Fixpoint push_deletes (files : list string) (deleted_pages : list string) : M (list string) :=
  match files with
  | [] => ret deleted_pages
  | f :: rest => d <- push_delete deleted_pages f ;; push_deletes rest d
  end.

(** [create_page], then, when the result carries an id, store it into the
    record and re-save the record; returns that id. *)
Definition create_and_resave (content : Page) : M (option string) :=
  result <- create_page content ;;
  let rid := p_id (as_page result) in
  match rid with
  | Some i =>
      if truthy rid then save_content i (set_id rid content) ;;; ret rid else ret None
  | None => ret None
  end.

(** The [try] block of the record loop; [Some d] falls through to the
    cache update with tombstones [d], [None] is a [continue]. *)
Definition push_try (content : Page) (page_id : option string) (deleted_pages : list string)
  : M (option (list string)) :=
  match page_id with
  | Some pid =>
      if truthy page_id then
        if smem pid deleted_pages then
          rid <- create_and_resave content ;;
          ret (Some (if truthy rid then sremove pid deleted_pages else deleted_pages))
        else update_page pid content ;;; ret (Some deleted_pages)
      else create_and_resave content ;;; ret (Some deleted_pages)
  | None => create_and_resave content ;;; ret (Some deleted_pages)
  end.

(** The [except ConfluenceAPIError] of the record loop. *)
Definition push_handler (content : Page) (page_id : option string) (deleted_pages : list string)
  (msg : string) (code : option Z) : M (option (list string)) :=
  match code, page_id with
  | Some 404%Z, Some pid =>
      if truthy page_id then
        catch_api
          (rid <- create_and_resave content ;;
           ret (Some (if truthy rid && smem pid deleted_pages
                      then sremove pid deleted_pages else deleted_pages)))
          (fun msg2 _ => log_error ("Failed to create page: " ++ msg2) ;;; ret None)
      else log_error ("Failed to create page: " ++ msg) ;;; ret None
  | _, _ => log_error ("Failed to update or create page: " ++ msg) ;;; ret None
  end.

(** One iteration of the loop over local records. *)
Definition push_one (filename : string) (content : Page) (current_hash : string)
  (cache : list (string * string)) (deleted_pages : list string)
  : M (list (string * string) * list string) :=
  if opt_eqb (Some current_hash) (dget filename cache) then ret (cache, deleted_pages)
  else
    page_id <- (if truthy (p_id content) then ret (p_id content)
                else get_page_id_from_filename filename) ;;
    r <- catch_api (push_try content page_id deleted_pages)
                   (push_handler content page_id deleted_pages) ;;
    match r with
    | None => ret (cache, deleted_pages)
    | Some d => ret (dset filename current_hash cache, d)
    end.

Fixpoint push_records (local : list (string * (Page * string)))
  (cache : list (string * string)) (deleted_pages : list string)
  : M (list (string * string) * list string) :=
  match local with
  | [] => ret (cache, deleted_pages)
  | (filename, (content, h)) :: rest =>
      cd <- push_one filename content h cache deleted_pages ;;
      push_records rest (fst cd) (snd cd)
  end.

Definition push_to_confluence : M unit :=
  local_content <- get_local_content ;;
  cache <- load_cache ;;
  deleted_pages <- load_deleted_pages ;;
  let deleted_files := filter (fun f => negb (dmem f local_content)) (map fst cache) in
  deleted_pages <- push_deletes deleted_files deleted_pages ;;
  cd <- push_records local_content cache deleted_pages ;;
  set_cache_file (fst cd) ;;;
  set_deleted_file (snd cd).

End Config.

(** ** Concrete scenarios used below *)

Definition init_state (files : list (string * Page)) (sc : list Resp) : St :=
  mkSt files [] PMissing PMissing PMissing PMissing [] 0 sc [] [].

(** A page at version 3 living in another space than the configured one. *)
Definition runbook_v3 : Page :=
  mkPage (Some "R") (Some "Runbook") (Some "current") (BStorage "old") (Some 3%Z) (Some "old-space").

Definition runbook_edit : Page :=
  mkPage (Some "R") (Some "Runbook") None (BStorage "edited") None None.

(** Server answers for a space move whose draft conversion is observed at
    the first check. *)
Definition move_script : list Resp :=
  [ROk (RPage runbook_v3);
   ROk (RSpaces [(Some "DOCS", Some "new-space")]);
   ROk RNone;
   ROk (RPage (mkPage (Some "R") (Some "Runbook") (Some "draft") (BStorage "old")
                      (Some 1%Z) (Some "old-space")));
   ROk RNone].

(** The same page already in the configured space. *)
Definition same_space_script : list Resp :=
  [ROk (RPage (mkPage (Some "R") (Some "Runbook") (Some "current") (BStorage "old")
                      (Some 3%Z) (Some "new-space")));
   ROk (RSpaces [(Some "DOCS", Some "new-space")]);
   ROk RNone].

(** A listing whose first page has a slash in its title. *)
Definition slash_pull_script : list Resp :=
  [ROk (RSpaces [(Some "DOCS", Some "sp")]);
   ROk (RPages [mkPage (Some "1") (Some "Q1/Q2 Plan") None BEmpty None None;
                mkPage (Some "2") (Some "Notes") None BEmpty None None]);
   ROk (RPage (mkPage (Some "1") (Some "Q1/Q2 Plan") (Some "current") (BStorage "a")
                      (Some 1%Z) (Some "sp")))].

Definition long_title : string :=
  "Quarterly planning notes for the infrastructure team covering storage, networking, compute, on-call and budget".

Definition titled (t : string) : Page := mkPage None (Some t) None BEmpty None None.

(** A failure memory built by three recorded failures at 0 s, 1 h and 23 h,
    queried at 25 h. *)
Definition three_failures_then_query : M bool :=
  mark_failed_attachment "a.pdf" ;;; sleep 3600 ;;;
  mark_failed_attachment "a.pdf" ;;; sleep 79200 ;;;
  mark_failed_attachment "a.pdf" ;;; sleep 7200 ;;;
  should_skip_attachment "a.pdf".

(** Number of timestamps of [l] less than 24 hours old at [t]. *)
Definition window_count (t : Z) (l : list Z) : nat :=
  length (filter (fun ts => (t - ts <? day)%Z) l).

(** The failure memory in the shape [_mark_failed_attachment] writes it: a
    dict from file names to lists of ISO timestamps. *)
Definition failure_map (m : list (string * list Z)) : Json :=
  JObj (map (fun kv => (fst kv, JArr (map stamp (snd kv)))) m).

(** The timestamps read from the strings of a list. *)
Definition stamps_of (l : list Json) : list Z :=
  flat_map (fun j => match j with JStr _ (Some t) => [t] | _ => [] end) l.

(** The timestamps the failure file holds for [filename]. *)
Definition stored_failures (s : St) (filename : string) : list Z :=
  match failed_file s with
  | PValid (JObj m) => match dget filename m with Some (JArr l) => stamps_of l | _ => [] end
  | _ => []
  end.

(** The entry of the failure file for [filename], when it holds a dict. *)
Definition failure_entry (s : St) (filename : string) : option Json :=
  match failed_file s with
  | PValid (JObj m) => dget filename m
  | _ => None
  end.

Definition is_stamp (j : Json) : bool :=
  match j with JStr _ (Some _) => true | _ => false end.

(** The failure file is in a form the attachment code handles without
    raising: missing, rejected by [json.load], or a dict mapping each name to
    a list of naive ISO timestamps, as [_mark_failed_attachment] writes it. *)
Definition failures_ok (f : Persisted Json) : bool :=
  match f with
  | PMissing | PCorrupt => true
  | PValid (JObj m) =>
      forallb (fun kv => match snd kv with JArr l => forallb is_stamp l | _ => false end) m
  | _ => false
  end.

(** The failure file as the code leaves it: missing, or a dict from names
    to lists of timestamps written by [_mark_failed_attachment]. *)
Definition written_failures (s : St) : Prop :=
  failed_file s = PMissing \/ exists m, failed_file s = PValid (failure_map m).

(** The failure file stays in the form [failures_ok] accepts. *)
Definition keeps_failures_ok (s s' : St) : Prop :=
  failures_ok (failed_file s) = true -> failures_ok (failed_file s') = true.

Definition stamp_list (v : Json) : bool :=
  match v with JArr l => forallb is_stamp l | _ => false end.

(** A state whose sync cache file does not parse. *)
Definition corrupt_cache_state : St :=
  mkSt [("notes", titled "Notes")] [] PCorrupt PCorrupt PCorrupt PCorrupt [] 0 [] [] [].

(** A failure memory with two failures of [a.pdf], queried at 100000 s. *)
Definition two_failures_state : St :=
  mkSt [] [] PMissing PMissing PMissing (PValid (failure_map [("a.pdf", [0%Z; 50000%Z])]))
       [] 100000 [] [] [].

(** A failure of [a.pdf] dated 200000 s, recorded before the clock went
    back to 100000 s. *)
Definition future_failure_state : St :=
  mkSt [] [] PMissing PMissing PMissing (PValid (failure_map [("a.pdf", [200000%Z])]))
       [] 100000 [] [] [].

(** One page [Notes] (id 1) listed, fetched, without attachments. *)
Definition notes_page : Page :=
  mkPage (Some "1") (Some "Notes") (Some "current") (BStorage "n") (Some 1%Z) (Some "sp").

Definition pull_notes_script : list Resp :=
  [ROk (RSpaces [(Some "DOCS", Some "sp")]);
   ROk (RPages [mkPage (Some "1") (Some "Notes") None BEmpty None None]);
   ROk (RPage notes_page);
   ROk (RAtts [])].

(** A process whose mapping file and memory map page [R] to [notes], whose
    cache still lists [notes], and whose local file [notes] is gone. *)
Definition deleted_notes_state : St :=
  mkSt [] [] (PValid [("R", "notes")]) (PValid [("notes", "h")]) PMissing PMissing
       [("R", "notes")] 0 [ROk RNone] [] [].

(** A new local file without id, created remotely as page 77. *)
Definition new_file_state : St :=
  init_state [("draft_notes", titled "Draft Notes")]
    [ROk (RSpaces [(Some "DOCS", Some "sp")]);
     ROk (RPage (mkPage (Some "77") (Some "Draft Notes") (Some "current") BEmpty
                        (Some 1%Z) (Some "sp")))].

(** The local record of page [R], saved under [notes]. *)
Definition notes_local : Page :=
  mkPage (Some "R") (Some "Notes") (Some "current") (BFlat "n") (Some 2%Z) None.

(** A process where [notes] (page [R]) was pushed before and has since been
    removed locally: the cache holds the fingerprint of its last contents. *)
Definition tombstone_state : St :=
  mkSt [] [] (PValid [("R", "notes")]) (PValid [("notes", file_hash notes_local)])
       PMissing PMissing [("R", "notes")] 0 [ROk RNone] [] [].

(** The same record written back under [notes]. *)
Definition restore_notes (s : St) : St :=
  mkSt (dset "notes" notes_local (content_dir s)) (attach_dir s) (idmap_file s)
       (cache_file s) (deleted_file s) (failed_file s) (id_to_filename s) (clock s)
       (script s) (sent s) (errors s).

(** ** Reading the monad *)

(** The next server answer and the state after a request. *)
Definition next_resp (s : St) : Resp := match script s with [] => RNet | r :: _ => r end.

Definition after_request (r : Req) (s : St) : St :=
  mkSt (content_dir s) (attach_dir s) (idmap_file s) (cache_file s) (deleted_file s)
       (failed_file s) (id_to_filename s) (clock s) (tl (script s)) (app (sent s) [r])
       (errors s).

(** [m] relates every start state to its end state by [R]. *)
Definition Preserves (R : St -> St -> Prop) {A} (m : M A) : Prop :=
  forall s, R s (snd (m s)).

Definition is_post (r : Req) : bool := match r with ReqPostPage _ => true | _ => false end.
Definition count_posts (l : list Req) : nat := length (filter is_post l).

(** Requests and error lines only accumulate. *)
Definition grows (s s' : St) : Prop :=
  (length (errors s) <= length (errors s'))%nat /\
  (count_posts (sent s) <= count_posts (sent s'))%nat /\
  (length (sent s) <= length (sent s'))%nat.

(** The ID mapping file is untouched and the in-memory mapping only loses
    entries. *)
Definition idmap_shrinks (s s' : St) : Prop :=
  idmap_file s' = idmap_file s /\ incl (id_to_filename s') (id_to_filename s).

(** The mapping, in memory and on disk, is unchanged. *)
Definition same_ids (s s' : St) : Prop :=
  id_to_filename s' = id_to_filename s /\ idmap_file s' = idmap_file s.

(** What a poll with [get_page_by_id] reads from an answer: [Some true]
    for a page in draft status, [Some false] for any other page, [None]
    when the fetch raises. *)
Definition poll_reads_draft (r : Resp) : option bool :=
  match json_resp r with
  | ROk b => Some (opt_eqb (p_status (as_page b)) (Some draft))
  | _ => None
  end.

(** Every request sent between [s] and [s'] satisfies [P]. *)
Definition only_reqs (P : Req -> bool) (s s' : St) : Prop :=
  exists l, sent s' = app (sent s) l /\ forallb P l = true.

(** A request naming the page [pid]. *)
Definition about_page (pid : string) (r : Req) : bool :=
  match r with
  | ReqGetPage p | ReqPutPage p _ | ReqDeletePage p | ReqGetAttachments p => String.eqb p pid
  | _ => false
  end.

(** The requests of [create_page]: the space lookup and the POST. *)
Definition is_create_req (r : Req) : bool :=
  match r with ReqGetSpaces None | ReqPostPage _ => true | _ => false end.

(** The tombstone file is unchanged. *)
Definition keeps_deleted (s s' : St) : Prop := deleted_file s' = deleted_file s.

(** Requests and errors only accumulate, and the content directory changes
    only together with a POST. *)
Definition calm (s s' : St) : Prop :=
  grows s s' /\ (count_posts (sent s') = count_posts (sent s) -> content_dir s' = content_dir s).

(** The mapping entry [get_page_id_from_filename] finds for [f]. *)
Definition lookup_id (f : string) (ids : list (string * string)) : option (string * string) :=
  find (fun kv => String.eqb (snd kv) (remove_all ".json" f)) ids.

(** Whether [f] resolves to a truthy page id, which [push] would delete. *)
Definition live (f : string) (ids : list (string * string)) : bool :=
  match lookup_id f ids with Some (pid, _) => truthy (Some pid) | None => false end.

(** The sync state: cache and tombstone files, the ID mapping on disk and
    in memory. *)
Definition keeps_sync_state (s s' : St) : Prop :=
  cache_file s' = cache_file s /\ deleted_file s' = deleted_file s /\
  idmap_file s' = idmap_file s /\ id_to_filename s' = id_to_filename s.

(** The attachment directory and the failure memory are unchanged. *)
Definition keeps_attachments (s s' : St) : Prop :=
  attach_dir s' = attach_dir s /\ failed_file s' = failed_file s.

(** Every local file of [s] is still there in [s']. *)
Definition keeps_files (s s' : St) : Prop :=
  incl (map fst (content_dir s)) (map fst (content_dir s')).

(** A corrupt failure memory stays corrupt. *)
Definition stays_corrupt (s s' : St) : Prop :=
  failed_file s = PCorrupt -> failed_file s' = PCorrupt.

(** A request that carries a page body carries an empty one. *)
Definition empty_body_req (r : Req) : bool :=
  match r with
  | ReqPostPage d => String.eqb (po_value d) EmptyString
  | ReqPutPage _ d => String.eqb (pd_value d) EmptyString
  | _ => true
  end.

(** A document whose [body] has no ['storage'] key, as [save_content]
    writes it. *)
Definition no_storage (p : Page) : bool :=
  match p_body p with BStorage _ => false | _ => true end.

(** Every local file has no ['storage'] key in its body. *)
Definition flat_files (s : St) : Prop :=
  forallb (fun kv => no_storage (snd kv)) (content_dir s) = true.

(** The local files keep that shape. *)
Definition keeps_flat (s s' : St) : Prop := flat_files s -> flat_files s'.

(** A lower-case letter or digit. *)
Definition word_char (c : ascii) : bool := ascii_isalnum c && Ascii.eqb (ascii_lower c) c.

(** Reading a name left to right; [prev] says whether the previous
    character was a dash or the name has just started.  [None] marks a
    dash at the start or right after another dash, or a character that is
    neither a dash nor a lower-case letter or digit. *)
Fixpoint dash_walk (prev : bool) (s : string) : option bool :=
  match s with
  | EmptyString => Some prev
  | String c s' =>
      if Ascii.eqb c "-"%char then (if prev then None else dash_walk true s')
      else if word_char c then dash_walk false s'
      else None
  end.

(** * Lemmas *)

Open Scope list_scope.

(** ** Dicts and lists *)

Lemma dget_dset_same {V} (k : string) (v : V) d : dget k (dset k v d) = Some v.
Proof.
  induction d as [|[k' v'] d IH]; simpl.
  - now rewrite String.eqb_refl.
  - destruct (String.eqb k k') eqn:E; simpl; rewrite ?E; auto.
Qed.

Lemma dget_dset_other {V} (k k' : string) (v : V) d :
  k' <> k -> dget k' (dset k v d) = dget k' d.
Proof.
  intros Hne. induction d as [|[k0 v0] d IH]; simpl.
  - destruct (String.eqb k' k) eqn:E; [apply String.eqb_eq in E; congruence | reflexivity].
  - destruct (String.eqb k k0) eqn:E; simpl.
    + apply String.eqb_eq in E; subst k0.
      destruct (String.eqb k' k) eqn:E'; [apply String.eqb_eq in E'; congruence | reflexivity].
    + destruct (String.eqb k' k0); auto.
Qed.

Lemma filter_app_keep {A} (p : A -> bool) (l : list A) (a : A) :
  p a = true -> filter p (l ++ [a]) = filter p l ++ [a].
Proof. intros H. rewrite filter_app. simpl. now rewrite H. Qed.

Lemma last_app_single {A} (l : list A) (a d : A) : last (l ++ [a]) d = a.
Proof.
  induction l as [|x l IH]; simpl; auto.
  destruct (l ++ [a]) eqn:E; [destruct l; discriminate | exact IH].
Qed.

Lemma last_In_nonempty {A} (l : list A) (d : A) : l <> [] -> In (last l d) l.
Proof.
  induction l as [|x l IH]; intros H; [congruence|].
  destruct l as [|y l]; simpl; [auto|].
  right. apply IH. discriminate.
Qed.

Lemma bind_ok {A B} (m : M A) (f : A -> M B) s a s' :
  m s = (Ok a, s') -> bind m f s = f a s'.
Proof. intros H. unfold bind. now rewrite H. Qed.

Lemma bind_err {A B} (m : M A) (f : A -> M B) s e s' :
  m s = (Err e, s') -> bind m f s = (Err e, s').
Proof. intros H. unfold bind. now rewrite H. Qed.

(** ** Failure memory *)

Lemma dget_failure_map (k : string) (m : list (string * list Z)) :
  dget k (map (fun kv => (fst kv, JArr (map stamp (snd kv)))) m) =
  option_map (fun l => JArr (map stamp l)) (dget k m).
Proof.
  induction m as [|[k' l] m IH]; simpl; auto.
  destruct (String.eqb k k'); auto.
Qed.

Lemma dset_failure_map (k : string) (l : list Z) (m : list (string * list Z)) :
  dset k (JArr (map stamp l)) (map (fun kv => (fst kv, JArr (map stamp (snd kv)))) m) =
  map (fun kv => (fst kv, JArr (map stamp (snd kv)))) (dset k l m).
Proof.
  induction m as [|[k' l'] m IH]; simpl; auto.
  destruct (String.eqb k k'); simpl; now rewrite ?IH.
Qed.

Lemma dset_dset {V} (k : string) (v w : V) d : dset k v (dset k w d) = dset k v d.
Proof.
  induction d as [|[k' x] d IH]; simpl.
  - now rewrite String.eqb_refl.
  - destruct (String.eqb k k') eqn:E; simpl; rewrite E; [reflexivity | now rewrite IH].
Qed.

Lemma last_map_cons {A B} (f : A -> B) (l : list A) (x : A) :
  last (map f l) (f x) = f (last l x).
Proof.
  revert x. induction l as [|y l IH]; intros x; [reflexivity|].
  destruct l as [|z l]; [reflexivity|]. specialize (IH x). simpl in *. exact IH.
Qed.

Lemma last_cons_default {A} (l : list A) (x d : A) : last (x :: l) d = last l x.
Proof.
  revert x d. induction l as [|y l IH]; intros x d; [reflexivity|].
  change (last (y :: l) d = last (y :: l) x). rewrite !IH. reflexivity.
Qed.

Lemma stamps_of_map (l : list Z) : stamps_of (map stamp l) = l.
Proof. induction l as [|x l IH]; simpl; f_equal; auto. Qed.

Lemma keep_recent_stamps (l : list Z) (s : St) :
  keep_recent (map stamp l) s =
  (Ok (map stamp (filter (fun ts => (clock s - ts <? day)%Z) l)), s).
Proof.
  induction l as [|x l IH]; [reflexivity|].
  simpl map. simpl keep_recent.
  rewrite (bind_ok _ _ _ _ _ (eq_refl : now s = (Ok (clock s), s))).
  rewrite (bind_ok _ _ _ _ _ (eq_refl : fromisoformat (stamp x) s = (Ok x, s))).
  rewrite (bind_ok _ _ _ _ _ IH). unfold ret. simpl filter.
  destruct (clock s - x <? day)%Z; reflexivity.
Qed.

Lemma stored_failures_map (s : St) (m : list (string * list Z)) (filename : string) :
  failed_file s = PValid (failure_map m) ->
  stored_failures s filename = match dget filename m with Some l => l | None => [] end.
Proof.
  intros H. unfold stored_failures. rewrite H. unfold failure_map.
  rewrite dget_failure_map. destruct (dget filename m); simpl; auto using stamps_of_map.
Qed.

Lemma written_stored (s : St) (filename : string) :
  failed_file s = PMissing -> stored_failures s filename = [].
Proof. intros H. unfold stored_failures. now rewrite H. Qed.

Lemma should_skip_failure_map (filename : string) (s : St) (m : list (string * list Z)) :
  failed_file s = PValid (failure_map m) ->
  should_skip_attachment filename s =
    (Ok (match dget filename m with
         | Some l => (3 <=? length l)%nat && (clock s - last_or 0 l <? day)%Z
         | None => false end), s).
Proof.
  intros H. unfold should_skip_attachment.
  rewrite (bind_ok _ _ _ _ _ (eq_refl : get_state s = (Ok s, s))). rewrite H.
  unfold py_in, failure_map. unfold dmem.
  rewrite (bind_ok _ _ _ _ _ (eq_refl : ret _ s = (Ok _, s))).
  rewrite dget_failure_map.
  destruct (dget filename m) as [l|] eqn:E; cbn [option_map]; [|reflexivity].
  unfold py_getitem. rewrite dget_failure_map, E. cbn [option_map].
  rewrite (bind_ok _ _ _ _ _ (eq_refl : ret _ s = (Ok _, s))).
  unfold py_len. rewrite (bind_ok _ _ _ _ _ (eq_refl : ret _ s = (Ok _, s))).
  rewrite length_map. destruct (3 <=? length l)%nat eqn:L; [|reflexivity].
  destruct l as [|x l]; [discriminate|].
  simpl map. unfold py_last. rewrite (bind_ok _ _ _ _ _ (eq_refl : ret _ s = (Ok _, s))).
  rewrite last_map_cons. unfold stamp at 1, fromisoformat.
  rewrite (bind_ok _ _ _ _ _ (eq_refl : ret _ s = (Ok _, s))).
  rewrite (bind_ok _ _ _ _ _ (eq_refl : now s = (Ok (clock s), s))).
  unfold last_or. rewrite last_cons_default. reflexivity.
Qed.

Lemma mark_failed_attachment_valid (filename : string) (s : St) (m : list (string * list Z)) :
  failed_file s = PValid (failure_map m) \/ (failed_file s = PMissing /\ m = []) ->
  mark_failed_attachment filename s =
    (Ok tt, mkSt (content_dir s) (attach_dir s) (idmap_file s) (cache_file s) (deleted_file s)
                 (PValid (failure_map (dset filename
                            (filter (fun ts => (clock s - ts <? day)%Z)
                               ((match dget filename m with Some l => l | None => [] end)
                                  ++ [clock s])) m)))
                 (id_to_filename s) (clock s) (script s) (sent s) (errors s)).
Proof.
  intros Hf. unfold mark_failed_attachment.
  rewrite (bind_ok _ _ _ _ _ (eq_refl : get_state s = (Ok s, s))).
  destruct Hf as [H | [H Hm]]; rewrite H; cbv beta iota zeta;
    [| replace (JObj []) with (failure_map m) by (rewrite Hm; reflexivity)];
  unfold failure_map, py_in, dmem, py_getitem, py_setitem, py_append;
  rewrite (bind_ok _ _ _ _ _ (eq_refl : ret _ s = (Ok _, s)));
  rewrite dget_failure_map;
  destruct (dget filename m) as [l|] eqn:E; cbn [option_map];
  rewrite (bind_ok _ _ _ _ _ (eq_refl : ret _ s = (Ok _, s)));
  first [ rewrite dget_dset_same | rewrite dget_failure_map, E; cbn [option_map] ];
  rewrite (bind_ok _ _ _ _ _ (eq_refl : ret _ s = (Ok _, s)));
  rewrite (bind_ok _ _ _ _ _ (eq_refl : now s = (Ok (clock s), s)));
  rewrite (bind_ok _ _ _ _ _ (eq_refl : ret _ s = (Ok _, s)));
  first [ change (map stamp l ++ [stamp (clock s)]) with (map stamp l ++ map stamp [clock s]);
          rewrite <- map_app
        | change ([] ++ [stamp (clock s)]) with (map stamp [clock s]) ];
  rewrite (bind_ok _ _ _ _ _ (keep_recent_stamps _ _));
  rewrite (bind_ok _ _ _ _ _ (eq_refl : ret _ s = (Ok _, s)));
  rewrite ?dset_dset, dset_failure_map; reflexivity.
Qed.

Lemma stored_after_mark (filename : string) (s : St) :
  written_failures s ->
  written_failures (snd (mark_failed_attachment filename s)) /\
  stored_failures (snd (mark_failed_attachment filename s)) filename =
    filter (fun ts => (clock s - ts <? day)%Z) (stored_failures s filename ++ [clock s]) /\
  clock (snd (mark_failed_attachment filename s)) = clock s /\
  fst (mark_failed_attachment filename s) = Ok tt.
Proof.
  intros [H | [m H]];
    [ rewrite (mark_failed_attachment_valid filename s []) by (right; auto);
      rewrite (written_stored s filename H)
    | rewrite (mark_failed_attachment_valid filename s m) by (left; auto);
      rewrite (stored_failures_map s m filename H) ];
    cbn [fst snd]; (split; [right; eexists; reflexivity|]);
    (erewrite stored_failures_map by reflexivity); rewrite dget_dset_same;
    repeat split.
Qed.

Lemma mark_ok (filename : string) (s : St) :
  written_failures s ->
  exists s', mark_failed_attachment filename s = (Ok tt, s') /\
    written_failures s' /\
    stored_failures s' filename =
      filter (fun ts => (clock s - ts <? day)%Z) (stored_failures s filename ++ [clock s]) /\
    clock s' = clock s.
Proof.
  intros Hw. destruct (stored_after_mark filename s Hw) as [F [S [C R]]].
  exists (snd (mark_failed_attachment filename s)). repeat split; auto.
  rewrite <- R. apply surjective_pairing.
Qed.

Lemma sleep_ok (n : Z) (s : St) :
  exists s', sleep n s = (Ok tt, s') /\ failed_file s' = failed_file s /\
    stored_failures s' = stored_failures s /\ clock s' = (clock s + n)%Z.
Proof. eexists. repeat split. Qed.

Lemma written_same (s s' : St) :
  failed_file s' = failed_file s -> written_failures s -> written_failures s'.
Proof. unfold written_failures. intros E. now rewrite E. Qed.

(** Three recorded failures, [d1] and [d2] apart, the query [d3] after the
    third. *)
Lemma three_marks_skip (filename : string) (s : St) (d1 d2 d3 : Z) :
  written_failures s -> (0 <= d1)%Z -> (0 <= d2)%Z -> (0 <= d3)%Z ->
  (d1 + d2 < day)%Z -> (d3 < day)%Z ->
  fst ((mark_failed_attachment filename ;;; sleep d1 ;;;
        mark_failed_attachment filename ;;; sleep d2 ;;;
        mark_failed_attachment filename ;;; sleep d3 ;;;
        should_skip_attachment filename) s) = Ok true.
Proof.
  intros Hc H1 H2 H3 H12 Hd3.
  destruct (mark_ok filename s Hc) as [s1 [E1 [F1 [S1 C1]]]].
  rewrite (bind_ok _ _ _ _ _ E1).
  destruct (sleep_ok d1 s1) as [s1' [E1' [F1' [S1' C1']]]].
  rewrite (bind_ok _ _ _ _ _ E1').
  apply (written_same _ _ F1') in F1.
  destruct (mark_ok filename s1' F1) as [s2 [E2 [F2 [S2 C2]]]].
  rewrite (bind_ok _ _ _ _ _ E2).
  destruct (sleep_ok d2 s2) as [s2' [E2' [F2' [S2' C2']]]].
  rewrite (bind_ok _ _ _ _ _ E2').
  apply (written_same _ _ F2') in F2.
  destruct (mark_ok filename s2' F2) as [s3 [E3 [F3 [S3 C3]]]].
  rewrite (bind_ok _ _ _ _ _ E3).
  destruct (sleep_ok d3 s3) as [s3' [E3' [F3' [S3' C3']]]].
  rewrite (bind_ok _ _ _ _ _ E3').
  apply (written_same _ _ F3') in F3.
  set (t := clock s) in *.
  assert (T2 : clock s2' = (t + d1 + d2)%Z) by (rewrite C2', C2, C1', C1; reflexivity).
  assert (T1 : clock s1' = (t + d1)%Z) by (rewrite C1', C1; reflexivity).
  rewrite S2', S2, S1', S1, T1 in S3. rewrite T2 in S3.
  rewrite filter_app_keep in S3 by (apply Z.ltb_lt; lia).
  rewrite filter_app_keep in S3 by (apply Z.ltb_lt; lia).
  rewrite !filter_app in S3. simpl in S3.
  repeat (simpl in S3; match type of S3 with
                      | context [if (?a <? ?b)%Z then _ else _] =>
                          rewrite (proj2 (Z.ltb_lt a b)) in S3 by lia
                      end).
  simpl in S3. rewrite <- !app_assoc in S3. simpl in S3.
  set (pre := filter _ (filter _ (filter _ (stored_failures s filename)))) in S3.
  rewrite <- S3' in S3.
  destruct F3 as [Hf | [m Hf]].
  - exfalso. rewrite (written_stored _ _ Hf) in S3.
    apply (f_equal (@length Z)) in S3. rewrite length_app in S3. simpl in S3. lia.
  - rewrite (should_skip_failure_map filename s3' m Hf). cbn [fst].
    rewrite (stored_failures_map _ _ _ Hf) in S3.
    destruct (dget filename m) as [l|] eqn:El.
    + subst l. rewrite length_app.
      replace (length pre + length [t; (t + d1)%Z; (t + d1 + d2)%Z])%nat
        with (S (S (S (length pre)))) by (simpl; lia).
      simpl. f_equal. apply Z.ltb_lt.
      replace (pre ++ [t; (t + d1)%Z; (t + d1 + d2)%Z])
        with ((pre ++ [t; (t + d1)%Z]) ++ [(t + d1 + d2)%Z])
        by (rewrite <- app_assoc; reflexivity).
      unfold last_or. rewrite last_app_single. rewrite C3', C3, T2. lia.
    + exfalso. apply (f_equal (@length Z)) in S3. rewrite length_app in S3. simpl in S3. lia.
Qed.

Lemma sleep_state (n : Z) (s : St) :
  snd (sleep n s) = mkSt (content_dir s) (attach_dir s) (idmap_file s) (cache_file s)
                         (deleted_file s) (failed_file s) (id_to_filename s) (clock s + n)
                         (script s) (sent s) (errors s).
Proof. reflexivity. Qed.

(** ** Requests *)

Lemma http_eq (r : Req) (s : St) : http r s = (Ok (next_resp s), after_request r s).
Proof. unfold http, next_resp, after_request. destruct (script s); reflexivity. Qed.

Lemma nth_tl {A} (l : list A) (i : nat) (d : A) : nth i (tl l) d = nth (S i) l d.
Proof. destruct l; simpl; [destruct i|]; reflexivity. Qed.

Lemma next_resp_nth (s : St) : next_resp s = nth 0 (script s) RNet.
Proof. unfold next_resp. destruct (script s); reflexivity. Qed.

Lemma get_page_by_id_ok (pid : string) (s : St) (b : RBody) :
  json_resp (next_resp s) = ROk b ->
  get_page_by_id pid s = (Ok b, after_request (ReqGetPage pid) s).
Proof.
  intros H. unfold get_page_by_id. rewrite (bind_ok _ _ _ _ _ (http_eq _ s)).
  rewrite H. reflexivity.
Qed.

Lemma get_page_by_id_fail (pid : string) (s : St) :
  (forall b, json_resp (next_resp s) <> ROk b) ->
  get_page_by_id pid s =
    (Err (ConfluenceAPIError ("Failed to get page " ++ pid)%string None),
     after_request (ReqGetPage pid) s).
Proof.
  intros H. unfold get_page_by_id. rewrite (bind_ok _ _ _ _ _ (http_eq _ s)).
  destruct (json_resp (next_resp s)) as [b| |] eqn:E; try reflexivity.
  exfalso. exact (H b eq_refl).
Qed.

Lemma sleep_eq (n : Z) (s : St) : sleep n s = (Ok tt, snd (sleep n s)).
Proof. reflexivity. Qed.

(** The wait loop of the draft conversion, started with [n] checks left:
    [k] polls, each after one second, the earlier ones reading a page not
    in draft; it stops at the first draft page, at the first failed fetch,
    or raises with status 400 once the [n] checks are used up. *)
Lemma draft_wait_trace (pid : string) (n : nat) :
  (1 <= n <= 3)%nat -> forall s,
  exists k, (1 <= k <= n)%nat /\
    sent (snd (draft_wait pid n (3 - Z.of_nat n) s)) = sent s ++ repeat (ReqGetPage pid) k /\
    clock (snd (draft_wait pid n (3 - Z.of_nat n) s)) = (clock s + Z.of_nat k)%Z /\
    (forall i, (i < k - 1)%nat -> poll_reads_draft (nth i (script s) RNet) = Some false) /\
    ((poll_reads_draft (nth (k - 1) (script s) RNet) = Some true /\
      fst (draft_wait pid n (3 - Z.of_nat n) s) = Ok tt) \/
     (poll_reads_draft (nth (k - 1) (script s) RNet) = None /\
      exists msg, fst (draft_wait pid n (3 - Z.of_nat n) s) = Err (ConfluenceAPIError msg None)) \/
     (k = n /\ poll_reads_draft (nth (k - 1) (script s) RNet) = Some false /\
      exists msg, fst (draft_wait pid n (3 - Z.of_nat n) s) =
                    Err (ConfluenceAPIError msg (Some 400%Z)))).
Proof.
  induction n as [|m IH]; intros Hn s; [lia|].
  cbn [draft_wait].
  replace ((3 - Z.of_nat (S m) <? 3)%Z) with true by (symmetry; apply Z.ltb_lt; lia).
  rewrite (bind_ok _ _ _ _ _ (sleep_eq 1 s)).
  set (s1 := snd (sleep 1 s)).
  assert (N1 : next_resp s1 = nth 0 (script s) RNet)
    by (change (next_resp s1) with (next_resp s); apply next_resp_nth).
  destruct (json_resp (next_resp s1)) as [b| |] eqn:Ej.
  2, 3:
    rewrite (bind_err _ _ _ _ _ (get_page_by_id_fail pid s1 ltac:(rewrite Ej; discriminate)));
    exists 1%nat; split; [lia|]; split; [reflexivity|]; split; [simpl; lia|];
    split; [intros i Hi; lia|]; right; left;
    (split; [unfold poll_reads_draft; simpl; rewrite <- N1, Ej; reflexivity | eexists; reflexivity]).
  rewrite (bind_ok _ _ _ _ _ (get_page_by_id_ok pid s1 b Ej)).
  set (s2 := after_request (ReqGetPage pid) s1).
  assert (P0 : poll_reads_draft (nth 0 (script s) RNet) =
               Some (opt_eqb (p_status (as_page b)) (Some draft)))
    by (unfold poll_reads_draft; rewrite <- N1, Ej; reflexivity).
  destruct (opt_eqb (p_status (as_page b)) (Some draft)) eqn:Ed.
  - exists 1%nat. split; [lia|]. split; [reflexivity|]. split; [simpl; lia|].
    split; [intros i Hi; lia|]. left. split; [exact P0 | reflexivity].
  - destruct m as [|m'].
    + cbn zeta. replace ((3 - Z.of_nat 1 + 1 =? 3)%Z) with true by reflexivity.
      exists 1%nat. split; [lia|]. split; [reflexivity|]. split; [simpl; lia|].
      split; [intros i Hi; lia|]. right; right. split; [reflexivity|].
      split; [exact P0 | eexists; reflexivity].
    + cbn zeta.
      replace ((3 - Z.of_nat (S (S m')) + 1 =? 3)%Z) with false
        by (symmetry; apply Z.eqb_neq; lia).
      replace (3 - Z.of_nat (S (S m')) + 1)%Z with (3 - Z.of_nat (S m'))%Z by lia.
      destruct (IH ltac:(lia) s2) as [k [Hk [Hs [Hc [Hpre Hend]]]]].
      assert (Sc : script s2 = tl (script s)) by reflexivity.
      exists (S k). split; [lia|]. split.
      { rewrite Hs. unfold s2, after_request. simpl. rewrite <- app_assoc. reflexivity. }
      split.
      { rewrite Hc. unfold s2, after_request. simpl. lia. }
      split.
      { intros [|i] Hi; [exact P0|].
        rewrite <- nth_tl, <- Sc. apply Hpre. lia. }
      replace (S k - 1)%nat with (S (k - 1)) by lia.
      rewrite <- nth_tl, <- Sc.
      destruct Hend as [H | [H | [H1 H2]]];
        [left; exact H | right; left; exact H | right; right; split; [lia | exact H2]].
Qed.

Lemma catch_api_ok {A} (m : M A) h s a s' :
  m s = (Ok a, s') -> catch_api m h s = (Ok a, s').
Proof. intros H. unfold catch_api. now rewrite H. Qed.

(** The final PUT of [update_page] is one request, whatever the answer. *)
Lemma final_put_trace (pid : string) (h : VHeap) (u : UpdateData) (s : St) :
  sent (snd (final_put pid h u s)) = sent s ++ [ReqPutPage pid (put_data h u)] /\
  clock (snd (final_put pid h u s)) = clock s.
Proof.
  unfold final_put. rewrite (bind_ok _ _ _ _ _ (http_eq _ s)).
  destruct (json_resp (next_resp s)) as [b|code [|]|]; split; reflexivity.
Qed.

Lemma draft_convert_put_fails (pid : string) (h : VHeap) (d : UpdateData) (s : St) :
  (forall rb, next_resp s <> ROk rb) ->
  draft_convert pid h d s =
    (Err (ConfluenceAPIError ("Failed to convert page " ++ pid ++ " to draft")%string None),
     after_request (ReqPutPage pid (put_data h d)) s).
Proof.
  intros H. unfold draft_convert. rewrite (bind_ok _ _ _ _ _ (http_eq _ s)).
  destruct (next_resp s) as [rb| |]; [exfalso; exact (H rb eq_refl) | reflexivity | reflexivity].
Qed.

Lemma draft_convert_put_ok (pid : string) (h : VHeap) (d : UpdateData) (s : St) (rb : RBody) :
  next_resp s = ROk rb ->
  draft_convert pid h d s =
    draft_wait pid 3 (3 - Z.of_nat 3) (after_request (ReqPutPage pid (put_data h d)) s).
Proof.
  intros H. unfold draft_convert. rewrite (bind_ok _ _ _ _ _ (http_eq _ s)).
  rewrite H. reflexivity.
Qed.

Lemma bind_assoc_app {A B C} (m : M A) (f : A -> M B) (g : B -> M C) s :
  bind (bind m f) g s = bind m (fun a => bind (f a) g) s.
Proof. unfold bind. destruct (m s) as [[a|e] s']; reflexivity. Qed.

Lemma bind_draft_convert_ok {B} (pid : string) (h : VHeap) (d : UpdateData) (k : unit -> M B)
  (s : St) (rb : RBody) :
  next_resp s = ROk rb ->
  bind (draft_convert pid h d) k s =
    bind (draft_wait pid 3 (3 - Z.of_nat 3)) k (after_request (ReqPutPage pid (put_data h d)) s).
Proof.
  intros H. unfold bind at 1. rewrite (draft_convert_put_ok _ _ _ _ _ H). reflexivity.
Qed.

Lemma bind_ret {A B} (a : A) (f : A -> M B) s : bind (ret a) f s = f a s.
Proof. reflexivity. Qed.

(** [update_page] once the current page and the space id are read. *)
Lemma update_page_after_reads (sk pid : string) (content : Page) (s s1 s2 : St)
  (b : RBody) (nid : string) :
  get_page_by_id pid s = (Ok b, s1) ->
  get_space_id sk s1 = (Ok nid, s2) ->
  update_page sk pid content s =
    (let current_version := match p_version (as_page b) with Some n => n | None => 1%Z end in
     let h0 : VHeap := [(0%nat, (current_version + 1)%Z)] in
     let update_data :=
       mkUpdateData pid "current"
                    (match p_title content with Some t => t | None => EmptyString end)
                    (storage_value (p_body content)) 0 None in
     if negb (opt_eqb (p_spaceId (as_page b)) (Some nid)) then
       bind (if negb (opt_eqb (p_status (as_page b)) (Some draft)) then
               let draft_data := mkUpdateData pid draft (ud_title update_data)
                                   (ud_value update_data) 0 None in
               let h1 := hwrite h0 0 1 in
               draft_convert pid h1 draft_data ;;; ret h1
             else ret h0)
            (fun h => final_put pid h (mkUpdateData pid "current" (ud_title update_data)
                                         (ud_value update_data) 0 (Some nid)))
     else final_put pid h0 update_data) s2.
Proof.
  intros H1 H2. unfold update_page.
  rewrite (bind_ok _ _ _ _ _ (catch_api_ok _ _ _ _ _ H1)).
  cbv beta zeta. rewrite (bind_ok _ _ _ _ _ H2). reflexivity.
Qed.

(** ** Relations preserved by a computation *)

(** The Python operations on a decoded value leave the state alone. *)

Create HintDb stateless.

Ltac stateless_tac := intros s; repeat (match goal with
  | |- context [match ?x with _ => _ end] => destruct x
  end; simpl); reflexivity.

Lemma py_in_stateless k j s : snd (py_in k j s) = s.
Proof. revert s. unfold py_in. stateless_tac. Qed.
Lemma py_getitem_stateless j k s : snd (py_getitem j k s) = s.
Proof. revert s. unfold py_getitem. stateless_tac. Qed.
Lemma py_setitem_stateless j k x s : snd (py_setitem j k x s) = s.
Proof. revert s. unfold py_setitem. stateless_tac. Qed.
Lemma py_delitem_stateless j k s : snd (py_delitem j k s) = s.
Proof. revert s. unfold py_delitem. stateless_tac. Qed.
Lemma py_len_stateless j s : snd (py_len j s) = s.
Proof. revert s. unfold py_len. stateless_tac. Qed.
Lemma py_last_stateless j s : snd (py_last j s) = s.
Proof. revert s. unfold py_last. stateless_tac. Qed.
Lemma py_append_stateless j x s : snd (py_append j x s) = s.
Proof. revert s. unfold py_append. stateless_tac. Qed.
Lemma fromisoformat_stateless j s : snd (fromisoformat j s) = s.
Proof. revert s. unfold fromisoformat. stateless_tac. Qed.

#[export] Hint Resolve py_in_stateless py_getitem_stateless py_setitem_stateless
  py_delitem_stateless py_len_stateless py_last_stateless py_append_stateless
  fromisoformat_stateless : stateless.

(** ** Inverting a successful run *)

Lemma stateless_eq {A} (m : M A) (s s1 : St) (a : A) :
  snd (m s) = s -> m s = (Ok a, s1) -> s1 = s.
Proof. intros H E. rewrite E in H. exact H. Qed.

(** A bound computation that succeeds: its first step succeeds. *)
Ltac inv_bind H :=
  match type of H with
  | bind ?m ?f ?st = (Ok _, _) =>
      let a := fresh "a" in let st1 := fresh "st" in let E := fresh "E" in
      destruct (m st) as [[a|?] st1] eqn:E;
      [rewrite (bind_ok _ _ _ _ _ E) in H; cbv beta in H
      | rewrite (bind_err _ _ _ _ _ E) in H; discriminate H]
  end.

Lemma ret_ok {A} (a b : A) (s s1 : St) : ret a s = (Ok b, s1) -> b = a /\ s1 = s.
Proof. unfold ret. intros H. injection H as <- <-. split; reflexivity. Qed.

Lemma now_ok (t : Z) (s s1 : St) : now s = (Ok t, s1) -> t = clock s /\ s1 = s.
Proof. unfold now. intros H. injection H as <- <-. split; reflexivity. Qed.

Lemma get_state_ok (s0 s s1 : St) : get_state s = (Ok s0, s1) -> s0 = s /\ s1 = s.
Proof. unfold get_state. intros H. injection H as <- <-. split; reflexivity. Qed.

Lemma py_getitem_ok (j v : Json) (k : string) (s s1 : St) :
  py_getitem j k s = (Ok v, s1) -> s1 = s /\ exists m, j = JObj m /\ dget k m = Some v.
Proof.
  destruct j as [| | | | |m]; simpl; try discriminate.
  destruct (dget k m) eqn:E; unfold ret, raise; intros H; inversion H; subst; eauto.
Qed.

Lemma py_setitem_ok (j v r : Json) (k : string) (s s1 : St) :
  py_setitem j k v s = (Ok r, s1) -> s1 = s /\ exists m, j = JObj m /\ r = JObj (dset k v m).
Proof.
  destruct j as [| | | | |m]; simpl; try discriminate.
  unfold ret. intros H. inversion H; subst; eauto.
Qed.

Lemma py_append_ok (j x : Json) (r : list Json) (s s1 : St) :
  py_append j x s = (Ok r, s1) -> s1 = s /\ exists l, j = JArr l /\ r = l ++ [x].
Proof.
  destruct j as [| | | |l|]; simpl; try discriminate.
  unfold ret. intros H. inversion H; subst; eauto.
Qed.

Lemma fromisoformat_ok (j : Json) (t : Z) (s s1 : St) :
  fromisoformat j s = (Ok t, s1) -> s1 = s /\ exists str, j = JStr str (Some t).
Proof.
  destruct j as [| | |str [t'|]| |]; simpl; try discriminate.
  unfold ret. intros H. inversion H; subst; eauto.
Qed.

(** What a successful [keep_recent] keeps: parsed timestamps less than 24
    hours old, all of those of the input. *)
Lemma keep_recent_spec (l r : list Json) (s s1 : St) :
  keep_recent l s = (Ok r, s1) ->
  s1 = s /\
  (forall j, In j r -> exists str ts, j = JStr str (Some ts) /\ (clock s - ts < day)%Z) /\
  (forall str ts, In (JStr str (Some ts)) l -> (clock s - ts < day)%Z ->
     In (JStr str (Some ts)) r).
Proof.
  revert r s s1. induction l as [|j l IH]; intros r s s1 H.
  - simpl in H. unfold ret in H. inversion H; subst. simpl. repeat split; tauto.
  - simpl in H. inv_bind H. apply now_ok in E as [-> ->].
    inv_bind H. apply fromisoformat_ok in E as [-> [str0 ->]].
    inv_bind H. apply IH in E as [-> [K1 K2]].
    apply ret_ok in H as [-> ->].
    destruct (clock s - a <? day)%Z eqn:Hd.
    + apply Z.ltb_lt in Hd. split; [reflexivity|]. split.
      * intros j [<-|Hj]; eauto.
      * intros str ts [Heq|Hin] Hlt; [left; exact Heq | right; eauto].
    + apply Z.ltb_ge in Hd. split; [reflexivity|]. split; [exact K1|].
      intros str ts [Heq|Hin] Hlt; [|eauto].
      inversion Heq; subst. lia.
Qed.

Section Combinators.

Variable R : St -> St -> Prop.
Context {R_pre : PreOrder R}.

Lemma pres_ret {A} (a : A) : Preserves R (ret a).
Proof. intros s. simpl. reflexivity. Qed.

Lemma pres_stateless {A} (m : M A) : (forall s, snd (m s) = s) -> Preserves R m.
Proof. intros H s. rewrite H. reflexivity. Qed.

Lemma pres_raise {A} (e : Exn) : Preserves R (@raise A e).
Proof. intros s. simpl. reflexivity. Qed.

Lemma pres_get_state : Preserves R get_state.
Proof. intros s. simpl. reflexivity. Qed.

Lemma pres_now : Preserves R now.
Proof. intros s. simpl. reflexivity. Qed.

Lemma pres_bind {A B} (m : M A) (f : A -> M B) :
  Preserves R m -> (forall a, Preserves R (f a)) -> Preserves R (bind m f).
Proof.
  intros Hm Hf s. unfold bind. specialize (Hm s).
  destruct (m s) as [[a|e] s'] eqn:E; simpl in *; [etransitivity; [exact Hm | apply Hf] | exact Hm].
Qed.

Lemma pres_catch_api {A} (m : M A) h :
  Preserves R m -> (forall msg c, Preserves R (h msg c)) -> Preserves R (catch_api m h).
Proof.
  intros Hm Hh s. unfold catch_api. specialize (Hm s).
  destruct (m s) as [[a|[msg c| | | | | | | |]] s'] eqn:E; simpl in *; auto.
  etransitivity; [exact Hm | apply Hh].
Qed.

Lemma pres_catch_all {A} (m : M A) h :
  Preserves R m -> (forall e, Preserves R (h e)) -> Preserves R (catch_all m h).
Proof.
  intros Hm Hh s. unfold catch_all. specialize (Hm s).
  destruct (m s) as [[a|e] s'] eqn:E; simpl in *; auto.
  etransitivity; [exact Hm | apply Hh].
Qed.

Lemma pres_catch_os {A} (m : M A) h :
  Preserves R m -> Preserves R h -> Preserves R (catch_os m h).
Proof.
  intros Hm Hh s. unfold catch_os. specialize (Hm s).
  destruct (m s) as [[a|[| p | | | | | | |]] s'] eqn:E; simpl in *; auto.
  etransitivity; [exact Hm | apply Hh].
Qed.

Lemma keep_recent_pres (l : list Json) : Preserves R (keep_recent l).
Proof.
  induction l as [|j l IH]; simpl; [apply pres_ret|].
  apply pres_bind; [apply pres_now | intros t].
  apply pres_bind; [apply pres_stateless, fromisoformat_stateless | intros d].
  apply pres_bind; [exact IH | intros r; apply pres_ret].
Qed.

End Combinators.

(** Split a [Preserves] goal along the structure of the computation. *)
Ltac pres_split :=
  repeat match goal with
  | |- Preserves ?R (bind _ _) => apply (pres_bind R); [| intros ?]
  | |- Preserves ?R (catch_api _ _) => apply (pres_catch_api R); [| intros ? ?]
  | |- Preserves ?R (catch_all _ _) => apply (pres_catch_all R); [| intros ?]
  | |- Preserves ?R (catch_os _ _) => apply (pres_catch_os R)
  | |- Preserves ?R (ret _) => apply (pres_ret R)
  | |- Preserves ?R (raise _) => apply (pres_raise R)
  | |- Preserves ?R get_state => apply (pres_get_state R)
  | |- Preserves ?R now => apply (pres_now R)
  | |- Preserves ?R (keep_recent _) => apply (keep_recent_pres R)
  | |- Preserves ?R _ => apply (pres_stateless R); intros ?; solve [auto with stateless]
  | |- Preserves _ (match ?x with _ => _ end) => destruct x
  | |- Preserves _ _ => progress cbv beta zeta
  end.

Create HintDb pres.

(** Case on the checks [open] makes on a file name. *)
Ltac destr_open :=
  match goal with
  | |- context [match open_error ?a ?b with _ => _ end] => destruct (open_error a b)
  end.

Create HintDb onlyreq.

Section Programs.

Variable R : St -> St -> Prop.
Context {R_pre : PreOrder R}.

Hypothesis R_http : forall r, Preserves R (http r).
Hypothesis R_sleep : forall n, Preserves R (sleep n).
Hypothesis R_log : forall msg, Preserves R (log_error msg).
Hypothesis R_write_attach : forall pid name bytes, Preserves R (write_attach_file pid name bytes).
Hypothesis R_failed : forall f, Preserves R (set_failed_file f).
Hypothesis R_cache : forall c, Preserves R (set_cache_file c).
Hypothesis R_deleted : forall d, Preserves R (set_deleted_file d).
Hypothesis R_del_id : forall pid, Preserves R (del_id_mapping pid).
Hypothesis R_save : forall pid p, Preserves R (save_content pid p).
Hypothesis R_create : forall sk p, Preserves R (create_and_resave sk p).

Local Hint Resolve R_http R_sleep R_log R_write_attach R_failed R_cache R_deleted
  R_del_id R_save R_create : pres.

Ltac pres_go := pres_split; auto with pres.

Lemma get_page_by_id_pres pid : Preserves R (get_page_by_id pid).
Proof. unfold get_page_by_id. pres_go. Qed.
Local Hint Resolve get_page_by_id_pres : pres.

Lemma get_space_id_pres sk : Preserves R (get_space_id sk).
Proof. unfold get_space_id. pres_go. Qed.
Local Hint Resolve get_space_id_pres : pres.

Lemma draft_wait_pres pid n c : Preserves R (draft_wait pid n c).
Proof. revert c. induction n; intros c; simpl; pres_go. Qed.
Local Hint Resolve draft_wait_pres : pres.

Lemma update_page_pres sk pid p : Preserves R (update_page sk pid p).
Proof. unfold update_page, draft_convert, final_put. pres_go. Qed.
Local Hint Resolve update_page_pres : pres.

Lemma create_page_pres sk p : Preserves R (create_page sk p).
Proof. unfold create_page. pres_go. Qed.

Lemma delete_page_pres pid : Preserves R (delete_page pid).
Proof. unfold delete_page. pres_go. Qed.
Local Hint Resolve delete_page_pres : pres.

Lemma get_space_content_pres sk : Preserves R (get_space_content sk).
Proof. unfold get_space_content. pres_go. Qed.
Local Hint Resolve get_space_content_pres : pres.

Lemma get_attachments_pres pid : Preserves R (get_attachments pid).
Proof. unfold get_attachments. pres_go. Qed.
Local Hint Resolve get_attachments_pres : pres.

Lemma save_attachment_metadata_pres pid a : Preserves R (save_attachment_metadata pid a).
Proof. unfold save_attachment_metadata, get_attachment_metadata, meta_part. pres_go. Qed.
Local Hint Resolve save_attachment_metadata_pres : pres.

Lemma should_skip_attachment_pres f : Preserves R (should_skip_attachment f).
Proof. unfold should_skip_attachment. pres_go. Qed.
Local Hint Resolve should_skip_attachment_pres : pres.

Lemma mark_failed_attachment_pres f : Preserves R (mark_failed_attachment f).
Proof. unfold mark_failed_attachment. pres_go. Qed.
Local Hint Resolve mark_failed_attachment_pres : pres.

Lemma clear_failed_attachment_pres f : Preserves R (clear_failed_attachment f).
Proof. unfold clear_failed_attachment. pres_go. Qed.
Local Hint Resolve clear_failed_attachment_pres : pres.

Lemma download_attempts_pres u a n : Preserves R (download_attempts u a n).
Proof. revert a. induction n; intros a; simpl; pres_go. Qed.
Local Hint Resolve download_attempts_pres : pres.

Lemma download_urls_pres pid us : Preserves R (download_urls pid us).
Proof. induction us; simpl; pres_go. Qed.
Local Hint Resolve download_urls_pres : pres.

Lemma download_attachment_to_disk_pres bu pid a :
  Preserves R (download_attachment_to_disk bu pid a).
Proof. unfold download_attachment_to_disk, download_attachment. pres_go. Qed.
Local Hint Resolve download_attachment_to_disk_pres : pres.

Lemma pull_attachments_pres bu pid atts : Preserves R (pull_attachments bu pid atts).
Proof. induction atts; simpl; pres_go. Qed.
Local Hint Resolve pull_attachments_pres : pres.

Lemma load_deleted_pages_pres : Preserves R load_deleted_pages.
Proof. unfold load_deleted_pages. pres_go. Qed.
Local Hint Resolve load_deleted_pages_pres : pres.

Lemma pull_pages_pres bu ds pages : Preserves R (pull_pages bu ds pages).
Proof. induction pages; simpl; [pres_go|]. unfold pull_page. pres_go. Qed.
Local Hint Resolve pull_pages_pres : pres.

Lemma pull_from_confluence_pres sk bu : Preserves R (pull_from_confluence sk bu).
Proof. unfold pull_from_confluence. pres_go. Qed.

Lemma get_page_id_from_filename_pres f : Preserves R (get_page_id_from_filename f).
Proof. unfold get_page_id_from_filename. pres_go. Qed.
Local Hint Resolve get_page_id_from_filename_pres : pres.

Lemma push_delete_pres ds f : Preserves R (push_delete ds f).
Proof. unfold push_delete. pres_go. Qed.
Local Hint Resolve push_delete_pres : pres.

Lemma push_deletes_pres fs ds : Preserves R (push_deletes fs ds).
Proof. revert ds. induction fs; intros ds; simpl; pres_go. Qed.
Local Hint Resolve push_deletes_pres : pres.

Lemma push_one_pres sk f c h cache ds : Preserves R (push_one sk f c h cache ds).
Proof. unfold push_one, push_try, push_handler. pres_go. Qed.
Local Hint Resolve push_one_pres : pres.

Lemma push_records_pres sk local cache ds : Preserves R (push_records sk local cache ds).
Proof.
  revert cache ds. induction local as [|[f [c h]] local IH]; intros cache ds; simpl; pres_go.
Qed.
Local Hint Resolve push_records_pres : pres.

Lemma push_to_confluence_pres sk : Preserves R (push_to_confluence sk).
Proof. unfold push_to_confluence, get_local_content, load_cache. pres_go. Qed.

End Programs.

(** ** Requests and errors only accumulate *)

Lemma count_posts_app (l : list Req) (r : Req) :
  count_posts (l ++ [r]) = (count_posts l + if is_post r then 1 else 0)%nat.
Proof. unfold count_posts. rewrite filter_app, length_app. simpl. destruct (is_post r); reflexivity. Qed.

#[export] Instance grows_preorder : PreOrder grows.
Proof.
  split.
  - intros s. unfold grows. lia.
  - intros s1 s2 s3 H1 H2. unfold grows in *. lia.
Qed.

Lemma http_grows r : Preserves grows (http r).
Proof.
  intros s. rewrite http_eq. unfold grows, after_request. simpl.
  rewrite count_posts_app, length_app. simpl. lia.
Qed.

Lemma sleep_grows n : Preserves grows (sleep n).
Proof. intros s. unfold grows. simpl. lia. Qed.

Lemma log_error_grows msg : Preserves grows (log_error msg).
Proof. intros s. unfold grows. simpl. rewrite length_app. simpl. lia. Qed.

Lemma write_attach_file_grows pid n b : Preserves grows (write_attach_file pid n b).
Proof. intros s. unfold write_attach_file. destruct (open_error (pid ++ "/" ++ n) n); unfold grows; simpl; lia. Qed.

Lemma write_content_file_grows stem p : Preserves grows (write_content_file stem p).
Proof. intros s. unfold write_content_file. destruct (open_error (stem ++ ".json") (stem ++ ".json")); unfold grows; simpl; lia. Qed.

Lemma set_failed_file_grows f : Preserves grows (set_failed_file f).
Proof. intros s. unfold grows. simpl. lia. Qed.

Lemma set_cache_file_grows c : Preserves grows (set_cache_file c).
Proof. intros s. unfold grows. simpl. lia. Qed.

Lemma set_deleted_file_grows d : Preserves grows (set_deleted_file d).
Proof. intros s. unfold grows. simpl. lia. Qed.

Lemma del_id_mapping_grows pid : Preserves grows (del_id_mapping pid).
Proof.
  intros s. unfold del_id_mapping, bind, get_state, ret, set_id_to_filename.
  destruct (dmem pid (id_to_filename s)); unfold grows; simpl; lia.
Qed.

Lemma save_content_grows pid p : Preserves grows (save_content pid p).
Proof.
  unfold save_content. pres_split; [apply write_content_file_grows | apply write_content_file_grows].
Qed.

Lemma create_and_resave_grows sk p : Preserves grows (create_and_resave sk p).
Proof.
  unfold create_and_resave. pres_split;
    [apply (create_page_pres grows http_grows) | apply save_content_grows].
Qed.

Lemma push_grows sk : Preserves grows (push_to_confluence sk).
Proof.
  apply (push_to_confluence_pres grows); auto using http_grows, sleep_grows, log_error_grows,
    write_attach_file_grows, set_failed_file_grows, set_cache_file_grows,
    set_deleted_file_grows, del_id_mapping_grows, create_and_resave_grows.
Qed.

(** ** The ID mapping *)

#[export] Instance idmap_shrinks_preorder : PreOrder idmap_shrinks.
Proof.
  split.
  - intros s. split; [reflexivity | apply incl_refl].
  - intros s1 s2 s3 [E1 I1] [E2 I2]. split; [congruence | eapply incl_tran; eauto].
Qed.

#[export] Instance same_ids_preorder : PreOrder same_ids.
Proof.
  split.
  - intros s. split; reflexivity.
  - intros s1 s2 s3 [E1 I1] [E2 I2]. split; congruence.
Qed.

Lemma ddel_incl {V} (k : string) (d : list (string * V)) : incl (ddel k d) d.
Proof.
  induction d as [|[k' v'] d IH]; simpl; [apply incl_refl|].
  destruct (String.eqb k k').
  - apply incl_tl. exact IH.
  - apply incl_cons; [left; reflexivity | apply incl_tl; exact IH].
Qed.

Lemma dget_ddel_same {V} (k : string) (d : list (string * V)) : dget k (ddel k d) = None.
Proof.
  induction d as [|[k' v'] d IH]; simpl; [reflexivity|].
  destruct (String.eqb k k') eqn:E; [exact IH|]. simpl. rewrite E. exact IH.
Qed.

Lemma contains_char_app (c : ascii) (a b : string) :
  contains_char c (a ++ b)%string = contains_char c a || contains_char c b.
Proof.
  unfold contains_char. induction a as [|x a IH]; simpl; [reflexivity|].
  rewrite IH. apply orb_assoc.
Qed.

(** Both relations hold across every effect that leaves the mapping alone. *)
Ltac ids_prim R :=
  intros s; unfold R;
  repeat match goal with
  | |- context [if ?b then _ else _] => destruct b
  | |- context [match open_error ?a ?b with _ => _ end] => destruct (open_error a b)
  end; simpl; auto using incl_refl.

Lemma http_same_ids r : Preserves same_ids (http r).
Proof. intros s. rewrite http_eq. split; reflexivity. Qed.

Lemma save_content_same_ids pid p : Preserves same_ids (save_content pid p).
Proof.
  unfold save_content, write_content_file. pres_split;
    intros s; destr_open; split; reflexivity.
Qed.

Lemma create_and_resave_same_ids sk p : Preserves same_ids (create_and_resave sk p).
Proof.
  unfold create_and_resave. pres_split;
    [apply (create_page_pres same_ids http_same_ids) | apply save_content_same_ids].
Qed.

Lemma http_idmap r : Preserves idmap_shrinks (http r).
Proof. intros s. rewrite http_eq. split; [reflexivity | apply incl_refl]. Qed.

Lemma sleep_idmap n : Preserves idmap_shrinks (sleep n).
Proof. ids_prim idmap_shrinks. Qed.

Lemma log_error_idmap msg : Preserves idmap_shrinks (log_error msg).
Proof. ids_prim idmap_shrinks. Qed.

Lemma write_attach_file_idmap pid n b : Preserves idmap_shrinks (write_attach_file pid n b).
Proof. unfold write_attach_file. ids_prim idmap_shrinks. Qed.

Lemma set_failed_file_idmap f : Preserves idmap_shrinks (set_failed_file f).
Proof. ids_prim idmap_shrinks. Qed.

Lemma set_cache_file_idmap c : Preserves idmap_shrinks (set_cache_file c).
Proof. ids_prim idmap_shrinks. Qed.

Lemma set_deleted_file_idmap d : Preserves idmap_shrinks (set_deleted_file d).
Proof. ids_prim idmap_shrinks. Qed.

Lemma del_id_mapping_idmap pid : Preserves idmap_shrinks (del_id_mapping pid).
Proof.
  intros s. unfold del_id_mapping, bind, get_state, ret, set_id_to_filename.
  destruct (dmem pid (id_to_filename s)); split; simpl; auto using incl_refl, ddel_incl.
Qed.

Lemma save_content_idmap pid p : Preserves idmap_shrinks (save_content pid p).
Proof.
  unfold save_content, write_content_file. pres_split;
    intros s; destr_open; split; simpl; auto using incl_refl.
Qed.

Lemma create_and_resave_idmap sk p : Preserves idmap_shrinks (create_and_resave sk p).
Proof.
  unfold create_and_resave. pres_split;
    [apply (create_page_pres idmap_shrinks http_idmap) | apply save_content_idmap].
Qed.

Lemma sleep_same_ids n : Preserves same_ids (sleep n).
Proof. ids_prim same_ids. Qed.

Lemma log_error_same_ids msg : Preserves same_ids (log_error msg).
Proof. ids_prim same_ids. Qed.

Lemma write_attach_file_same_ids pid n b : Preserves same_ids (write_attach_file pid n b).
Proof. unfold write_attach_file. ids_prim same_ids. Qed.

Lemma set_failed_file_same_ids f : Preserves same_ids (set_failed_file f).
Proof. ids_prim same_ids. Qed.

Lemma pull_same_ids sk bu : Preserves same_ids (pull_from_confluence sk bu).
Proof.
  apply (pull_from_confluence_pres same_ids); auto using http_same_ids, sleep_same_ids,
    log_error_same_ids, write_attach_file_same_ids, set_failed_file_same_ids,
    save_content_same_ids.
Qed.

Lemma push_idmap sk : Preserves idmap_shrinks (push_to_confluence sk).
Proof.
  apply (push_to_confluence_pres idmap_shrinks); auto using http_idmap, sleep_idmap,
    log_error_idmap, write_attach_file_idmap, set_failed_file_idmap, set_cache_file_idmap,
    set_deleted_file_idmap, del_id_mapping_idmap, create_and_resave_idmap.
Qed.

(** [create_and_resave] after a successful create. *)
Lemma create_and_resave_ok sk c s s1 rb i :
  create_page sk c s = (Ok rb, s1) -> p_id (as_page rb) = Some i -> truthy (Some i) = true ->
  save_opens (save_stem c) = true ->
  exists s', create_and_resave sk c s = (Ok (Some i), s') /\
    content_dir s' = dset (save_stem c) (saved_page (set_id (Some i) c))
                       (dset (save_stem c ++ "_mapping")%string (saved_page (set_id (Some i) c))
                          (content_dir s1)) /\
    same_ids s1 s' /\ sent s' = sent s1 /\ errors s' = errors s1.
Proof.
  intros Hc Hi Ht Hs. unfold create_and_resave.
  rewrite (bind_ok _ _ _ _ _ Hc). cbv zeta. rewrite Hi. cbn iota. rewrite Ht.
  unfold save_content. fold (save_stem (set_id (Some i) c)).
  assert (Hst : save_stem (set_id (Some i) c) = save_stem c) by reflexivity.
  rewrite Hst.
  unfold save_opens in Hs.
  destruct (open_error ((save_stem c ++ "_mapping") ++ ".json") _) eqn:Hm; [discriminate|].
  destruct (open_error (save_stem c ++ ".json") _) eqn:Hn; [discriminate|].
  unfold bind at 1 2, write_content_file at 1. rewrite Hm.
  unfold write_content_file. simpl. rewrite Hn.
  eexists. split; [reflexivity|]. split; [reflexivity|]. split; [split; reflexivity|].
  split; reflexivity.
Qed.

(** ** Which requests a computation sends *)

#[export] Instance only_reqs_preorder (P : Req -> bool) : PreOrder (only_reqs P).
Proof.
  split.
  - intros s. exists []. rewrite app_nil_r. split; reflexivity.
  - intros s1 s2 s3 [l1 [E1 F1]] [l2 [E2 F2]]. exists (l1 ++ l2).
    rewrite E2, E1, app_assoc, forallb_app, F1, F2. split; reflexivity.
Qed.

Lemma keeps_sent_only (P : Req -> bool) {A} (m : M A) :
  (forall s, sent (snd (m s)) = sent s) -> Preserves (only_reqs P) m.
Proof. intros H s. exists []. rewrite H, app_nil_r. split; reflexivity. Qed.

Lemma http_only (P : Req -> bool) (r : Req) : P r = true -> Preserves (only_reqs P) (http r).
Proof. intros Hr s. rewrite http_eq. exists [r]. simpl. rewrite Hr. split; reflexivity. Qed.

Lemma smem_In (x : string) (l : list string) : smem x l = true <-> In x l.
Proof.
  unfold smem. rewrite existsb_exists. split.
  - intros [y [Hy E]]. apply String.eqb_eq in E. subst y. exact Hy.
  - intros H. exists x. split; [exact H | apply String.eqb_refl].
Qed.

Lemma set_of_In (x : string) (l : list string) : In x (set_of l) <-> In x l.
Proof.
  induction l as [|y l IH]; simpl; [tauto|].
  destruct (smem y l) eqn:E.
  - apply smem_In in E. rewrite IH. split; [tauto|]. intros [<-|H]; auto.
  - simpl. rewrite IH. tauto.
Qed.

Section OnlyReqs.

Variable P : Req -> bool.
Hypothesis P_download : forall u, P (ReqDownload u) = true.
Hypothesis P_meta : forall a part, P (ReqGetAttachmentMeta a part) = true.

Ltac keeps := apply keeps_sent_only; intros ?s;
  repeat match goal with
  | |- context [if ?b then _ else _] => destruct b
  | |- context [match open_error ?a ?b with _ => _ end] => destruct (open_error a b)
  end; reflexivity.

Lemma sleep_only n : Preserves (only_reqs P) (sleep n).
Proof. keeps. Qed.

Lemma log_error_only msg : Preserves (only_reqs P) (log_error msg).
Proof. keeps. Qed.

Lemma write_attach_file_only pid n b : Preserves (only_reqs P) (write_attach_file pid n b).
Proof. unfold write_attach_file. keeps. Qed.

Lemma set_failed_file_only f : Preserves (only_reqs P) (set_failed_file f).
Proof. keeps. Qed.

Lemma save_content_only pid p : Preserves (only_reqs P) (save_content pid p).
Proof.
  unfold save_content, write_content_file. pres_split; keeps.
Qed.

Local Hint Resolve sleep_only log_error_only write_attach_file_only set_failed_file_only
  save_content_only : onlyreq.

Ltac only_go := pres_split; first [apply http_only; auto | auto with onlyreq].

Lemma get_page_by_id_only pid :
  P (ReqGetPage pid) = true -> Preserves (only_reqs P) (get_page_by_id pid).
Proof. intros Hp. unfold get_page_by_id. only_go. Qed.

Lemma get_attachments_only pid :
  P (ReqGetAttachments pid) = true -> Preserves (only_reqs P) (get_attachments pid).
Proof. intros Hp. unfold get_attachments. only_go. Qed.

Lemma should_skip_attachment_only f : Preserves (only_reqs P) (should_skip_attachment f).
Proof. unfold should_skip_attachment. only_go. Qed.

Lemma mark_failed_attachment_only f : Preserves (only_reqs P) (mark_failed_attachment f).
Proof. unfold mark_failed_attachment. only_go. Qed.

Lemma clear_failed_attachment_only f : Preserves (only_reqs P) (clear_failed_attachment f).
Proof. unfold clear_failed_attachment. only_go. Qed.

Lemma save_attachment_metadata_only pid a :
  Preserves (only_reqs P) (save_attachment_metadata pid a).
Proof. unfold save_attachment_metadata, get_attachment_metadata, meta_part. only_go. Qed.

Lemma download_attempts_only u a n : Preserves (only_reqs P) (download_attempts u a n).
Proof.
  revert a. induction n as [|n IH]; intros a; simpl; only_go.
Qed.

Lemma download_urls_only pid us : Preserves (only_reqs P) (download_urls pid us).
Proof.
  induction us as [|u us IH]; cbn [download_urls]; pres_split; auto using download_attempts_only.
Qed.

Local Hint Resolve should_skip_attachment_only mark_failed_attachment_only
  clear_failed_attachment_only save_attachment_metadata_only download_urls_only : onlyreq.

Lemma download_attachment_to_disk_only bu pid a :
  Preserves (only_reqs P) (download_attachment_to_disk bu pid a).
Proof. unfold download_attachment_to_disk, download_attachment. only_go. Qed.

Lemma pull_attachments_only bu pid atts : Preserves (only_reqs P) (pull_attachments bu pid atts).
Proof.
  induction atts as [|a atts IH]; cbn [pull_attachments]; pres_split; auto using download_attachment_to_disk_only.
Qed.

End OnlyReqs.

(** ** Tombstones *)

#[export] Instance keeps_deleted_preorder : PreOrder keeps_deleted.
Proof.
  split.
  - intros s. reflexivity.
  - intros s1 s2 s3 E1 E2. unfold keeps_deleted in *. congruence.
Qed.

Lemma get_space_content_avoids (R sk : string) :
  Preserves (only_reqs (fun r => negb (about_page R r))) (get_space_content sk).
Proof. unfold get_space_content. pres_split; apply http_only; reflexivity. Qed.

Lemma pull_page_avoids (R bu : string) (ds : list string) (page : Page) :
  smem R ds = true ->
  Preserves (only_reqs (fun r => negb (about_page R r))) (pull_page bu ds page).
Proof.
  intros HR. unfold pull_page.
  destruct (p_id page) as [pid|]; [|apply (pres_raise (only_reqs _))].
  destruct (smem pid ds) eqn:Hm; [apply (pres_ret (only_reqs _))|].
  assert (Hne : String.eqb pid R = false).
  { apply String.eqb_neq. intros ->. congruence. }
  pres_split;
    first [ apply get_page_by_id_only; simpl; rewrite Hne; reflexivity
          | apply get_attachments_only; simpl; rewrite Hne; reflexivity
          | apply save_content_only
          | apply log_error_only
          | apply pull_attachments_only; intros; reflexivity ].
Qed.

Lemma pull_pages_avoids (R bu : string) (ds : list string) (pages : list Page) :
  smem R ds = true ->
  Preserves (only_reqs (fun r => negb (about_page R r))) (pull_pages bu ds pages).
Proof.
  intros HR. induction pages as [|p pages IH]; cbn [pull_pages]; pres_split;
    auto using pull_page_avoids.
Qed.

(** A pull sends no request about a page listed in the tombstone file. *)
Lemma pull_avoids (R sk bu : string) (s : St) (l : list string) :
  deleted_file s = PValid l -> In R l ->
  only_reqs (fun r => negb (about_page R r)) s (snd (pull_from_confluence sk bu s)).
Proof.
  intros Hd Hin. unfold pull_from_confluence.
  match goal with |- context [bind ?m1 ?k s] => set (M1 := m1); set (K := k) end.
  assert (Hp1 : Preserves (only_reqs (fun r => negb (about_page R r))) M1).
  { unfold M1. pres_split; auto using get_space_content_avoids, log_error_only. }
  assert (Hd1 : Preserves keeps_deleted M1).
  { unfold M1, get_space_content. pres_split;
      try (intros ?s; rewrite http_eq; reflexivity);
      intros ?s; reflexivity. }
  pose proof (Hp1 s) as A1. pose proof (Hd1 s) as B1.
  unfold bind at 1. destruct (M1 s) as [r s1] eqn:E1. simpl in A1, B1.
  destruct r as [[pages|]|e]; [|exact A1|exact A1].
  unfold K. cbv beta iota.
  assert (Hl : load_deleted_pages s1 = (Ok (set_of l), s1)).
  { unfold load_deleted_pages, bind, get_state. unfold keeps_deleted in B1.
    rewrite B1, Hd. reflexivity. }
  rewrite (bind_ok _ _ _ _ _ Hl).
  transitivity s1; [exact A1|].
  apply pull_pages_avoids. apply smem_In, set_of_In, Hin.
Qed.

Lemma create_and_resave_creates (sk : string) (c : Page) :
  Preserves (only_reqs is_create_req) (create_and_resave sk c).
Proof.
  unfold create_and_resave, create_page, get_space_id.
  pres_split; first [apply http_only; reflexivity | apply save_content_only].
Qed.

Lemma push_handler_creates (sk : string) (c : Page) (pid : option string) ds msg code :
  Preserves (only_reqs is_create_req) (push_handler sk c pid ds msg code).
Proof.
  unfold push_handler. pres_split; first [apply create_and_resave_creates | apply log_error_only].
Qed.

(** The tombstoned branch of the record loop. *)
Lemma push_try_tombstoned (sk R : string) (c : Page) (ds : list string) :
  truthy (Some R) = true -> smem R ds = true ->
  push_try sk c (Some R) ds =
  (rid <- create_and_resave sk c ;;
   ret (Some (if truthy rid then sremove R ds else ds))).
Proof. intros Ht Hm. unfold push_try. rewrite Ht, Hm. reflexivity. Qed.

Lemma del_id_mapping_ok (pid : string) (s : St) :
  del_id_mapping pid s = (Ok tt, snd (del_id_mapping pid s)) /\
  dmem pid (id_to_filename (snd (del_id_mapping pid s))) = false.
Proof.
  unfold del_id_mapping, bind, get_state, set_id_to_filename, ret.
  destruct (dmem pid (id_to_filename s)) eqn:E; simpl; split; auto.
  unfold dmem. rewrite dget_ddel_same. reflexivity.
Qed.

Lemma smem_sadd (x : string) (l : list string) : smem x (sadd x l) = true.
Proof.
  unfold sadd. destruct (smem x l) eqn:E; [exact E|].
  apply smem_In, in_or_app. right. left. reflexivity.
Qed.

(** ** A second push *)

Lemma count_posts_app_gen (a b : list Req) :
  count_posts (a ++ b) = (count_posts a + count_posts b)%nat.
Proof. unfold count_posts. rewrite filter_app, length_app. reflexivity. Qed.

Lemma count_posts_none (l : list Req) :
  forallb (fun r => negb (is_post r)) l = true -> count_posts l = 0%nat.
Proof.
  induction l as [|r l IH]; simpl; [reflexivity|].
  intros H. apply andb_prop in H. destruct H as [Hr Hl].
  unfold count_posts in *. simpl. destruct (is_post r); [discriminate|]. exact (IH Hl).
Qed.

#[export] Instance calm_preorder : PreOrder calm.
Proof.
  split.
  - intros s. split; [reflexivity | reflexivity].
  - intros s1 s2 s3 [G1 C1] [G2 C2]. split; [transitivity s2; assumption|].
    intros E. destruct G1 as [_ [P1 _]]. destruct G2 as [_ [P2 _]].
    rewrite C2, C1; [reflexivity | lia | lia].
Qed.

Lemma calm_of (A : Type) (m : M A) :
  Preserves grows m -> (forall s, content_dir (snd (m s)) = content_dir s) -> Preserves calm m.
Proof. intros G C s. split; [apply G | intros _; apply C]. Qed.

Lemma http_calm r : Preserves calm (http r).
Proof. apply calm_of; [apply http_grows | intros s; rewrite http_eq; reflexivity]. Qed.

Lemma sleep_calm n : Preserves calm (sleep n).
Proof. apply calm_of; [apply sleep_grows | reflexivity]. Qed.

Lemma log_error_calm msg : Preserves calm (log_error msg).
Proof. apply calm_of; [apply log_error_grows | reflexivity]. Qed.

Lemma get_space_id_no_post sk :
  Preserves (only_reqs (fun r => negb (is_post r))) (get_space_id sk).
Proof. unfold get_space_id. pres_split; apply http_only; reflexivity. Qed.

(** A create that returns has sent its POST. *)
Lemma create_page_posts sk c s rb s1 :
  create_page sk c s = (Ok rb, s1) -> count_posts (sent s1) = S (count_posts (sent s)).
Proof.
  intros H. unfold create_page in H.
  destruct (get_space_id sk s) as [[sid|e] s0] eqn:E; [|rewrite (bind_err _ _ _ _ _ E) in H; discriminate].
  rewrite (bind_ok _ _ _ _ _ E) in H. cbv beta in H. unfold bind in H.
  rewrite http_eq in H. cbv iota beta in H.
  pose proof (get_space_id_no_post sk s) as [l [El Fl]]. rewrite E in El. simpl in El.
  assert (Hs1 : s1 = after_request (ReqPostPage (mkPostData sid
                   (match p_title c with Some t => t | None => EmptyString end)
                   (storage_value (p_body c)))) s0).
  { destruct (json_resp (next_resp s0)) as [b| |]; unfold ret, raise in H; congruence. }
  subst s1. unfold after_request. simpl. rewrite El, count_posts_app, count_posts_app_gen.
  rewrite (count_posts_none l Fl). simpl. lia.
Qed.

Lemma create_and_resave_calm sk c : Preserves calm (create_and_resave sk c).
Proof.
  intros s. unfold create_and_resave.
  destruct (create_page sk c s) as [[rb|e] s1] eqn:E.
  - rewrite (bind_ok _ _ _ _ _ E).
    pose proof (create_page_pres grows http_grows sk c s) as G1. rewrite E in G1. simpl in G1.
    match goal with |- calm s (snd (?m s1)) =>
      assert (G2 : Preserves grows m) by (pres_split; apply save_content_grows) end.
    specialize (G2 s1). pose proof (create_page_posts _ _ _ _ _ E) as P.
    split; [transitivity s1; assumption|].
    intros Hp. destruct G2 as [_ [P2 _]]. lia.
  - rewrite (bind_err _ _ _ _ _ E).
    pose proof (create_page_pres calm http_calm sk c s) as C. rewrite E in C. exact C.
Qed.

Lemma opt_eqb_refl (h : string) : opt_eqb (Some h) (Some h) = true.
Proof. simpl. apply String.eqb_refl. Qed.

Lemma opt_eqb_some (h : string) (o : option string) : opt_eqb (Some h) o = true -> o = Some h.
Proof.
  destruct o as [x|]; simpl; [|discriminate].
  intros E. apply String.eqb_eq in E. subst. reflexivity.
Qed.

Lemma bind_some_not_none {A X} (m : M A) (f : A -> X) t t' :
  (x <- m ;; ret (Some (f x))) t = (Ok None, t') -> False.
Proof. unfold bind. destruct (m t) as [[a|e] t1]; unfold ret; discriminate. Qed.

(** [push_try] answers [Some] or raises. *)
Lemma push_try_not_none sk c pid ds t t' :
  push_try sk c pid ds t = (Ok None, t') -> False.
Proof.
  intros H. unfold push_try in H.
  repeat match type of H with context [match ?x with _ => _ end] => destruct x end;
    exact (bind_some_not_none _ _ _ _ H).
Qed.

Lemma log_none_logs {X} (msg : string) t t' :
  (log_error msg ;;; ret (@None X)) t = (Ok None, t') ->
  (length (errors t) < length (errors t'))%nat.
Proof.
  unfold bind, log_error, ret. intros H. injection H as <-. simpl.
  rewrite length_app. simpl. lia.
Qed.

Lemma catch_create_none_logs {A X} (m : M A) (f : A -> X) (g : string -> option Z -> string) t t' :
  Preserves grows m ->
  catch_api (x <- m ;; ret (Some (f x))) (fun a b => log_error (g a b) ;;; ret None) t
    = (Ok None, t') ->
  (length (errors t) < length (errors t'))%nat.
Proof.
  intros G H. pose proof (G t) as Gt. unfold catch_api, bind in H.
  destruct (m t) as [[a|e] t1]; simpl in Gt; [unfold ret in H; discriminate|].
  destruct e as [msg code| | | | | | | |]; try discriminate.
  unfold log_error, ret in H. simpl in H. injection H as <-. simpl.
  rewrite length_app. simpl. destruct Gt as [Ge _]. lia.
Qed.

(** The handler of the record loop answers [None] only after logging. *)
Lemma push_handler_none_logs sk c pid ds msg code t t' :
  push_handler sk c pid ds msg code t = (Ok None, t') ->
  (length (errors t) < length (errors t'))%nat.
Proof.
  intros H. unfold push_handler in H.
  repeat match type of H with context [match ?x with _ => _ end] => destruct x end;
    first [ exact (log_none_logs _ _ _ H)
          | exact (catch_create_none_logs _ _ _ _ _ (create_and_resave_grows _ _) H) ].
Qed.

Lemma push_try_grows sk c pid ds : Preserves grows (push_try sk c pid ds).
Proof.
  unfold push_try. pres_split;
    first [ apply create_and_resave_grows
          | apply (update_page_pres grows http_grows sleep_grows log_error_grows) ].
Qed.

Lemma push_catch_none_logs sk c pid ds t t' :
  catch_api (push_try sk c pid ds) (push_handler sk c pid ds) t = (Ok None, t') ->
  (length (errors t) < length (errors t'))%nat.
Proof.
  intros H. pose proof (push_try_grows sk c pid ds t) as G. unfold catch_api in H.
  destruct (push_try sk c pid ds t) as [[r|e] t1] eqn:E.
  - injection H as -> <-. exfalso. exact (push_try_not_none _ _ _ _ _ _ E).
  - simpl in G. destruct e; try discriminate.
    apply push_handler_none_logs in H. destruct G as [Ge _]. lia.
Qed.

Lemma resolve_ok (c : Page) (F : string) (t : St) :
  exists v, (if truthy (p_id c) then ret (p_id c) else get_page_id_from_filename F) t = (Ok v, t).
Proof. destruct (truthy (p_id c)); eexists; reflexivity. Qed.

Lemma push_one_calm sk F c h C D : Preserves calm (push_one sk F c h C D).
Proof.
  apply (push_one_pres calm http_calm sleep_calm log_error_calm create_and_resave_calm).
Qed.

Lemma push_one_same_ids sk F c h C D : Preserves same_ids (push_one sk F c h C D).
Proof.
  apply (push_one_pres same_ids http_same_ids sleep_same_ids log_error_same_ids
           create_and_resave_same_ids).
Qed.

(** One record of a push that logs nothing and posts nothing. *)
Lemma push_one_quiet sk F c h C D t C' D' t' :
  push_one sk F c h C D t = (Ok (C', D'), t') ->
  length (errors t') = length (errors t) ->
  count_posts (sent t') = count_posts (sent t) ->
  content_dir t' = content_dir t /\ id_to_filename t' = id_to_filename t /\
  ((C' = C /\ dget F C = Some h) \/ C' = dset F h C).
Proof.
  intros H He Hp.
  pose proof (push_one_calm sk F c h C D t) as [_ Cc]. rewrite H in Cc.
  pose proof (push_one_same_ids sk F c h C D t) as [Si _]. rewrite H in Si.
  split; [exact (Cc Hp)|]. split; [exact Si|].
  unfold push_one in H. destruct (opt_eqb (Some h) (dget F C)) eqn:Eh.
  - injection H as -> -> <-. left. split; [reflexivity | apply opt_eqb_some, Eh].
  - destruct (resolve_ok c F t) as [v Hv]. rewrite (bind_ok _ _ _ _ _ Hv) in H.
    destruct (catch_api (push_try sk c v D) (push_handler sk c v D) t)
      as [[[d|]|e] t1] eqn:Ec.
    + rewrite (bind_ok _ _ _ _ _ Ec) in H. injection H as -> -> <-. right. reflexivity.
    + rewrite (bind_ok _ _ _ _ _ Ec) in H. injection H as -> -> <-.
      apply push_catch_none_logs in Ec. lia.
    + rewrite (bind_err _ _ _ _ _ Ec) in H. discriminate.
Qed.

Lemma dset_keys {V} (k x : string) (v : V) (d : list (string * V)) :
  In x (map fst (dset k v d)) -> x = k \/ In x (map fst d).
Proof.
  induction d as [|[k' v'] d IH]; simpl.
  - intros [<-|[]]. left. reflexivity.
  - destruct (String.eqb k k'); simpl; intros [E|E]; auto.
    destruct (IH E); auto.
Qed.

Lemma push_records_grows sk L C D : Preserves grows (push_records sk L C D).
Proof.
  apply (push_records_pres grows http_grows sleep_grows log_error_grows create_and_resave_grows).
Qed.

Lemma push_one_grows sk F c h C D : Preserves grows (push_one sk F c h C D).
Proof.
  apply (push_one_pres grows http_grows sleep_grows log_error_grows create_and_resave_grows).
Qed.

(** The record loop of a push that logs nothing and posts nothing leaves the
    files alone and caches the fingerprint of every record. *)
Lemma push_records_quiet sk L : forall C D t C' D' t',
  push_records sk L C D t = (Ok (C', D'), t') ->
  length (errors t') = length (errors t) ->
  count_posts (sent t') = count_posts (sent t) ->
  NoDup (map fst L) ->
  content_dir t' = content_dir t /\ id_to_filename t' = id_to_filename t /\
  (forall k, In k (map fst C') -> In k (map fst C) \/ In k (map fst L)) /\
  (forall k, ~ In k (map fst L) -> dget k C' = dget k C) /\
  (forall F p h, In (F, (p, h)) L -> dget F C' = Some h).
Proof.
  induction L as [|[F [p h]] rest IH]; intros C D t C' D' t' H He Hp Hn.
  - cbn [push_records] in H. injection H as -> -> <-.
    repeat split; auto. intros F p h [].
  - cbn [push_records] in H.
    destruct (push_one sk F p h C D t) as [[[C1 D1]|e] t1] eqn:E1;
      [|rewrite (bind_err _ _ _ _ _ E1) in H; discriminate].
    rewrite (bind_ok _ _ _ _ _ E1) in H. cbn [fst snd] in H.
    pose proof (push_one_grows sk F p h C D t) as G1. rewrite E1 in G1.
    pose proof (push_records_grows sk rest C1 D1 t1) as G2. rewrite H in G2.
    destruct G1 as [Ge1 [Gp1 _]]. destruct G2 as [Ge2 [Gp2 _]]. simpl in *.
    inversion Hn as [|? ? Hnin Hnd]; subst.
    destruct (push_one_quiet _ _ _ _ _ _ _ _ _ _ E1 ltac:(lia) ltac:(lia))
      as [Hc1 [Hi1 Hcache]].
    destruct (IH C1 D1 t1 C' D' t' H ltac:(lia) ltac:(lia) Hnd)
      as [Hc2 [Hi2 [Hk2 [Hg2 Hr2]]]].
    split; [congruence|]. split; [congruence|]. split; [|split].
    + intros k Hk. destruct (Hk2 k Hk) as [Hk1|Hk1]; [|right; right; exact Hk1].
      destruct Hcache as [[-> _]| ->]; [left; exact Hk1|].
      destruct (dset_keys _ _ _ _ Hk1) as [->|Hk0]; [right; left; reflexivity | left; exact Hk0].
    + intros k Hk. simpl in Hk. rewrite Hg2 by tauto.
      destruct Hcache as [[-> _]| ->]; [reflexivity|].
      apply dget_dset_other. intros ->. apply Hk. left. reflexivity.
    + intros F0 p0 h0 [E|E].
      * injection E as -> -> ->. rewrite Hg2 by exact Hnin.
        destruct Hcache as [[-> Hd]| ->]; [exact Hd | apply dget_dset_same].
      * exact (Hr2 F0 p0 h0 E).
Qed.

(** *** The deletion loop *)

Lemma find_none_notin (v : string) (d : list (string * string)) :
  ~ In v (map snd d) -> find (fun kv => String.eqb (snd kv) v) d = None.
Proof.
  induction d as [|[k x] d IH]; simpl; [reflexivity|].
  intros Hn. destruct (String.eqb x v) eqn:E.
  - apply String.eqb_eq in E. subst. exfalso. apply Hn. left. reflexivity.
  - apply IH. tauto.
Qed.

Lemma map_snd_ddel_incl (k : string) (d : list (string * string)) :
  incl (map snd (ddel k d)) (map snd d).
Proof. intros x Hx. apply in_map_iff in Hx as [kv [<- Hkv]]. apply in_map, (ddel_incl k d), Hkv. Qed.

Lemma ddel_nodup (k : string) (d : list (string * string)) :
  NoDup (map snd d) -> NoDup (map snd (ddel k d)).
Proof.
  induction d as [|[k' x] d IH]; simpl; [auto|].
  intros Hn. inversion Hn as [|? ? Hnin Hnd]; subst.
  destruct (String.eqb k k'); [exact (IH Hnd)|].
  simpl. constructor; [|exact (IH Hnd)].
  intros Hx. apply Hnin, (map_snd_ddel_incl k d), Hx.
Qed.

(** With distinct file names, deleting an id either leaves a lookup alone or
    empties it. *)
Lemma find_ddel (v k : string) (d : list (string * string)) :
  NoDup (map snd d) ->
  find (fun kv => String.eqb (snd kv) v) (ddel k d) = find (fun kv => String.eqb (snd kv) v) d \/
  find (fun kv => String.eqb (snd kv) v) (ddel k d) = None.
Proof.
  induction d as [|[k' x] d IH]; simpl; [auto|].
  intros Hn. inversion Hn as [|? ? Hnin Hnd]; subst.
  destruct (String.eqb k k') eqn:Ek; simpl.
  - destruct (String.eqb x v) eqn:Ex; [|exact (IH Hnd)].
    apply String.eqb_eq in Ex. subst. right.
    apply find_none_notin. intros Hx. apply Hnin, (map_snd_ddel_incl k d), Hx.
  - destruct (String.eqb x v); [left; reflexivity | exact (IH Hnd)].
Qed.

Lemma find_ddel_found (v k x : string) (d : list (string * string)) :
  NoDup (map snd d) -> find (fun kv => String.eqb (snd kv) v) d = Some (k, x) ->
  find (fun kv => String.eqb (snd kv) v) (ddel k d) = None.
Proof.
  induction d as [|[k' x'] d IH]; simpl; [discriminate|].
  intros Hn Hf. inversion Hn as [|? ? Hnin Hnd]; subst.
  destruct (String.eqb x' v) eqn:Ex.
  - injection Hf as -> ->. rewrite String.eqb_refl.
    apply String.eqb_eq in Ex. subst. apply find_none_notin.
    intros Hx. apply Hnin, (map_snd_ddel_incl k d), Hx.
  - destruct (String.eqb k k'); simpl; [exact (IH Hnd Hf)|].
    rewrite Ex. exact (IH Hnd Hf).
Qed.

Lemma dmem_of_In (k x : string) (d : list (string * string)) :
  In (k, x) d -> dmem k d = true.
Proof.
  unfold dmem. induction d as [|[k' x'] d IH]; simpl; [intros []|].
  intros [E|E].
  - injection E as -> ->. rewrite String.eqb_refl. reflexivity.
  - destruct (String.eqb k k'); [reflexivity | exact (IH E)].
Qed.

Lemma dmem_In {V} (k : string) (d : list (string * V)) : dmem k d = true <-> In k (map fst d).
Proof.
  unfold dmem. induction d as [|[k' x'] d IH]; simpl; [split; [discriminate | intros []]|].
  destruct (String.eqb k k') eqn:E.
  - apply String.eqb_eq in E. subst. split; [left; reflexivity | reflexivity].
  - rewrite IH. apply String.eqb_neq in E. split; [right; assumption|].
    intros [H|H]; [congruence | exact H].
Qed.

Lemma get_page_id_from_filename_eq (f : string) (t : St) :
  get_page_id_from_filename f t = (Ok (option_map fst (lookup_id f (id_to_filename t))), t).
Proof. reflexivity. Qed.

Lemma delete_page_state (pid : string) (t : St) :
  snd (delete_page pid t) = after_request (ReqDeletePage pid) t.
Proof.
  unfold delete_page, bind. rewrite http_eq.
  destruct (next_resp t) as [b|code j|]; reflexivity.
Qed.

(** One deletion of a push that logs nothing. *)
Lemma push_delete_quiet ds f t ds' t' :
  push_delete ds f t = (Ok ds', t') ->
  length (errors t') = length (errors t) ->
  NoDup (map snd (id_to_filename t)) ->
  content_dir t' = content_dir t /\ NoDup (map snd (id_to_filename t')) /\
  live f (id_to_filename t') = false /\
  (forall g, live g (id_to_filename t) = false -> live g (id_to_filename t') = false).
Proof.
  intros H He Hn. unfold push_delete in H.
  rewrite (bind_ok _ _ _ _ _ (get_page_id_from_filename_eq f t)) in H.
  unfold live at 1. destruct (lookup_id f (id_to_filename t)) as [[pid x]|] eqn:El;
    cbn [option_map fst] in H.
  - destruct (truthy (Some pid)) eqn:Ht.
    + unfold catch_api in H. pose proof (delete_page_state pid t) as Ds.
      destruct (delete_page pid t) as [[u|e] t1] eqn:Ed; simpl in Ds; subst t1.
      * rewrite (bind_ok _ _ _ _ _ Ed) in H.
        assert (Hin : In (pid, x) (id_to_filename t)).
        { apply (find_some _ _ El). }
        unfold del_id_mapping, bind, get_state, set_id_to_filename, ret in H.
        simpl in H. rewrite (dmem_of_In _ _ _ Hin) in H. injection H as _ <-. simpl.
        split; [reflexivity|]. split; [apply ddel_nodup, Hn|]. split.
        -- unfold live, lookup_id. rewrite (find_ddel_found _ _ _ _ Hn El). reflexivity.
        -- intros g Hg. unfold live, lookup_id in *.
           destruct (find_ddel (remove_all ".json" g) pid _ Hn) as [E|E]; rewrite E;
             [exact Hg | reflexivity].
      * rewrite (bind_err _ _ _ _ _ Ed) in H. destruct e; try discriminate.
        unfold bind, log_error, ret in H. injection H as _ <-.
        simpl in He. rewrite length_app in He. simpl in He. lia.
    + unfold ret in H. injection H as _ <-. rewrite El. auto.
  - unfold ret in H. injection H as _ <-. rewrite El. auto.
Qed.

Lemma push_delete_grows ds f : Preserves grows (push_delete ds f).
Proof. apply (push_delete_pres grows http_grows log_error_grows del_id_mapping_grows). Qed.

Lemma push_deletes_grows fs ds : Preserves grows (push_deletes fs ds).
Proof. apply (push_deletes_pres grows http_grows log_error_grows del_id_mapping_grows). Qed.

(** The deletion loop of a push that logs nothing leaves no deleted file
    resolving to a live id. *)
Lemma push_deletes_quiet fs : forall ds t ds' t',
  push_deletes fs ds t = (Ok ds', t') ->
  length (errors t') = length (errors t) ->
  NoDup (map snd (id_to_filename t)) ->
  content_dir t' = content_dir t /\ NoDup (map snd (id_to_filename t')) /\
  (forall f, In f fs -> live f (id_to_filename t') = false) /\
  (forall g, live g (id_to_filename t) = false -> live g (id_to_filename t') = false).
Proof.
  induction fs as [|f fs IH]; intros ds t ds' t' H He Hn.
  - cbn [push_deletes] in H. injection H as _ <-. repeat split; auto. intros f [].
  - cbn [push_deletes] in H.
    destruct (push_delete ds f t) as [[d1|e] t1] eqn:E1;
      [|rewrite (bind_err _ _ _ _ _ E1) in H; discriminate].
    rewrite (bind_ok _ _ _ _ _ E1) in H.
    pose proof (push_delete_grows ds f t) as [G1 _]. rewrite E1 in G1.
    pose proof (push_deletes_grows fs d1 t1) as [G2 _]. rewrite H in G2. simpl in *.
    destruct (push_delete_quiet _ _ _ _ _ E1 ltac:(lia) Hn) as [Hc1 [Hn1 [Hl1 Hm1]]].
    destruct (IH _ _ _ _ H ltac:(lia) Hn1) as [Hc2 [Hn2 [Hl2 Hm2]]].
    split; [congruence|]. split; [exact Hn2|]. split.
    + intros g [<-|Hg]; [exact (Hm2 _ Hl1) | exact (Hl2 _ Hg)].
    + intros g Hg. exact (Hm2 _ (Hm1 _ Hg)).
Qed.

(** With no deleted file resolving to a live id the deletion loop does
    nothing. *)
Lemma push_deletes_idle fs ds t :
  (forall f, In f fs -> live f (id_to_filename t) = false) ->
  push_deletes fs ds t = (Ok ds, t).
Proof.
  induction fs as [|f fs IH]; intros Hl; cbn [push_deletes]; [reflexivity|].
  assert (E : push_delete ds f t = (Ok ds, t)).
  { unfold push_delete. rewrite (bind_ok _ _ _ _ _ (get_page_id_from_filename_eq f t)).
    pose proof (Hl f (or_introl eq_refl)) as Hf. unfold live in Hf.
    destruct (lookup_id f (id_to_filename t)) as [[pid x]|]; cbn [option_map fst];
      [rewrite Hf|]; reflexivity. }
  rewrite (bind_ok _ _ _ _ _ E). apply IH. intros g Hg. apply Hl. right. exact Hg.
Qed.

(** With every fingerprint cached the record loop does nothing. *)
Lemma push_records_idle sk L : forall C D t,
  (forall F p h, In (F, (p, h)) L -> dget F C = Some h) ->
  push_records sk L C D t = (Ok (C, D), t).
Proof.
  induction L as [|[F [p h]] rest IH]; intros C D t Hc; cbn [push_records]; [reflexivity|].
  assert (E : push_one sk F p h C D t = (Ok (C, D), t)).
  { unfold push_one. rewrite (Hc F p h (or_introl eq_refl)), opt_eqb_refl. reflexivity. }
  rewrite (bind_ok _ _ _ _ _ E). apply IH. intros F0 p0 h0 Hi. exact (Hc F0 p0 h0 (or_intror Hi)).
Qed.

Lemma get_local_content_eq (t : St) :
  get_local_content t = (Ok (map (fun kv => (fst kv, (snd kv, file_hash (snd kv)))) (content_dir t)), t).
Proof. reflexivity. Qed.

Lemma load_cache_state (t : St) : snd (load_cache t) = t.
Proof. unfold load_cache, bind, get_state. destruct (cache_file t); reflexivity. Qed.

Lemma load_deleted_pages_eq (t : St) :
  load_deleted_pages t = (Ok (match deleted_file t with PValid l => set_of l | _ => [] end), t).
Proof. unfold load_deleted_pages, bind, get_state. destruct (deleted_file t); reflexivity. Qed.

(** * Claims *)

(** ** Updates *)

(** C1 (code): the version number a space move submits.  [update_page]
    reads the current version (3 here) and builds [update_data] with
    version 4, but the draft step writes [draft_data['version']['number'] = 1]
    into the ['version'] dict that the shallow copy shares with
    [update_data]: the final PUT that carries the new space id submits
    version 1, not currentVersion + 1.  Within one space the same update
    submits version 4. *)
Theorem update_page_move_submits_version_one :
  update_page "DOCS" "R" runbook_edit (init_state [] move_script) =
    (Ok RNone,
     mkSt [] [] PMissing PMissing PMissing PMissing [] 1 []
          [ReqGetPage "R"; ReqGetSpaces None;
           ReqPutPage "R" (mkPutData "R" "draft" "Runbook" "edited" 1 None);
           ReqGetPage "R";
           ReqPutPage "R" (mkPutData "R" "current" "Runbook" "edited" 1 (Some "new-space"))]
          []) /\
  sent (snd (update_page "DOCS" "R" runbook_edit (init_state [] same_space_script))) =
    [ReqGetPage "R"; ReqGetSpaces None;
     ReqPutPage "R" (mkPutData "R" "current" "Runbook" "edited" 4 None)].
Proof. split; vm_compute; reflexivity. Qed.

(** C7: the request sequence of [update_page] once the current page and
    the configured space id are read.  Within one space it issues exactly
    one more request, the update, without waiting.  For a move of a page
    already in draft it issues only the update carrying the new space id.
    For a move of any other page it first re-submits the page as a draft;
    if that request fails it raises; otherwise it polls the page between
    one and three times, each poll one second after the previous step,
    and sends the update carrying the new space id only after a poll reads
    the page in draft status; a failed poll, or three polls without draft,
    end with an error and no further request. *)
Theorem update_page_space_move_protocol (sk pid : string) (content : Page)
  (s s1 s2 : St) (b : RBody) (nid : string) :
  get_page_by_id pid s = (Ok b, s1) ->
  get_space_id sk s1 = (Ok nid, s2) ->
  (opt_eqb (p_spaceId (as_page b)) (Some nid) = true ->
     exists d, sent (snd (update_page sk pid content s)) = sent s2 ++ [ReqPutPage pid d] /\
       pd_status d = "current" /\ pd_spaceId d = None /\
       clock (snd (update_page sk pid content s)) = clock s2) /\
  (opt_eqb (p_spaceId (as_page b)) (Some nid) = false ->
   opt_eqb (p_status (as_page b)) (Some draft) = true ->
     exists d, sent (snd (update_page sk pid content s)) = sent s2 ++ [ReqPutPage pid d] /\
       pd_status d = "current" /\ pd_spaceId d = Some nid /\
       clock (snd (update_page sk pid content s)) = clock s2) /\
  (opt_eqb (p_spaceId (as_page b)) (Some nid) = false ->
   opt_eqb (p_status (as_page b)) (Some draft) = false ->
     exists dd, pd_status dd = draft /\ pd_spaceId dd = None /\
     ((forall rb, next_resp s2 <> ROk rb) ->
        sent (snd (update_page sk pid content s)) = sent s2 ++ [ReqPutPage pid dd] /\
        exists msg, fst (update_page sk pid content s) = Err (ConfluenceAPIError msg None)) /\
     (forall rb, next_resp s2 = ROk rb ->
        exists k tail, (1 <= k <= 3)%nat /\
        sent (snd (update_page sk pid content s)) =
          sent s2 ++ [ReqPutPage pid dd] ++ repeat (ReqGetPage pid) k ++ tail /\
        clock (snd (update_page sk pid content s)) = (clock s2 + Z.of_nat k)%Z /\
        (forall i, (i < k - 1)%nat ->
           poll_reads_draft (nth i (tl (script s2)) RNet) = Some false) /\
        ((poll_reads_draft (nth (k - 1) (tl (script s2)) RNet) = Some true /\
          exists d, tail = [ReqPutPage pid d] /\ pd_status d = "current" /\
                    pd_spaceId d = Some nid) \/
         (poll_reads_draft (nth (k - 1) (tl (script s2)) RNet) = None /\ tail = [] /\
          exists msg, fst (update_page sk pid content s) = Err (ConfluenceAPIError msg None)) \/
         (k = 3%nat /\ poll_reads_draft (nth 2 (tl (script s2)) RNet) = Some false /\
          tail = [] /\
          exists msg, fst (update_page sk pid content s) =
                        Err (ConfluenceAPIError msg (Some 400%Z)))))).
Proof.
  intros H1 H2. rewrite (update_page_after_reads sk pid content s s1 s2 b nid H1 H2).
  cbv zeta. cbn [ud_title ud_value].
  destruct (opt_eqb (p_spaceId (as_page b)) (Some nid)) eqn:Esp; cbn [negb].
  - split; [| split; intros; discriminate].
    intros _. eexists. destruct (final_put_trace pid
      [(0%nat, ((match p_version (as_page b) with Some n => n | None => 1%Z end) + 1)%Z)]
      (mkUpdateData pid "current" (match p_title content with Some t => t | None => EmptyString end)
                    (storage_value (p_body content)) 0 None) s2) as [Hs Hc].
    split; [exact Hs | split; [reflexivity | split; [reflexivity | exact Hc]]].
  - split; [intros; discriminate |].
    destruct (opt_eqb (p_status (as_page b)) (Some draft)) eqn:Est; cbn [negb].
    + split; [| intros; discriminate]. intros _ _.
      rewrite (bind_ok _ _ _ _ _ (eq_refl : ret _ s2 = (Ok _, s2))).
      eexists. destruct (final_put_trace pid
        [(0%nat, ((match p_version (as_page b) with Some n => n | None => 1%Z end) + 1)%Z)]
        (mkUpdateData pid "current"
        (match p_title content with Some t => t | None => EmptyString end)
        (storage_value (p_body content)) 0 (Some nid)) s2) as [Hs Hc].
      split; [exact Hs | split; [reflexivity | split; [reflexivity | exact Hc]]].
    + split; [intros; discriminate |]. intros _ _.
      exists (put_data (hwrite
        [(0%nat, ((match p_version (as_page b) with Some n => n | None => 1%Z end) + 1)%Z)] 0 1)
        (mkUpdateData pid draft (match p_title content with Some t => t | None => EmptyString end)
                      (storage_value (p_body content)) 0 None)).
      split; [reflexivity | split; [reflexivity |]]. split.
      * intros Hf. rewrite bind_assoc_app.
        rewrite (bind_err _ _ _ _ _ (draft_convert_put_fails _ _ _ _ Hf)).
        split; [reflexivity | eexists; reflexivity].
      * intros rb Hok.
        rewrite bind_assoc_app, (bind_draft_convert_ok _ _ _ _ _ _ Hok).
        set (sp := after_request _ s2).
        destruct (draft_wait_trace pid 3 ltac:(lia) sp) as [k [Hk [Hs [Hc [Hpre Hend]]]]].
        assert (Sp : script sp = tl (script s2)) by reflexivity.
        rewrite Sp in Hpre, Hend.
        exists k.
        destruct Hend as [[Hd Hr] | [[Hd [msg Hr]] | [Hk3 [Hd [msg Hr]]]]].
        -- destruct (draft_wait pid 3 (3 - Z.of_nat 3) sp) as [r sw] eqn:Ew.
           simpl in Hr, Hs, Hc. subst r.
           rewrite (bind_ok _ _ _ _ _ Ew), bind_ret.
           destruct (final_put_trace pid (hwrite
             [(0%nat, ((match p_version (as_page b) with Some n => n | None => 1%Z end) + 1)%Z)] 0 1)
             (mkUpdateData pid "current" (match p_title content with Some t => t | None => EmptyString end)
                           (storage_value (p_body content)) 0 (Some nid)) sw) as [Fs Fc].
           eexists. split; [exact Hk |]. split.
           { rewrite Fs, Hs. unfold sp, after_request. simpl.
             rewrite <- !app_assoc. reflexivity. }
           split; [rewrite Fc, Hc; reflexivity |].
           split; [exact Hpre |]. left. split; [exact Hd |].
           eexists; split; [reflexivity | split; reflexivity].
        -- destruct (draft_wait pid 3 (3 - Z.of_nat 3) sp) as [r sw] eqn:Ew.
           simpl in Hr, Hs, Hc. subst r.
           rewrite (bind_err _ _ _ _ _ Ew).
           exists []. split; [exact Hk |]. split.
           { simpl. rewrite Hs. unfold sp, after_request. simpl.
             rewrite <- !app_assoc, app_nil_r. reflexivity. }
           split; [exact Hc |]. split; [exact Hpre |].
           right; left. split; [exact Hd | split; [reflexivity | eexists; reflexivity]].
        -- destruct (draft_wait pid 3 (3 - Z.of_nat 3) sp) as [r sw] eqn:Ew.
           simpl in Hr, Hs, Hc. subst r. subst k.
           rewrite (bind_err _ _ _ _ _ Ew).
           exists []. split; [exact Hk |]. split.
           { simpl. rewrite Hs. unfold sp, after_request. simpl.
             rewrite <- !app_assoc. reflexivity. }
           split; [exact Hc |]. split; [exact Hpre |].
           right; right. split; [reflexivity | split; [exact Hd | split; [reflexivity | eexists; reflexivity]]].
Qed.

Lemma update_page_space_move_protocol_witness :
  let s0 := init_state [] move_script in
  let s1 := after_request (ReqGetPage "R") s0 in
  let s2 := after_request (ReqGetSpaces None) s1 in
  get_page_by_id "R" s0 = (Ok (RPage runbook_v3), s1) /\
  get_space_id "DOCS" s1 = (Ok "new-space", s2) /\
  (opt_eqb (p_spaceId runbook_v3) (Some "new-space") = false ->
   opt_eqb (p_status runbook_v3) (Some draft) = false ->
   exists dd, pd_status dd = draft /\ pd_spaceId dd = None /\
   ((forall rb, next_resp s2 <> ROk rb) ->
      sent (snd (update_page "DOCS" "R" runbook_edit s0)) = sent s2 ++ [ReqPutPage "R" dd] /\
      exists msg, fst (update_page "DOCS" "R" runbook_edit s0) = Err (ConfluenceAPIError msg None)) /\
   (forall rb, next_resp s2 = ROk rb ->
      exists k tail, (1 <= k <= 3)%nat /\
      sent (snd (update_page "DOCS" "R" runbook_edit s0)) =
        sent s2 ++ [ReqPutPage "R" dd] ++ repeat (ReqGetPage "R") k ++ tail /\
      clock (snd (update_page "DOCS" "R" runbook_edit s0)) = (clock s2 + Z.of_nat k)%Z /\
      (forall i, (i < k - 1)%nat ->
         poll_reads_draft (nth i (tl (script s2)) RNet) = Some false) /\
      ((poll_reads_draft (nth (k - 1) (tl (script s2)) RNet) = Some true /\
        exists d, tail = [ReqPutPage "R" d] /\ pd_status d = "current" /\
                  pd_spaceId d = Some "new-space") \/
       (poll_reads_draft (nth (k - 1) (tl (script s2)) RNet) = None /\ tail = [] /\
        exists msg, fst (update_page "DOCS" "R" runbook_edit s0) = Err (ConfluenceAPIError msg None)) \/
       (k = 3%nat /\ poll_reads_draft (nth 2 (tl (script s2)) RNet) = Some false /\
        tail = [] /\
        exists msg, fst (update_page "DOCS" "R" runbook_edit s0) =
                      Err (ConfluenceAPIError msg (Some 400%Z)))))).
Proof.
  intros s0 s1 s2.
  assert (H1 : get_page_by_id "R" s0 = (Ok (RPage runbook_v3), s1)) by (vm_compute; reflexivity).
  assert (H2 : get_space_id "DOCS" s1 = (Ok "new-space", s2)) by (vm_compute; reflexivity).
  split; [exact H1 | split; [exact H2 |]].
  exact (proj2 (proj2 (update_page_space_move_protocol "DOCS" "R" runbook_edit s0 s1 s2
                         (RPage runbook_v3) "new-space" H1 H2))).
Defined.

(** ** Persisted state *)

(** C4 (code): a corrupt sync cache is fatal to [push].  [_load_cache]
    has no [try], so [push_to_confluence] stops with the
    [JSONDecodeError] before any request, while the sibling loaders of the
    tombstone set, the ID mapping and the failure memory fall back to the
    empty structure. *)
Theorem push_corrupt_cache_raises (s : St) :
  cache_file s = PCorrupt ->
  push_to_confluence "DOCS" s = (Err (JSONDecodeError "sync_cache.json"), s) /\
  (deleted_file s = PCorrupt -> load_deleted_pages s = (Ok [], s)) /\
  load_id_mapping (idmap_file s) = match idmap_file s with PValid m => m | _ => [] end /\
  (failed_file s = PCorrupt -> forall f, should_skip_attachment f s = (Ok false, s)).
Proof.
  intros H. split; [| split; [| split]].
  - unfold push_to_confluence, get_local_content, load_cache, bind, get_state, ret.
    rewrite H. reflexivity.
  - intros Hd. unfold load_deleted_pages, bind, get_state. now rewrite Hd.
  - reflexivity.
  - intros Hf f. unfold should_skip_attachment, bind, get_state. now rewrite Hf.
Qed.

Lemma push_corrupt_cache_raises_witness :
  cache_file corrupt_cache_state = PCorrupt /\
  push_to_confluence "DOCS" corrupt_cache_state =
    (Err (JSONDecodeError "sync_cache.json"), corrupt_cache_state).
Proof.
  split; [reflexivity |].
  apply (push_corrupt_cache_raises corrupt_cache_state). reflexivity.
Defined.

(** ** Failure memory *)






(** ** Pull *)

(** C8 (code): a local write error aborts the whole pull.  [save_content]
    derives the file name [q1/q2_plan_mapping.json] from the title
    [Q1/Q2 Plan]; [open] fails with an [OSError], which the page loop does
    not catch (it catches [ConfluenceAPIError] only), so [pull] raises and
    the second page is never fetched. *)
Theorem pull_aborts_on_write_error :
  fst (pull_from_confluence "DOCS" "https://wiki.example" (init_state [] slash_pull_script)) =
    Err (OSError "q1/q2_plan_mapping.json") /\
  sent (snd (pull_from_confluence "DOCS" "https://wiki.example" (init_state [] slash_pull_script))) =
    [ReqGetSpaces (Some "DOCS"); ReqListPages (Some "sp"); ReqGetPage "1"] /\
  errors (snd (pull_from_confluence "DOCS" "https://wiki.example" (init_state [] slash_pull_script))) = [].
Proof. vm_compute. repeat split. Qed.

(** ** File names *)

(** C9 (code): the name [save_content] writes is
    [title.lower().replace(' ', '_')]: runs of non-alphanumeric characters
    are neither collapsed nor replaced, and the name is not truncated.  The
    unused [_sanitize_filename] would give [q1-plan]. *)
Theorem save_stem_not_sanitized :
  save_stem (titled "Q1  Plan") = "q1__plan" /\
  sanitize_filename "Q1  Plan" = "q1-plan" /\
  save_stem (titled "Q1/Q2 Plan") = "q1/q2_plan" /\
  String.length (save_stem (titled long_title)) = String.length long_title /\
  (100 < String.length long_title)%nat.
Proof. repeat split; vm_compute; try reflexivity. lia. Qed.

(** ** The ID mapping *)

(** C5 (code): the ID mapping is not kept in sync with the local documents.
    [pull] leaves the mapping unchanged in memory and on disk, and [push]
    leaves the mapping file unchanged and only removes entries from the
    in-memory mapping.  So a pulled page and a page created by [push] get
    no entry.  After [push] deletes page [R] it drops [R] from memory but
    does not call [_save_id_mapping] (as [delete_local_content] does), so a
    new process reads [R] back from the file and deletes it again. *)
Theorem id_mapping_not_kept_in_sync :
  (forall sk s, idmap_shrinks s (snd (push_to_confluence sk s))) /\
  (forall sk bu s, same_ids s (snd (pull_from_confluence sk bu s))) /\
  (let r := pull_from_confluence "DOCS" "https://wiki.example" (init_state [] pull_notes_script) in
   fst r = Ok tt /\ dmem "notes" (content_dir (snd r)) = true /\
   id_to_filename (snd r) = [] /\ idmap_file (snd r) = PMissing) /\
  (let r := push_to_confluence "DOCS" new_file_state in
   fst r = Ok tt /\
   option_map p_id (dget "draft_notes" (content_dir (snd r))) = Some (Some "77") /\
   id_to_filename (snd r) = [] /\ idmap_file (snd r) = PMissing) /\
  (let t1 := snd (push_to_confluence "DOCS" tombstone_state) in
   let t2 := snd (push_to_confluence "DOCS" (start_syncer t1)) in
   sent t1 = [ReqDeletePage "R"] /\ id_to_filename t1 = [] /\
   idmap_file t1 = PValid [("R", "notes")] /\
   id_to_filename (start_syncer t1) = [("R", "notes")] /\
   sent t2 = [ReqDeletePage "R"; ReqDeletePage "R"]).
Proof.
  split; [intros sk s; apply push_idmap |].
  split; [intros sk bu s; apply pull_same_ids |].
  vm_compute. repeat split.
Qed.

(** ** Tombstones *)

(** C3 (amended).  (a) When [push] deletes the page [R] resolved for a
    deleted file, [R] joins the tombstones and leaves the in-memory ID
    mapping.  (b) A pull whose tombstone file lists [R] sends no request
    about [R]: it neither fetches [R] nor its attachments, so no local file
    is written from [R].  (c) A record whose fingerprint differs from its
    cache entry and whose resolved id is the tombstoned [R] only makes
    create requests (the space lookup and the POST), never an update of
    [R]; (d) when the create returns an id, the record's fingerprint is
    cached and [R] leaves the tombstones. *)
Theorem tombstone_protocol :
  (forall (ds : list string) (F R : string) (s s1 : St),
     get_page_id_from_filename F s = (Ok (Some R), s) -> truthy (Some R) = true ->
     delete_page R s = (Ok tt, s1) ->
     push_delete ds F s = (Ok (sadd R ds), snd (del_id_mapping R s1)) /\
     smem R (sadd R ds) = true /\
     dmem R (id_to_filename (snd (del_id_mapping R s1))) = false) /\
  (forall (sk bu R : string) (s : St) (l : list string),
     deleted_file s = PValid l -> In R l ->
     exists l', sent (snd (pull_from_confluence sk bu s)) = app (sent s) l' /\
                forall r, In r l' -> about_page R r = false) /\
  (forall (sk F R h : string) (c : Page) (cache : list (string * string))
          (ds : list string) (s : St),
     opt_eqb (Some h) (dget F cache) = false ->
     (if truthy (p_id c) then ret (p_id c) else get_page_id_from_filename F) s
       = (Ok (Some R), s) ->
     truthy (Some R) = true -> smem R ds = true ->
     (exists l', sent (snd (push_one sk F c h cache ds s)) = app (sent s) l' /\
                 forall r, In r l' -> is_create_req r = true) /\
     (forall rid s1, create_and_resave sk c s = (Ok rid, s1) -> truthy rid = true ->
        push_one sk F c h cache ds s = (Ok (dset F h cache, sremove R ds), s1))).
Proof.
  split; [|split].
  - intros ds F R s s1 Hg Ht Hd.
    destruct (del_id_mapping_ok R s1) as [Hm Hgone].
    split; [|split; [apply smem_sadd | exact Hgone]].
    unfold push_delete. rewrite (bind_ok _ _ _ _ _ Hg). cbv beta iota. rewrite Ht.
    apply catch_api_ok. rewrite (bind_ok _ _ _ _ _ Hd).
    rewrite (bind_ok _ _ _ _ _ Hm). reflexivity.
  - intros sk bu R s l Hd Hin.
    destruct (pull_avoids R sk bu s l Hd Hin) as [l' [E F]].
    exists l'. split; [exact E|].
    intros r Hr. rewrite forallb_forall in F. specialize (F r Hr).
    destruct (about_page R r); [discriminate | reflexivity].
  - intros sk F R h c cache ds s Hh Hres Ht Hm.
    assert (Hone : push_one sk F c h cache ds s =
      (r <- catch_api (rid <- create_and_resave sk c ;;
                       ret (Some (if truthy rid then sremove R ds else ds)))
                      (push_handler sk c (Some R) ds) ;;
       match r with
       | None => ret (cache, ds)
       | Some d => ret (dset F h cache, d)
       end) s).
    { unfold push_one. rewrite Hh. rewrite (bind_ok _ _ _ _ _ Hres).
      rewrite (push_try_tombstoned sk R c ds Ht Hm). reflexivity. }
    split.
    + rewrite Hone.
      match goal with |- context [snd (?m s)] =>
        assert (Hp : Preserves (only_reqs is_create_req) m) end.
      { pres_split; auto using create_and_resave_creates, push_handler_creates. }
      destruct (Hp s) as [l' [E F']]. exists l'. split; [exact E|].
      apply forallb_forall. exact F'.
    + intros rid s1 Hc Hr. rewrite Hone.
      rewrite (bind_ok _ _ _ _ _ (catch_api_ok _ _ _ _ _ (bind_ok _ _ _ _ _ Hc))).
      unfold ret. rewrite Hr. reflexivity.
Qed.

(** C3 (the restored file).  Run 1 deletes page [R] for the removed file
    [notes] and tombstones it; the cache keeps the fingerprint [notes] had.
    When the same record, id [R] included, is written back under [notes],
    run 2 finds the fingerprint equal to the cache entry and skips it: no
    request is sent, nothing is created and [R] stays tombstoned. *)
Lemma tombstone_restored_file_skipped :
  let s1 := snd (push_to_confluence "DOCS" tombstone_state) in
  let r2 := push_to_confluence "DOCS" (restore_notes s1) in
  sent s1 = [ReqDeletePage "R"] /\ deleted_file s1 = PValid ["R"] /\
  p_id notes_local = Some "R" /\
  fst r2 = Ok tt /\ sent (snd r2) = [ReqDeletePage "R"] /\
  deleted_file (snd r2) = PValid ["R"].
Proof. vm_compute. repeat split. Qed.

(** ** Idempotence *)

(** C2 (amended).  Suppose a push from [s] returns normally, logs no error
    and sends no POST, where no two local records share a file name and no
    two ID mapping entries share a file name.  Then a second push in the
    same process with no local change in between returns normally, sends
    no request and logs nothing.  Every record's fingerprint is in the
    cache by then, and no deleted file still resolves to a page id. *)
Theorem push_idempotent_without_creates (sk : string) (s s1 : St) :
  push_to_confluence sk s = (Ok tt, s1) ->
  length (errors s1) = length (errors s) ->
  count_posts (sent s1) = count_posts (sent s) ->
  NoDup (map fst (content_dir s)) ->
  NoDup (map snd (id_to_filename s)) ->
  fst (push_to_confluence sk s1) = Ok tt /\
  sent (snd (push_to_confluence sk s1)) = sent s1 /\
  errors (snd (push_to_confluence sk s1)) = errors s1.
Proof.
  intros H He Hp Hnc Hni.
  (* the first run, stage by stage *)
  unfold push_to_confluence in H.
  rewrite (bind_ok _ _ _ _ _ (get_local_content_eq s)) in H. cbv beta in H.
  destruct (load_cache s) as [[C|e] s0] eqn:Elc;
    [|rewrite (bind_err _ _ _ _ _ Elc) in H; discriminate].
  assert (s0 = s) by (pose proof (load_cache_state s) as X; rewrite Elc in X; exact X).
  subst s0.
  rewrite (bind_ok _ _ _ _ _ Elc) in H. cbv beta in H.
  rewrite (bind_ok _ _ _ _ _ (load_deleted_pages_eq s)) in H. cbv beta zeta in H.
  match type of H with context [bind (push_deletes ?fs ?ds) _ s] =>
    pose proof (push_deletes_grows fs ds s) as G1;
    destruct (push_deletes fs ds s) as [[D1|e] sA] eqn:E1;
    [rewrite (bind_ok _ _ _ _ _ E1) in H | rewrite (bind_err _ _ _ _ _ E1) in H; discriminate]
  end.
  cbv beta in H.
  match type of H with context [bind (push_records ?k ?l ?c ?d) _ sA] =>
    pose proof (push_records_grows k l c d sA) as G2;
    destruct (push_records k l c d sA) as [[[C2 D2]|e] sB] eqn:E2;
    [rewrite (bind_ok _ _ _ _ _ E2) in H | rewrite (bind_err _ _ _ _ _ E2) in H; discriminate]
  end.
  unfold bind, set_cache_file, set_deleted_file in H. simpl in H. injection H as Hs1.
  assert (Ec1 : content_dir s1 = content_dir sB) by (rewrite <- Hs1; reflexivity).
  assert (Ek1 : cache_file s1 = PValid C2) by (rewrite <- Hs1; reflexivity).
  assert (Ei1 : id_to_filename s1 = id_to_filename sB) by (rewrite <- Hs1; reflexivity).
  assert (Ee1 : errors s1 = errors sB) by (rewrite <- Hs1; reflexivity).
  assert (Es1 : sent s1 = sent sB) by (rewrite <- Hs1; reflexivity).
  clear Hs1. simpl in G1, G2.
  destruct G1 as [Ge1 [Gp1 _]]. destruct G2 as [Ge2 [Gp2 _]].
  rewrite Ee1 in He. rewrite Es1 in Hp.
  destruct (push_deletes_quiet _ _ _ _ _ E1 ltac:(lia) Hni) as [Hc1 [_ [Hl1 _]]].
  assert (HmL : NoDup (map fst (map (fun kv => (fst kv, (snd kv, file_hash (snd kv))))
                                     (content_dir s)))).
  { rewrite map_map. exact Hnc. }
  destruct (push_records_quiet _ _ _ _ _ _ _ _ E2 ltac:(lia) ltac:(lia) HmL)
    as [Hc2 [Hi2 [Hk2 [_ Hr2]]]].
  (* the second run *)
  unfold push_to_confluence.
  rewrite (bind_ok _ _ _ _ _ (get_local_content_eq s1)). cbv beta.
  rewrite Ec1, Hc2, Hc1.
  assert (Elc1 : load_cache s1 = (Ok C2, s1)).
  { unfold load_cache, bind, get_state. rewrite Ek1. reflexivity. }
  rewrite (bind_ok _ _ _ _ _ Elc1). cbv beta.
  rewrite (bind_ok _ _ _ _ _ (load_deleted_pages_eq s1)). cbv beta zeta.
  match goal with |- context [bind (push_deletes ?fs ?ds) _ s1] =>
    assert (Hd2 : push_deletes fs ds s1 = (Ok ds, s1));
    [apply push_deletes_idle | rewrite (bind_ok _ _ _ _ _ Hd2)]
  end.
  { intros f Hf. apply filter_In in Hf as [Hf Hnl].
    destruct (Hk2 f Hf) as [HC|HL].
    - rewrite Ei1, Hi2. apply Hl1. apply filter_In. split; assumption.
    - exfalso. apply dmem_In in HL. rewrite HL in Hnl. discriminate. }
  cbv beta.
  rewrite (bind_ok _ _ _ _ _ (push_records_idle _ _ _ _ s1 Hr2)).
  unfold bind, set_cache_file, set_deleted_file. simpl.
  split; [reflexivity | split; reflexivity].
Qed.

(** C2 (the claim as stated).  Run 1 creates [draft_notes] as page 77 and
    re-saves it with the id, next to a new [draft_notes_mapping] file; the
    cache keeps the fingerprint from before the re-save.  Run 2, in the same
    process and with no local change, sends two requests for page 77.  In a
    new process after a run that deleted page [R], the mapping file still
    holds [R], and run 2 sends the DELETE again. *)
Lemma push_twice_not_idle :
  let s1 := snd (push_to_confluence "DOCS" new_file_state) in
  let s2 := snd (push_to_confluence "DOCS" s1) in
  let t1 := snd (push_to_confluence "DOCS" tombstone_state) in
  let t2 := snd (push_to_confluence "DOCS" (start_syncer t1)) in
  fst (push_to_confluence "DOCS" new_file_state) = Ok tt /\ errors s1 = [] /\
  map fst (content_dir s1) = ["draft_notes"; "draft_notes_mapping"] /\
  sent s2 = sent s1 ++ [ReqGetPage "77"; ReqGetPage "77"] /\
  sent t1 = [ReqDeletePage "R"] /\ errors t1 = [] /\
  sent t2 = [ReqDeletePage "R"; ReqDeletePage "R"].
Proof. vm_compute. repeat split. Qed.

(** The first run deletes page [R]; the second sends nothing. *)
Lemma push_idempotent_without_creates_witness :
  sent (snd (push_to_confluence "DOCS" tombstone_state)) = [ReqDeletePage "R"] /\
  fst (push_to_confluence "DOCS" (snd (push_to_confluence "DOCS" tombstone_state))) = Ok tt /\
  sent (snd (push_to_confluence "DOCS" (snd (push_to_confluence "DOCS" tombstone_state))))
    = sent (snd (push_to_confluence "DOCS" tombstone_state)) /\
  errors (snd (push_to_confluence "DOCS" (snd (push_to_confluence "DOCS" tombstone_state))))
    = errors (snd (push_to_confluence "DOCS" tombstone_state)).
Proof.
  split; [vm_compute; reflexivity|].
  apply (push_idempotent_without_creates "DOCS" tombstone_state
           (snd (push_to_confluence "DOCS" tombstone_state))).
  - vm_compute. reflexivity.
  - vm_compute. reflexivity.
  - vm_compute. reflexivity.
  - vm_compute. constructor.
  - vm_compute. constructor; [intros [] | constructor].
Defined.


(** * Further properties *)

(** ** What pull and push leave alone *)

Ltac prim_rel R :=
  repeat intro; unfold R;
  repeat match goal with
  | |- context [http _ _] => rewrite http_eq; unfold after_request
  | |- context [if ?b then _ else _] => destruct b
  | |- context [match open_error ?a ?b with _ => _ end] => destruct (open_error a b)
  end; cbn; auto.

#[export] Instance keeps_sync_state_preorder : PreOrder keeps_sync_state.
Proof.
  split; [intros s; repeat split|].
  intros s1 s2 s3 (A1&B1&C1&D1) (A2&B2&C2&D2); repeat split; congruence.
Qed.

#[export] Instance keeps_attachments_preorder : PreOrder keeps_attachments.
Proof.
  split; [intros s; split; reflexivity|].
  intros s1 s2 s3 (A1&B1) (A2&B2); split; congruence.
Qed.

#[export] Instance keeps_files_preorder : PreOrder keeps_files.
Proof.
  split; [intros s; apply incl_refl|].
  intros s1 s2 s3 H1 H2. unfold keeps_files in *. eapply incl_tran; eauto.
Qed.

Lemma save_content_sync pid p : Preserves keeps_sync_state (save_content pid p).
Proof. unfold save_content, bind, write_content_file. prim_rel keeps_sync_state. Qed.

Lemma in_keys_dset {V} (k x : string) (v : V) (d : list (string * V)) :
  In x (map fst d) -> In x (map fst (dset k v d)).
Proof.
  induction d as [|[k' v'] d IH]; simpl; [tauto|].
  destruct (String.eqb k k'); simpl; tauto.
Qed.

Lemma save_content_files pid p : Preserves keeps_files (save_content pid p).
Proof.
  unfold save_content, bind, write_content_file. intros s. unfold keeps_files.
  destr_open; [apply incl_refl|].
  destr_open; simpl; intros x Hx;
    repeat apply in_keys_dset; auto.
Qed.

Lemma create_and_resave_attachments sk p : Preserves keeps_attachments (create_and_resave sk p).
Proof.
  unfold create_and_resave. pres_split.
  - apply (create_page_pres keeps_attachments). prim_rel keeps_attachments.
  - unfold save_content, bind, write_content_file. prim_rel keeps_attachments.
Qed.

Lemma create_and_resave_files sk p : Preserves keeps_files (create_and_resave sk p).
Proof.
  unfold create_and_resave. pres_split.
  - apply (create_page_pres keeps_files). prim_rel keeps_files; apply incl_refl.
  - apply save_content_files.
Qed.

(** X1.  A pull never changes the sync cache, the tombstone file or the ID
    mapping (on disk or in memory): it writes only page files, attachment
    files and the failure memory. *)
Theorem pull_keeps_sync_state (sk bu : string) :
  Preserves keeps_sync_state (pull_from_confluence sk bu).
Proof.
  apply (pull_from_confluence_pres keeps_sync_state);
    try (unfold write_attach_file; prim_rel keeps_sync_state).
  apply save_content_sync.
Qed.

(** X2.  A push never changes the attachment directory or the failure
    memory of attachment downloads. *)
Theorem push_keeps_attachments (sk : string) :
  Preserves keeps_attachments (push_to_confluence sk).
Proof.
  apply (push_to_confluence_pres keeps_attachments);
    try (unfold del_id_mapping, bind, get_state, set_id_to_filename, ret;
         prim_rel keeps_attachments).
  apply create_and_resave_attachments.
Qed.

(** X3.  Neither pull nor push ever removes a local file: every file of the
    content directory before the run is still there after it, whatever the
    server answers. *)
Theorem sync_never_removes_files (sk bu : string) :
  Preserves keeps_files (pull_from_confluence sk bu) /\
  Preserves keeps_files (push_to_confluence sk).
Proof.
  split.
  - apply (pull_from_confluence_pres keeps_files); [..| apply save_content_files];
      unfold write_attach_file; prim_rel keeps_files; apply incl_refl.
  - apply (push_to_confluence_pres keeps_files); [..| apply create_and_resave_files];
      unfold del_id_mapping, bind, get_state, set_id_to_filename, ret;
      prim_rel keeps_files; apply incl_refl.
Qed.


(** ** A corrupt failure memory *)

#[export] Instance stays_corrupt_preorder : PreOrder stays_corrupt.
Proof. split; [intros s H; exact H | intros s1 s2 s3 H1 H2 H; auto]. Qed.

Lemma mark_failed_attachment_corrupt f : Preserves stays_corrupt (mark_failed_attachment f).
Proof. intros s Hc. unfold mark_failed_attachment, bind, get_state. rewrite Hc. exact Hc. Qed.

Lemma clear_failed_attachment_corrupt f : Preserves stays_corrupt (clear_failed_attachment f).
Proof. intros s Hc. unfold clear_failed_attachment, bind, get_state. rewrite Hc. exact Hc. Qed.

Lemma download_attachment_to_disk_corrupt bu pid a :
  Preserves stays_corrupt (download_attachment_to_disk bu pid a).
Proof.
  unfold download_attachment_to_disk, download_attachment. pres_split;
    first [ apply mark_failed_attachment_corrupt | apply clear_failed_attachment_corrupt
          | apply (should_skip_attachment_pres stays_corrupt)
          | apply (download_urls_pres stays_corrupt); prim_rel stays_corrupt
          | apply (save_attachment_metadata_pres stays_corrupt);
            unfold write_attach_file; prim_rel stays_corrupt
          | unfold write_attach_file; prim_rel stays_corrupt ].
Qed.

Lemma pull_corrupt sk bu : Preserves stays_corrupt (pull_from_confluence sk bu).
Proof.
  assert (Hatt : forall pid atts, Preserves stays_corrupt (pull_attachments bu pid atts)).
  { intros pid atts. induction atts as [|a atts IH]; cbn [pull_attachments]; pres_split;
      auto using download_attachment_to_disk_corrupt. }
  unfold pull_from_confluence, load_deleted_pages.
  assert (Hpages : forall ds pages, Preserves stays_corrupt (pull_pages bu ds pages)).
  { intros ds pages. induction pages as [|pg pages IH]; cbn [pull_pages]; pres_split; auto.
    unfold pull_page. pres_split; auto;
      first [ apply (get_page_by_id_pres stays_corrupt); prim_rel stays_corrupt
            | apply (get_attachments_pres stays_corrupt); prim_rel stays_corrupt
            | unfold save_content, bind, write_content_file; prim_rel stays_corrupt
            | prim_rel stays_corrupt ]. }
  pres_split; auto;
    first [ apply (get_space_content_pres stays_corrupt); prim_rel stays_corrupt
          | prim_rel stays_corrupt ].
Qed.




(** ** Skipping and clearing attachments *)

Lemma should_skip_attachment_state f s : snd (should_skip_attachment f s) = s.
Proof.
  assert (Hpre : PreOrder (fun a b : St => b = a)) by (split; repeat intro; congruence).
  assert (H : Preserves (fun a b : St => b = a) (should_skip_attachment f))
    by (unfold should_skip_attachment; pres_split).
  exact (H s).
Qed.

(** X7.  An attachment without a title, or with an empty one, or whose
    failure memory says to skip it, is not downloaded: the download step
    sends no request, records no error line and changes no file (it only
    writes a warning or info line to the logger). *)
Theorem download_attachment_to_disk_skips (bu pid : string) (a : Attachment) (s : St) :
  (a_title a = None \/ a_title a = Some EmptyString \/
   exists t, a_title a = Some t /\ fst (should_skip_attachment t s) = Ok true) ->
  download_attachment_to_disk bu pid a s = (Ok tt, s).
Proof.
  intros H. unfold download_attachment_to_disk.
  destruct H as [H | [H | (t & H & Hs)]]; rewrite H; [reflexivity | reflexivity |].
  destruct (String.eqb t EmptyString); [reflexivity|].
  unfold bind at 1. pose proof (should_skip_attachment_state t s) as E.
  destruct (should_skip_attachment t s) as [r s1]. simpl in Hs, E. subst. reflexivity.
Qed.

Lemma download_attachment_to_disk_skips_witness :
  (a_title (mkAttachment (Some "9") (Some "a.pdf") (Some "/download/a.pdf")) = None \/
   a_title (mkAttachment (Some "9") (Some "a.pdf") (Some "/download/a.pdf")) = Some EmptyString \/
   exists t, a_title (mkAttachment (Some "9") (Some "a.pdf") (Some "/download/a.pdf")) = Some t /\
     fst (should_skip_attachment t (mkSt [] [] PMissing PMissing PMissing
                                     (PValid (failure_map [("a.pdf", [10%Z; 20%Z; 30%Z])])) [] 100 [] [] [])) = Ok true) /\
  download_attachment_to_disk "https://wiki.example" "5"
    (mkAttachment (Some "9") (Some "a.pdf") (Some "/download/a.pdf"))
    (mkSt [] [] PMissing PMissing PMissing (PValid (failure_map [("a.pdf", [10%Z; 20%Z; 30%Z])])) [] 100 [] [] [])
  = (Ok tt, mkSt [] [] PMissing PMissing PMissing (PValid (failure_map [("a.pdf", [10%Z; 20%Z; 30%Z])])) [] 100 [] [] []).
Proof.
  assert (H : a_title (mkAttachment (Some "9") (Some "a.pdf") (Some "/download/a.pdf")) = None \/
   a_title (mkAttachment (Some "9") (Some "a.pdf") (Some "/download/a.pdf")) = Some EmptyString \/
   exists t, a_title (mkAttachment (Some "9") (Some "a.pdf") (Some "/download/a.pdf")) = Some t /\
     fst (should_skip_attachment t (mkSt [] [] PMissing PMissing PMissing
                                     (PValid (failure_map [("a.pdf", [10%Z; 20%Z; 30%Z])])) [] 100 [] [] [])) = Ok true)
    by (right; right; exists "a.pdf"; split; vm_compute; reflexivity).
  split; [exact H|].
  apply (download_attachment_to_disk_skips "https://wiki.example" "5"
           (mkAttachment (Some "9") (Some "a.pdf") (Some "/download/a.pdf"))
           (mkSt [] [] PMissing PMissing PMissing (PValid (failure_map [("a.pdf", [10%Z; 20%Z; 30%Z])])) [] 100 [] [] [])).
  exact H.
Defined.

Lemma dget_ddel_other {V} (k g : string) (d : list (string * V)) :
  g <> k -> dget g (ddel k d) = dget g d.
Proof.
  intros Hne. induction d as [|[k' v'] d IH]; simpl; auto.
  destruct (String.eqb k k') eqn:E; simpl.
  - apply String.eqb_eq in E. subst k'. rewrite IH.
    destruct (String.eqb g k) eqn:E2; auto. apply String.eqb_eq in E2. congruence.
  - rewrite IH. reflexivity.
Qed.




(** ** Page bodies sent by push *)

Lemma no_storage_value (p : Page) : no_storage p = true -> storage_value (p_body p) = EmptyString.
Proof. unfold no_storage. destruct (p_body p); simpl; congruence. Qed.

Lemma no_storage_saved (p : Page) : no_storage (saved_page p) = true.
Proof. unfold no_storage, saved_page. simpl. destruct (p_body p); reflexivity. Qed.

Ltac empty_go :=
  pres_split;
  first [ apply http_only; reflexivity
        | apply http_only; simpl; rewrite ?no_storage_value by assumption; reflexivity
        | apply sleep_only | apply log_error_only
        | apply get_page_by_id_only; reflexivity
        | apply save_content_only; reflexivity
        | apply (pres_ret (only_reqs empty_body_req))
        | apply (pres_raise (only_reqs empty_body_req))
        | idtac ].

Lemma draft_wait_empty pid n k : Preserves (only_reqs empty_body_req) (draft_wait pid n k).
Proof. revert k. induction n as [|n IH]; intros k; simpl; empty_go; auto. Qed.

Lemma del_id_mapping_empty pid : Preserves (only_reqs empty_body_req) (del_id_mapping pid).
Proof.
  apply keeps_sent_only. intros s. unfold del_id_mapping, bind, get_state.
  destruct (dmem pid (id_to_filename s)); reflexivity.
Qed.

Lemma push_deletes_empty fs : forall ds, Preserves (only_reqs empty_body_req) (push_deletes fs ds).
Proof.
  induction fs as [|f fs IH]; intros ds; cbn [push_deletes]; empty_go; auto.
  unfold push_delete, delete_page, get_page_id_from_filename. empty_go.
  apply del_id_mapping_empty.
Qed.

Section EmptyBodies.

Variable c : Page.
Hypothesis Hc : no_storage c = true.

Lemma update_page_empty sk pid : Preserves (only_reqs empty_body_req) (update_page sk pid c).
Proof.
  unfold update_page, draft_convert, final_put, get_space_id. empty_go; auto using draft_wait_empty.
Qed.

Lemma create_and_resave_empty sk : Preserves (only_reqs empty_body_req) (create_and_resave sk c).
Proof. unfold create_and_resave, create_page, get_space_id. empty_go. Qed.

Lemma push_one_empty sk F h C D : Preserves (only_reqs empty_body_req) (push_one sk F c h C D).
Proof.
  unfold push_one, push_try, push_handler, get_page_id_from_filename.
  empty_go; auto using update_page_empty, create_and_resave_empty.
Qed.

End EmptyBodies.

Lemma push_records_empty sk L : forall C D,
  forallb (fun kv => no_storage (fst (snd kv))) L = true ->
  Preserves (only_reqs empty_body_req) (push_records sk L C D).
Proof.
  induction L as [|[F [p h]] L IH]; intros C D HL; cbn [push_records].
  - apply (pres_ret (only_reqs empty_body_req)).
  - simpl in HL. apply andb_true_iff in HL as [Hp HL].
    apply (pres_bind (only_reqs empty_body_req)); [apply push_one_empty; exact Hp|].
    intros cd. apply IH. exact HL.
Qed.

Lemma push_only_empty sk s :
  flat_files s -> only_reqs empty_body_req s (snd (push_to_confluence sk s)).
Proof.
  intros Hf. unfold push_to_confluence. unfold bind at 1. rewrite get_local_content_eq.
  cbv beta.
  assert (HL : forallb (fun kv => no_storage (fst (snd kv)))
                 (map (fun kv => (fst kv, (snd kv, file_hash (snd kv)))) (content_dir s)) = true).
  { unfold flat_files in Hf. induction (content_dir s) as [|kv cd IH]; [reflexivity|].
    simpl in Hf |- *. apply andb_true_iff in Hf as [H1 H2]. rewrite H1. simpl. auto. }
  match goal with |- only_reqs _ s (snd (?m s)) =>
    assert (Hm : Preserves (only_reqs empty_body_req) m); [| apply Hm] end.
  unfold load_cache, load_deleted_pages. empty_go;
    auto using push_deletes_empty, push_records_empty;
    apply keeps_sent_only; reflexivity.
Qed.


#[export] Instance keeps_flat_preorder : PreOrder keeps_flat.
Proof. split; [intros s H; exact H | intros s1 s2 s3 H1 H2 H; auto]. Qed.

Lemma forallb_dset {V} (q : V -> bool) (k : string) (v : V) (d : list (string * V)) :
  forallb (fun kv => q (snd kv)) d = true -> q v = true ->
  forallb (fun kv => q (snd kv)) (dset k v d) = true.
Proof.
  intros Hd Hv. induction d as [|[k' v'] d IH]; simpl in *; [rewrite Hv; reflexivity|].
  apply andb_true_iff in Hd as [H1 H2].
  destruct (String.eqb k k'); simpl; rewrite ?Hv, ?H1, ?IH; auto.
Qed.

Lemma save_content_flat pid p : Preserves keeps_flat (save_content pid p).
Proof.
  unfold save_content, bind, write_content_file. intros s Hs.
  destr_open; [exact Hs|].
  destr_open; unfold flat_files; simpl;
    repeat apply forallb_dset; auto using no_storage_saved.
Qed.

Lemma create_and_resave_flat sk p : Preserves keeps_flat (create_and_resave sk p).
Proof.
  unfold create_and_resave. pres_split; [|apply save_content_flat].
  apply (create_page_pres keeps_flat). prim_rel keeps_flat.
Qed.

(** X9.  Every local file that pull or push writes has a body without the
    ['storage'] key ([save_content] writes [{'representation', 'value'}]
    or [{}]): a content directory in that shape stays in that shape. *)
Theorem sync_keeps_flat_files (sk bu : string) :
  Preserves keeps_flat (pull_from_confluence sk bu) /\
  Preserves keeps_flat (push_to_confluence sk).
Proof.
  split.
  - apply (pull_from_confluence_pres keeps_flat); [..| apply save_content_flat];
      unfold write_attach_file; prim_rel keeps_flat.
  - apply (push_to_confluence_pres keeps_flat); [..| apply create_and_resave_flat];
      unfold del_id_mapping, bind, get_state, set_id_to_filename, ret; prim_rel keeps_flat.
Qed.

(** X10.  When no local file has a ['storage'] key in its body, as is the
    case for every file pull and push write, every page a push creates or
    updates is sent with an empty body value: [create_page] and
    [update_page] read [body.storage.value] and default to [''].  *)
Theorem push_sends_empty_bodies (sk : string) (s : St) :
  flat_files s -> only_reqs empty_body_req s (snd (push_to_confluence sk s)).
Proof. apply push_only_empty. Qed.

Lemma push_sends_empty_bodies_witness :
  flat_files (init_state [("notes", notes_local)]
                [ROk (RPage (mkPage (Some "R") (Some "Notes") (Some "current") (BStorage "n")
                                    (Some 2%Z) (Some "sp")));
                 ROk (RSpaces [(Some "DOCS", Some "sp")]); ROk RNone]) /\
  sent (snd (push_to_confluence "DOCS"
               (init_state [("notes", notes_local)]
                  [ROk (RPage (mkPage (Some "R") (Some "Notes") (Some "current") (BStorage "n")
                                      (Some 2%Z) (Some "sp")));
                   ROk (RSpaces [(Some "DOCS", Some "sp")]); ROk RNone]))) =
    [ReqGetPage "R"; ReqGetSpaces None;
     ReqPutPage "R" (mkPutData "R" "current" "Notes" EmptyString 3 None)] /\
  only_reqs empty_body_req
    (init_state [("notes", notes_local)]
       [ROk (RPage (mkPage (Some "R") (Some "Notes") (Some "current") (BStorage "n")
                           (Some 2%Z) (Some "sp")));
        ROk (RSpaces [(Some "DOCS", Some "sp")]); ROk RNone])
    (snd (push_to_confluence "DOCS"
            (init_state [("notes", notes_local)]
               [ROk (RPage (mkPage (Some "R") (Some "Notes") (Some "current") (BStorage "n")
                                   (Some 2%Z) (Some "sp")));
                ROk (RSpaces [(Some "DOCS", Some "sp")]); ROk RNone]))).
Proof.
  split; [vm_compute; reflexivity|]. split; [vm_compute; reflexivity|].
  apply push_sends_empty_bodies. vm_compute. reflexivity.
Defined.


(** ** The sync cache after a push *)

Lemma bind_inv_ok {A B} (m : M A) (f : A -> M B) s b t :
  bind m f s = (Ok b, t) -> exists a s1, m s = (Ok a, s1) /\ f a s1 = (Ok b, t).
Proof.
  unfold bind. destruct (m s) as [[a|e] s1]; intros H; [eauto | discriminate].
Qed.

Lemma push_one_cache sk F c h C D t C' D' t' :
  push_one sk F c h C D t = (Ok (C', D'), t') -> incl (map fst C) (map fst C').
Proof.
  unfold push_one. destruct (opt_eqb (Some h) (dget F C)).
  - unfold ret. intros H. inversion H. apply incl_refl.
  - intros H. apply bind_inv_ok in H as (pid & t1 & _ & H).
    apply bind_inv_ok in H as (r & t2 & _ & H).
    destruct r as [d|]; unfold ret in H; inversion H; subst.
    + intros x Hx. apply in_keys_dset. exact Hx.
    + apply incl_refl.
Qed.

Lemma push_records_cache sk L : forall C D t C' D' t',
  push_records sk L C D t = (Ok (C', D'), t') -> incl (map fst C) (map fst C').
Proof.
  induction L as [|[F [c h]] L IH]; intros C D t C' D' t' H; cbn [push_records] in H.
  - unfold ret in H. inversion H. apply incl_refl.
  - apply bind_inv_ok in H as ([C1 D1] & t1 & H1 & H2).
    eapply incl_tran; [eapply push_one_cache; exact H1 | eapply IH; exact H2].
Qed.

(** X11.  A push that completes writes back a sync cache holding every file
    name the cache held before: the entry of a file deleted locally is kept
    after its remote page is deleted, so it is never dropped from the
    cache. *)
Theorem push_keeps_cache_entries (sk : string) (s s' : St) (c : list (string * string)) :
  push_to_confluence sk s = (Ok tt, s') -> cache_file s = PValid c ->
  exists c', cache_file s' = PValid c' /\ incl (map fst c) (map fst c').
Proof.
  intros H Hc. unfold push_to_confluence in H.
  apply bind_inv_ok in H as (L & t1 & H1 & H).
  apply bind_inv_ok in H as (C & t2 & H2 & H).
  unfold load_cache, bind, get_state in H1, H2. simpl in H1. inversion H1; subst.
  rewrite Hc in H2. unfold ret in H2. inversion H2; subst.
  apply bind_inv_ok in H as (D & t3 & _ & H).
  apply bind_inv_ok in H as (D' & t4 & _ & H).
  apply bind_inv_ok in H as ([C' D''] & t5 & H5 & H).
  unfold bind, set_cache_file, set_deleted_file in H. simpl in H. inversion H; subst.
  exists C'. split; [reflexivity|]. eapply push_records_cache. exact H5.
Qed.

Lemma push_keeps_cache_entries_witness :
  fst (push_to_confluence "DOCS" tombstone_state) = Ok tt /\
  cache_file tombstone_state = PValid [("notes", file_hash notes_local)] /\
  cache_file (snd (push_to_confluence "DOCS" tombstone_state)) =
    PValid [("notes", file_hash notes_local)] /\
  exists c', cache_file (snd (push_to_confluence "DOCS" tombstone_state)) = PValid c' /\
             incl (map fst [("notes", file_hash notes_local)]) (map fst c').
Proof.
  split; [vm_compute; reflexivity|]. split; [reflexivity|]. split; [vm_compute; reflexivity|].
  apply (push_keeps_cache_entries "DOCS" tombstone_state
           (snd (push_to_confluence "DOCS" tombstone_state))).
  - vm_compute. reflexivity.
  - reflexivity.
Defined.

(** ** Deleting a page that is already gone *)

(** X12.  When the page of a locally deleted file is already gone on the
    server (the DELETE answers 404), push does not treat it as deleted:
    [delete_page] raises, the error is logged, the page is not added to the
    tombstones and its ID mapping entry is kept. *)
Theorem push_delete_already_gone (ds : list string) (f pid x : string) (j : bool) (s : St) :
  lookup_id f (id_to_filename s) = Some (pid, x) -> truthy (Some pid) = true ->
  next_resp s = RErr 404 j ->
  fst (push_delete ds f s) = Ok ds /\
  sent (snd (push_delete ds f s)) = sent s ++ [ReqDeletePage pid] /\
  errors (snd (push_delete ds f s)) =
    errors s ++ [("Failed to delete page: Failed to delete page " ++ pid)%string] /\
  id_to_filename (snd (push_delete ds f s)) = id_to_filename s.
Proof.
  intros Hl Ht Hr.
  assert (E : push_delete ds f s =
              (Ok ds, snd (log_error ("Failed to delete page: Failed to delete page " ++ pid)
                             (after_request (ReqDeletePage pid) s)))).
  { unfold push_delete. unfold bind at 1.
    rewrite get_page_id_from_filename_eq, Hl. cbn [option_map fst].
    rewrite Ht. unfold catch_api, delete_page, bind. rewrite http_eq, Hr. reflexivity. }
  rewrite E. simpl. repeat split.
Qed.

Lemma push_delete_already_gone_witness :
  lookup_id "notes" [("R", "notes")] = Some ("R", "notes") /\ truthy (Some "R") = true /\
  next_resp (mkSt [] [] (PValid [("R", "notes")]) PMissing PMissing PMissing [("R", "notes")]
               0 [RErr 404 true] [] []) = RErr 404 true /\
  fst (push_delete [] "notes" (mkSt [] [] (PValid [("R", "notes")]) PMissing PMissing PMissing
                                 [("R", "notes")] 0 [RErr 404 true] [] [])) = Ok [] /\
  sent (snd (push_delete [] "notes" (mkSt [] [] (PValid [("R", "notes")]) PMissing PMissing
                                       PMissing [("R", "notes")] 0 [RErr 404 true] [] []))) =
    [] ++ [ReqDeletePage "R"] /\
  errors (snd (push_delete [] "notes" (mkSt [] [] (PValid [("R", "notes")]) PMissing PMissing
                                         PMissing [("R", "notes")] 0 [RErr 404 true] [] []))) =
    [] ++ [("Failed to delete page: Failed to delete page " ++ "R")%string] /\
  id_to_filename (snd (push_delete [] "notes" (mkSt [] [] (PValid [("R", "notes")]) PMissing
                                                 PMissing PMissing [("R", "notes")] 0
                                                 [RErr 404 true] [] []))) = [("R", "notes")].
Proof.
  split; [vm_compute; reflexivity|]. split; [reflexivity|]. split; [reflexivity|].
  apply (push_delete_already_gone [] "notes" "R" "notes" true
           (mkSt [] [] (PValid [("R", "notes")]) PMissing PMissing PMissing [("R", "notes")]
                 0 [RErr 404 true] [] [])); vm_compute; reflexivity.
Defined.

(** ** A listed page without an id *)

(** X13.  In the page loop of pull, a listed page without an ['id'] raises
    [KeyError('id')] as soon as the pages before it are processed: the
    pages after it are never processed, and the error is not caught by the
    loop. *)
Theorem pull_pages_missing_id (bu : string) (ds : list string) (pre post : list Page) (p : Page)
  (s : St) :
  p_id p = None ->
  pull_pages bu ds (pre ++ p :: post) s =
    match pull_pages bu ds pre s with
    | (Ok _, s1) => (Err (KeyError "id"), s1)
    | r => r
    end.
Proof.
  intros Hp. revert s. induction pre as [|q pre IH]; intros s; simpl.
  - unfold bind, pull_page. rewrite Hp. reflexivity.
  - unfold bind. destruct (pull_page bu ds q s) as [[u|e] s1]; [apply IH | reflexivity].
Qed.

Lemma pull_pages_missing_id_witness :
  p_id (mkPage None (Some "Draft") None BEmpty None None) = None /\
  pull_pages "https://wiki.example" [] ([] ++ mkPage None (Some "Draft") None BEmpty None None
                                          :: [notes_page]) (init_state [] [])
  = (Err (KeyError "id"), init_state [] []).
Proof.
  split; [reflexivity|].
  rewrite (pull_pages_missing_id "https://wiki.example" [] [] [notes_page]
             (mkPage None (Some "Draft") None BEmpty None None) (init_state [] [])).
  - reflexivity.
  - reflexivity.
Defined.

(** ** The attachment loop *)

#[export] Instance keeps_failures_ok_preorder : PreOrder keeps_failures_ok.
Proof. split; [intros s H; exact H | intros s1 s2 s3 H1 H2 H; auto]. Qed.

Lemma forallb_ddel {V} (q : string * V -> bool) (k : string) (d : list (string * V)) :
  forallb q d = true -> forallb q (ddel k d) = true.
Proof.
  induction d as [|[k' v] d IH]; simpl; auto.
  intros H. apply andb_true_iff in H as [H1 H2].
  destruct (String.eqb k k'); simpl; rewrite ?H1; auto.
Qed.

Lemma forallb_dget {V} (q : V -> bool) (k : string) (v : V) (d : list (string * V)) :
  forallb (fun kv => q (snd kv)) d = true -> dget k d = Some v -> q v = true.
Proof.
  induction d as [|[k' v'] d IH]; simpl; [discriminate|].
  intros H. apply andb_true_iff in H as [H1 H2].
  destruct (String.eqb k k'); [intros E; injection E as <-; exact H1 | auto].
Qed.

Lemma failures_ok_obj (m : list (string * Json)) :
  failures_ok (PValid (JObj m)) = forallb (fun kv => stamp_list (snd kv)) m.
Proof. reflexivity. Qed.

Lemma keep_recent_stamps_ok (l : list Json) (s : St) :
  forallb is_stamp l = true ->
  exists r, keep_recent l s = (Ok r, s) /\ forallb is_stamp r = true.
Proof.
  induction l as [|j l IH]; intros H; [exists []; split; reflexivity|].
  simpl in H. apply andb_true_iff in H as [Hj Hl].
  destruct j as [| | |str [t|]| |]; try discriminate.
  destruct (IH Hl) as [r [E Hr]].
  simpl. rewrite (bind_ok _ _ _ _ _ (eq_refl : now s = (Ok (clock s), s))).
  rewrite (bind_ok _ _ _ _ _ (eq_refl : fromisoformat (JStr str (Some t)) s = (Ok t, s))).
  rewrite (bind_ok _ _ _ _ _ E). unfold ret.
  destruct (clock s - t <? day)%Z; eexists; split; try reflexivity; simpl; auto.
Qed.

Lemma last_forallb {A} (p : A -> bool) (l : list A) (x : A) :
  forallb p (x :: l) = true -> p (last l x) = true.
Proof.
  revert x. induction l as [|y l IH]; intros x H; simpl in H |- *.
  - rewrite andb_true_r in H. exact H.
  - apply andb_true_iff in H as [Hx H]. apply andb_true_iff in H as [Hy Hl].
    destruct l as [|z l]; [exact Hy|].
    apply IH. simpl. rewrite Hx. exact Hl.
Qed.

Lemma should_skip_attachment_fok f s :
  failures_ok (failed_file s) = true -> exists b, should_skip_attachment f s = (Ok b, s).
Proof.
  intros Hok. unfold should_skip_attachment.
  rewrite (bind_ok _ _ _ _ _ (eq_refl : get_state s = (Ok s, s))).
  destruct (failed_file s) as [| | |j]; try discriminate; try (eexists; reflexivity).
  destruct j as [| | | | |m]; try discriminate. rewrite failures_ok_obj in Hok.
  unfold py_in, dmem. rewrite (bind_ok _ _ _ _ _ (eq_refl : ret _ s = (Ok _, s))).
  destruct (dget f m) as [v|] eqn:E; [|eexists; reflexivity].
  pose proof (forallb_dget stamp_list f v m Hok E) as Hv.
  unfold py_getitem. rewrite E. rewrite (bind_ok _ _ _ _ _ (eq_refl : ret _ s = (Ok _, s))).
  destruct v as [| | | |l|]; try discriminate. simpl in Hv.
  unfold py_len. rewrite (bind_ok _ _ _ _ _ (eq_refl : ret _ s = (Ok _, s))).
  destruct (3 <=? length l)%nat eqn:L; [|eexists; reflexivity].
  destruct l as [|x l]; [discriminate|].
  unfold py_last. rewrite (bind_ok _ _ _ _ _ (eq_refl : ret _ s = (Ok _, s))).
  pose proof (last_forallb is_stamp l x Hv) as Hx.
  destruct (last l x) as [| | |str [t|]| |]; try discriminate.
  rewrite (bind_ok _ _ _ _ _ (eq_refl : fromisoformat (JStr str (Some t)) s = (Ok t, s))).
  rewrite (bind_ok _ _ _ _ _ (eq_refl : now s = (Ok (clock s), s))).
  eexists. reflexivity.
Qed.

Lemma mark_failed_attachment_fok f s :
  failures_ok (failed_file s) = true ->
  exists s', mark_failed_attachment f s = (Ok tt, s') /\ failures_ok (failed_file s') = true.
Proof.
  intros Hok. unfold mark_failed_attachment.
  rewrite (bind_ok _ _ _ _ _ (eq_refl : get_state s = (Ok s, s))).
  assert (Hm : exists m, match failed_file s with PValid j => j | _ => JObj [] end = JObj m /\
                 forallb (fun kv => stamp_list (snd kv)) m = true /\
                 failed_file s <> PBadText /\ failed_file s <> PCorrupt \/
               failed_file s = PCorrupt).
  { destruct (failed_file s) as [| | |j]; try discriminate.
    - exists []. left. repeat split; discriminate.
    - exists []. right. reflexivity.
    - destruct j as [| | | | |m]; try discriminate. exists m. left.
      repeat split; [exact Hok | discriminate | discriminate]. }
  destruct Hm as [m [[Hj [Hq [Hb Hc]]] | Hc]].
  2: { rewrite Hc. eexists. split; [reflexivity|]. simpl. rewrite Hc. reflexivity. }
  assert (Hbody : forall k : Json -> M unit,
    match failed_file s with
    | PBadText => raise (UnicodeDecodeError ".failed_attachments")
    | PCorrupt => log_error "Failed to update failed attachments list"
    | f0 => k (match f0 with PValid j => j | _ => JObj [] end)
    end = k (JObj m)).
  { intros k. destruct (failed_file s); try congruence; simpl in Hj |- *; congruence. }
  rewrite (Hbody (fun fa => found <- py_in f fa ;;
      failed_attachments <- (if found then ret fa
                             else py_setitem fa f (JArr [])) ;;
      entry <- py_getitem failed_attachments f ;;
      t <- now ;;
      failures <- py_append entry (stamp t) ;;
      recent <- keep_recent failures ;;
      failed_attachments <- py_setitem failed_attachments f (JArr recent) ;;
      set_failed_file (PValid failed_attachments))).
  unfold py_in, dmem. rewrite (bind_ok _ _ _ _ _ (eq_refl : ret _ s = (Ok _, s))).
  destruct (dget f m) as [v|] eqn:E.
  - pose proof (forallb_dget stamp_list f v m Hq E) as Hv.
    rewrite (bind_ok _ _ _ _ _ (eq_refl : ret _ s = (Ok _, s))).
    unfold py_getitem. rewrite E. rewrite (bind_ok _ _ _ _ _ (eq_refl : ret _ s = (Ok _, s))).
    rewrite (bind_ok _ _ _ _ _ (eq_refl : now s = (Ok (clock s), s))).
    destruct v as [| | | |l|]; try discriminate. simpl in Hv.
    unfold py_append. rewrite (bind_ok _ _ _ _ _ (eq_refl : ret _ s = (Ok _, s))).
    destruct (keep_recent_stamps_ok (l ++ [stamp (clock s)]) s) as [r [Er Hr]].
    { rewrite forallb_app, Hv. reflexivity. }
    rewrite (bind_ok _ _ _ _ _ Er).
    unfold py_setitem. rewrite (bind_ok _ _ _ _ _ (eq_refl : ret _ s = (Ok _, s))).
    eexists. split; [reflexivity|]. simpl.
    apply (forallb_dset stamp_list); [exact Hq | exact Hr].
  - rewrite (bind_ok _ _ _ _ _ (eq_refl : py_setitem (JObj m) f (JArr []) s = (Ok _, s))).
    unfold py_getitem. rewrite dget_dset_same.
    rewrite (bind_ok _ _ _ _ _ (eq_refl : ret _ s = (Ok _, s))).
    rewrite (bind_ok _ _ _ _ _ (eq_refl : now s = (Ok (clock s), s))).
    unfold py_append. rewrite (bind_ok _ _ _ _ _ (eq_refl : ret _ s = (Ok _, s))).
    destruct (keep_recent_stamps_ok ([] ++ [stamp (clock s)]) s) as [r [Er Hr]];
      [reflexivity|].
    rewrite (bind_ok _ _ _ _ _ Er).
    unfold py_setitem. rewrite (bind_ok _ _ _ _ _ (eq_refl : ret _ s = (Ok _, s))).
    eexists. split; [reflexivity|]. simpl. rewrite dset_dset.
    apply (forallb_dset stamp_list); [exact Hq | exact Hr].
Qed.

Lemma clear_failed_attachment_fok f : Preserves keeps_failures_ok (clear_failed_attachment f).
Proof.
  intros s Hok. unfold clear_failed_attachment.
  rewrite (bind_ok _ _ _ _ _ (eq_refl : get_state s = (Ok s, s))).
  destruct (failed_file s) as [| | |j] eqn:Ef; try discriminate.
  - simpl. rewrite Ef. reflexivity.
  - simpl. rewrite Ef. reflexivity.
  - destruct j as [| | | | |m]; try discriminate. rewrite failures_ok_obj in Hok.
    unfold py_in. rewrite (bind_ok _ _ _ _ _ (eq_refl : ret _ s = (Ok _, s))).
    destruct (dmem f m) eqn:D; cbn [py_delitem]; rewrite ?D;
      rewrite (bind_ok _ _ _ _ _ (eq_refl : ret _ s = (Ok _, s))); simpl;
      [apply forallb_ddel|]; exact Hok.
Qed.

Lemma failed_file_same_fok {A} (m : M A) :
  (forall s, failed_file (snd (m s)) = failed_file s) -> Preserves keeps_failures_ok m.
Proof. intros H s Hok. rewrite H. exact Hok. Qed.

Lemma download_attachment_to_disk_fok bu pid a s :
  failures_ok (failed_file s) = true ->
  exists s', download_attachment_to_disk bu pid a s = (Ok tt, s') /\
    failures_ok (failed_file s') = true.
Proof.
  intros Hok. unfold download_attachment_to_disk.
  destruct (String.eqb _ EmptyString); [eexists; split; [reflexivity | exact Hok]|].
  destruct (should_skip_attachment_fok
    (match a_title a with Some t => t | None => EmptyString end) s Hok) as [b Hb].
  rewrite (bind_ok _ _ _ _ _ Hb).
  destruct b; [eexists; split; [reflexivity | exact Hok]|].
  assert (Hhttp : forall r, Preserves keeps_failures_ok (http r))
    by (intros r; apply failed_file_same_fok; intros s0; rewrite http_eq; reflexivity).
  assert (Hsleep : forall n, Preserves keeps_failures_ok (sleep n))
    by (intros n; apply failed_file_same_fok; intros s0; reflexivity).
  assert (Hlog : forall msg, Preserves keeps_failures_ok (log_error msg))
    by (intros msg; apply failed_file_same_fok; intros s0; reflexivity).
  assert (Hwrite : forall p n b, Preserves keeps_failures_ok (write_attach_file p n b))
    by (intros p n b0; apply failed_file_same_fok; intros s0; unfold write_attach_file;
        destr_open; reflexivity).
  unfold catch_all.
  match goal with |- exists _, match ?m s with _ => _ end = _ /\ _ =>
    assert (Hm : Preserves keeps_failures_ok m) end.
  { unfold download_attachment. pres_split; auto using clear_failed_attachment_fok;
      first [apply (download_urls_pres keeps_failures_ok Hhttp Hsleep)
            | apply (save_attachment_metadata_pres keeps_failures_ok Hhttp Hlog Hwrite)
            | idtac]. }
  specialize (Hm s Hok).
  match goal with |- exists _, match ?m s with _ => _ end = _ /\ _ =>
    destruct (m s) as [[u|e] s1] eqn:E end.
  - destruct u. eexists. split; [reflexivity | exact Hm].
  - destruct e; unfold log_error, bind; cbn [snd];
      apply mark_failed_attachment_fok; exact Hm.
Qed.




(** ** [_sanitize_filename] *)

Lemma chars_app (x y : string) :
  list_ascii_of_string (x ++ y) = list_ascii_of_string x ++ list_ascii_of_string y.
Proof. induction x as [|c x IH]; simpl; [reflexivity | rewrite IH; reflexivity]. Qed.

Lemma dash_walk_app (b : bool) (x y : string) :
  dash_walk b (x ++ y) = match dash_walk b x with Some b' => dash_walk b' y | None => None end.
Proof.
  revert b. induction x as [|c x IH]; intros b; simpl; [reflexivity|].
  destruct (Ascii.eqb c "-"%char); [destruct b; [reflexivity | apply IH]|].
  destruct (word_char c); [apply IH | reflexivity].
Qed.

Lemma word_char_dash : word_char "-"%char = false.
Proof. reflexivity. Qed.

(** Every character [_sanitize_filename] maps a title character to is a
    dash or a lower-case letter or digit. *)
Lemma sanitize_char_ok (c : ascii) :
  let d := if ascii_isalnum c then ascii_lower c else "-"%char in
  Ascii.eqb d "-"%char || word_char d = true.
Proof.
  destruct c as [[] [] [] [] [] [] [] []]; vm_compute; reflexivity.
Qed.

Lemma str_map_chars (f : ascii -> ascii) (s : string) :
  list_ascii_of_string (str_map f s) = map f (list_ascii_of_string s).
Proof. induction s as [|c s IH]; simpl; [reflexivity | rewrite IH; reflexivity]. Qed.

Lemma split_dash_words (s cur : string) :
  forallb word_char (list_ascii_of_string cur) = true ->
  forallb (fun c => Ascii.eqb c "-"%char || word_char c) (list_ascii_of_string s) = true ->
  Forall (fun p => forallb word_char (list_ascii_of_string p) = true) (split_dash s cur).
Proof.
  revert cur. induction s as [|c s IH]; intros cur Hcur Hs; simpl in *.
  - constructor; [exact Hcur | constructor].
  - apply andb_true_iff in Hs as [Hc Hs].
    destruct (Ascii.eqb c "-"%char) eqn:E.
    + constructor; [exact Hcur|]. apply IH; [reflexivity | exact Hs].
    + simpl in Hc. apply IH; [|exact Hs].
      rewrite chars_app, forallb_app, Hcur. simpl. rewrite Hc. reflexivity.
Qed.

Lemma word_walk (w : string) (b : bool) :
  forallb word_char (list_ascii_of_string w) = true -> w <> EmptyString ->
  dash_walk b w = Some false.
Proof.
  revert b. induction w as [|c w IH]; intros b Hw Hne; [congruence|].
  simpl in Hw. apply andb_true_iff in Hw as [Hc Hw]. simpl.
  destruct (Ascii.eqb c "-"%char) eqn:E.
  - apply Ascii.eqb_eq in E. subst c. discriminate.
  - rewrite Hc. destruct w as [|c' w']; [reflexivity|]. apply IH; [exact Hw | discriminate].
Qed.

Lemma join_dash_walk (ws : list string) (b : bool) :
  Forall (fun w => w <> EmptyString /\ forallb word_char (list_ascii_of_string w) = true) ws ->
  ws <> [] -> dash_walk b (join_dash ws) = Some false.
Proof.
  revert b. induction ws as [|w ws IH]; intros b Hws Hne; [congruence|].
  inversion Hws as [|? ? [Hw1 Hw2] Hrest]; subst.
  destruct ws as [|w2 ws'].
  - simpl. apply word_walk; assumption.
  - change (join_dash (w :: w2 :: ws')) with (w ++ "-" ++ join_dash (w2 :: ws'))%string.
    rewrite dash_walk_app, word_walk by assumption. simpl. apply IH; [exact Hrest | discriminate].
Qed.

Lemma filter_nonempty_words (l : list string) :
  Forall (fun p => forallb word_char (list_ascii_of_string p) = true) l ->
  Forall (fun w => w <> EmptyString /\ forallb word_char (list_ascii_of_string w) = true)
    (filter (fun p => negb (String.eqb p EmptyString)) l).
Proof.
  induction l as [|p l IH]; intros H; simpl; [constructor|].
  inversion H; subst. destruct (String.eqb p EmptyString) eqn:E; simpl; auto.
  constructor; auto. split; auto. intros ->. discriminate.
Qed.

Lemma substring_walk (s : string) (n : nat) (b b' : bool) :
  dash_walk b s = Some b' -> exists b'', dash_walk b (substring 0 n s) = Some b''.
Proof.
  revert n b b'. induction s as [|c s IH]; intros n b b' H.
  - destruct n; simpl; eauto.
  - destruct n as [|n]; simpl; [eauto|]. simpl in H.
    destruct (Ascii.eqb c "-"%char); [destruct b; [discriminate | eapply IH; exact H]|].
    destruct (word_char c); [eapply IH; exact H | discriminate].
Qed.

Lemma substring_length_le (s : string) (n : nat) : (String.length (substring 0 n s) <= n)%nat.
Proof.
  revert n. induction s as [|c s IH]; intros n; destruct n; simpl; try lia.
  specialize (IH n). lia.
Qed.

Lemma walk_chars (s : string) (b b' : bool) :
  dash_walk b s = Some b' ->
  forall c, In c (list_ascii_of_string s) ->
  c = "-"%char \/ (ascii_isalnum c = true /\ ascii_lower c = c).
Proof.
  revert b. induction s as [|c0 s IH]; intros b H c Hc; simpl in Hc; [contradiction|].
  simpl in H. destruct (Ascii.eqb c0 "-"%char) eqn:E.
  - destruct Hc as [<- | Hc]; [left; apply Ascii.eqb_eq; exact E|].
    destruct b; [discriminate | eapply IH; eauto].
  - destruct (word_char c0) eqn:W; [|discriminate].
    destruct Hc as [<- | Hc]; [|eapply IH; eauto].
    right. unfold word_char in W. apply andb_true_iff in W as [W1 W2].
    split; [exact W1 | apply Ascii.eqb_eq; exact W2].
Qed.

Lemma prefix_cons (a c : ascii) (s1 s : string) :
  String.prefix (String a s1) (String c s) =
  if ascii_dec a c then String.prefix s1 s else false.
Proof. reflexivity. Qed.

Lemma walk_no_leading_dash (s : string) (b' : bool) :
  dash_walk true s = Some b' -> String.prefix "-" s = false.
Proof.
  destruct s as [|c s]; [reflexivity|]. cbn [dash_walk].
  destruct (Ascii.eqb c "-"%char) eqn:E; [discriminate|]. intros _.
  rewrite prefix_cons. destruct (ascii_dec "-"%char c) as [<-|]; [discriminate | reflexivity].
Qed.

Lemma walk_no_double_dash (s : string) (b b' : bool) :
  dash_walk b s = Some b' -> contains_sub "--" s = false.
Proof.
  revert b. induction s as [|c s IH]; intros b H; [reflexivity|].
  cbn [dash_walk] in H. cbn [contains_sub]. rewrite prefix_cons.
  destruct (Ascii.eqb c "-"%char) eqn:E.
  - apply Ascii.eqb_eq in E. subst c. destruct b; [discriminate|].
    destruct (ascii_dec "-"%char "-"%char) as [_|n]; [|congruence].
    rewrite (walk_no_leading_dash s b' H). eapply IH; exact H.
  - destruct (ascii_dec "-"%char c) as [<-|]; [discriminate|].
    destruct (word_char c); [eapply IH; exact H | discriminate].
Qed.

(** X15.  On a title made of ASCII characters, [_sanitize_filename]
    gives a name of at most 100 characters, made of lower-case letters,
    digits and dashes only, that does not start with a dash and never has
    two dashes in a row. *)
Theorem sanitize_filename_safe (title : string) :
  (forall c, In c (list_ascii_of_string title) -> (nat_of_ascii c < 128)%nat) ->
  (String.length (sanitize_filename title) <= 100)%nat /\
  (forall c, In c (list_ascii_of_string (sanitize_filename title)) ->
     c = "-"%char \/ (ascii_isalnum c = true /\ ascii_lower c = c)) /\
  String.prefix "-" (sanitize_filename title) = false /\
  contains_sub "--" (sanitize_filename title) = false.
Proof.
  intros _.
  set (safe := str_map (fun c => if ascii_isalnum c then ascii_lower c else "-"%char) title).
  set (ws := filter (fun p => negb (String.eqb p EmptyString)) (split_dash safe EmptyString)).
  assert (Hsafe : forallb (fun c => Ascii.eqb c "-"%char || word_char c)
                    (list_ascii_of_string safe) = true).
  { unfold safe. rewrite str_map_chars, forallb_forall. intros c Hc.
    apply in_map_iff in Hc as (c0 & <- & _). apply sanitize_char_ok. }
  assert (Hws : Forall (fun w => w <> EmptyString /\ forallb word_char (list_ascii_of_string w) = true) ws).
  { apply filter_nonempty_words, split_dash_words; [reflexivity | exact Hsafe]. }
  assert (Hj : exists b, dash_walk true (join_dash ws) = Some b).
  { destruct ws as [|w ws'] eqn:E; [exists true; reflexivity|].
    exists false. apply join_dash_walk; [exact Hws | discriminate]. }
  destruct Hj as [b Hj].
  destruct (substring_walk (join_dash ws) 100 true b Hj) as [b'' Hs].
  change (sanitize_filename title) with (substring 0 100 (join_dash ws)).
  split; [apply substring_length_le|].
  split; [eapply walk_chars; exact Hs|].
  split; [eapply walk_no_leading_dash; exact Hs | eapply walk_no_double_dash; exact Hs].
Qed.

Lemma sanitize_filename_safe_witness :
  (forall c, In c (list_ascii_of_string "Q1  Plan: v2") -> (nat_of_ascii c < 128)%nat) /\
  (String.length (sanitize_filename "Q1  Plan: v2") <= 100)%nat /\
  (forall c, In c (list_ascii_of_string (sanitize_filename "Q1  Plan: v2")) ->
     c = "-"%char \/ (ascii_isalnum c = true /\ ascii_lower c = c)) /\
  String.prefix "-" (sanitize_filename "Q1  Plan: v2") = false /\
  contains_sub "--" (sanitize_filename "Q1  Plan: v2") = false.
Proof.
  assert (H : forall c, In c (list_ascii_of_string "Q1  Plan: v2") -> (nat_of_ascii c < 128)%nat).
  { intros c Hc. simpl in Hc.
    repeat (destruct Hc as [<-|Hc]; [vm_compute; repeat constructor|]). destruct Hc. }
  split; [exact H|]. exact (sanitize_filename_safe "Q1  Plan: v2" H).
Defined.



(** ** Saving and deleting local files *)

Lemma append_neq (a b : string) : b <> EmptyString -> (a ++ b)%string <> a.
Proof.
  intros Hb E. destruct b as [|c b]; [congruence|].
  apply (f_equal String.length) in E. revert E. clear.
  induction a as [|c' a IH]; simpl; [discriminate | intros E; apply IH; congruence].
Qed.




